(** * The expression binder of slang (source/binding/Binder.cpp)

    A shallow embedding of [Binder]: the functions that turn expression
    syntax into typed bound expressions, together with the laws the binder
    obeys (result types, select widths, quarantine of bad operands,
    assignment-like contexts, subroutine calls).

    Conventions of the embedding:
    - a C++ [int] is a [Z] with its two's complement wrap-around written
      out ([wrap_int]); [int64_t] and [uint16_t] likewise;
    - the arena is not modelled: a bound expression is a tree value, and
      the in-place mutation of [Expression::type] is a function returning
      the updated node;
    - the diagnostics of [Compilation] are threaded explicitly through the
      monad [M]; an [ASSERT], a [THROW_UNREACHABLE], a failed downcast or a
      missing constant value aborts the binder ([None]);
    - the collaborators that live outside Binder.cpp and have no fixed
      definition here (type propagation of a node, constant evaluation,
      the compatibility queries of the type algebra) form the interface
      [Collaborators], over which the binder is parametric;
    - the statement binder ([bindStatement] and the functions below it) is
      not embedded: the laws of this file are about expressions. *)

From Stdlib Require Import ZArith List String Ascii Bool Lia.
Import ListNotations.
Local Open Scope string_scope.
Local Open Scope Z_scope.

Set Implicit Arguments.
Set Warnings "-register-all".

(** ** Machine integers *)

Module MachineInt.

(** Value of the low [bits] bits of [v] read as a two's complement number. *)
Definition wrap_signed (bits : Z) (v : Z) : Z :=
  let m := 2 ^ bits in
  let r := v mod m in
  if r <? 2 ^ (bits - 1) then r else r - m.

(** Value of the low [bits] bits of [v] read as an unsigned number. *)
Definition wrap_unsigned (bits : Z) (v : Z) : Z := v mod 2 ^ bits.

Definition wrap_int (v : Z) : Z := wrap_signed 32 v.
Definition wrap_int64 (v : Z) : Z := wrap_signed 64 v.
Definition wrap_uint16 (v : Z) : Z := wrap_unsigned 16 v.

Definition INT_MIN : Z := - 2 ^ 31.
Definition INT_MAX : Z := 2 ^ 31 - 1.

Definition fits_int (v : Z) : Prop := INT_MIN <= v <= INT_MAX.

End MachineInt.
Export MachineInt.

(** ** Types (TypeSymbol) *)

Inductive SymbolKind :=
| SK_Unknown
| SK_IntegralType
| SK_RealType
| SK_ErrorType
| SK_Variable
| SK_FormalArgument
| SK_Parameter
| SK_Subroutine
| SK_Package.

(** The type descriptors the binder deals in.  An integral type carries its
    width, signedness, four-state flag and the lower bounds of its packed
    dimensions; a real type carries its width (32 for shortreal, 64 for
    real); [OtherTypeSymbol] stands for every type that is neither integral
    nor real (strings, events, ...). *)
Inductive TypeSymbol :=
| IntegralTypeSymbol (width : Z) (isSigned isFourState : bool) (lowerBounds : list Z)
| RealTypeSymbol (width : Z)
| ErrorTypeSymbol
| OtherTypeSymbol (name : string).

Module TypeSymbol.

Definition kind (t : TypeSymbol) : SymbolKind :=
  match t with
  | IntegralTypeSymbol _ _ _ _ => SK_IntegralType
  | RealTypeSymbol _ => SK_RealType
  | ErrorTypeSymbol => SK_ErrorType
  | OtherTypeSymbol _ => SK_Unknown
  end.

Definition isIntegral (t : TypeSymbol) : bool :=
  match t with IntegralTypeSymbol _ _ _ _ => true | _ => false end.

Definition isReal (t : TypeSymbol) : bool :=
  match t with RealTypeSymbol _ => true | _ => false end.

Definition isError (t : TypeSymbol) : bool :=
  match t with ErrorTypeSymbol => true | _ => false end.

(** Modelled from the spec: the accessors of TypeSymbol (TypeSymbol.h is
    not part of the sources).  Integral and real types answer with their
    own fields; the error type and the other types have no bits. *)
Definition width (t : TypeSymbol) : Z :=
  match t with
  | IntegralTypeSymbol w _ _ _ => w
  | RealTypeSymbol w => w
  | _ => 0
  end.

Definition isSigned (t : TypeSymbol) : bool :=
  match t with
  | IntegralTypeSymbol _ s _ _ => s
  | RealTypeSymbol _ => true
  | _ => false
  end.

Definition isFourState (t : TypeSymbol) : bool :=
  match t with
  | IntegralTypeSymbol _ _ f _ => f
  | _ => false
  end.

End TypeSymbol.

(** ** The type constructors of Compilation *)

(** Modelled from the spec: the type constructors of the compilation
    (Compilation.h is not part of the sources): [get_type(width, signed,
    four_state)] is the integral vector [width-1:0]; int is 32-bit signed
    two-state; logic is one four-state bit; real has 64 bits and shortreal
    32. *)
Definition getType (width : Z) (isSigned fourState : bool) : TypeSymbol :=
  IntegralTypeSymbol width isSigned fourState [0].

Definition getIntType : TypeSymbol := getType 32 true false.
Definition getLogicType : TypeSymbol := getType 1 false true.
Definition getRealType : TypeSymbol := RealTypeSymbol 64.
Definition getShortRealType : TypeSymbol := RealTypeSymbol 32.
Definition getErrorType : TypeSymbol := ErrorTypeSymbol.

(** ** Symbols and scopes *)

(** A value-carrying symbol: its name and its declared type. *)
Record ValueSymbol := {
  vs_name : string;
  vs_type : TypeSymbol
}.

Inductive Symbol :=
| VariableSymbol (v : ValueSymbol)
| FormalArgumentSymbol (v : ValueSymbol)
| ParameterSymbol (v : ValueSymbol)
| SubroutineSymbol (name : string) (arguments : list ValueSymbol) (returnType : TypeSymbol)
| PackageSymbol (name : string).

Module Symbol.

Definition kind (s : Symbol) : SymbolKind :=
  match s with
  | VariableSymbol _ => SK_Variable
  | FormalArgumentSymbol _ => SK_FormalArgument
  | ParameterSymbol _ => SK_Parameter
  | SubroutineSymbol _ _ _ => SK_Subroutine
  | PackageSymbol _ => SK_Package
  end.

End Symbol.

Inductive LookupNameKind := LNK_Default | LNK_Callable | LNK_Type.

Inductive LookupResultKind := Found | NotFound | Ambiguous.

Record LookupResult := {
  getResultKind : LookupResultKind;
  getFoundSymbol : option Symbol
}.

(** The scope graph is consumed through its lookup interface only. *)
Inductive Scope := {
  lookup : string -> LookupNameKind -> LookupResult;
  findPackage : string -> option Scope
}.

(** ** Diagnostics and the compilation *)

Inductive DiagCode :=
| UndeclaredIdentifier
| BadUnaryExpression
| BadBinaryExpression
| BadAssignment
| NoImplicitConversion
| TooManyArguments
| ReturnNotInSubroutine.

Definition SourceLocation := Z.

Inductive logic_t := L0 | L1 | Lx | Lz.

Definition logic_isUnknown (v : logic_t) : bool :=
  match v with Lx | Lz => true | _ => false end.

(** An arbitrary-precision integer as the lexer produces it. *)
Record SVInt := {
  getBitWidth : Z;
  sv_isSigned : bool;
  hasUnknown : bool;
  sv_value : Z
}.

Definition SVInt_Zero : SVInt :=
  {| getBitWidth := 1; sv_isSigned := false; hasUnknown := false; sv_value := 0 |}.

(** Modelled from the spec: [SVInt::as<T>()] (SVInt.h is not part of the
    sources); the spec says of the replication count that it "is truncated
    to 16 bits in the source", so the conversion keeps the low bits of the
    value that fit the target type. *)
Definition as_int64 (v : Z) : Z := wrap_int64 v.
Definition as_uint16 (v : Z) : Z := wrap_uint16 v.

(** ** Syntax *)

Inductive SyntaxKind :=
| Unknown
| NullLiteralExpression | StringLiteralExpression | TimeLiteralExpression
| WildcardLiteralExpression | OneStepLiteralExpression
| IdentifierName | IdentifierSelectName | ScopedName
| RealLiteralExpression | IntegerLiteralExpression | UnbasedUnsizedLiteralExpression
| IntegerVectorExpression
| ParenthesizedExpression
| UnaryPlusExpression | UnaryMinusExpression | UnaryBitwiseNotExpression
| UnaryBitwiseAndExpression | UnaryBitwiseOrExpression | UnaryBitwiseXorExpression
| UnaryBitwiseNandExpression | UnaryBitwiseNorExpression | UnaryBitwiseXnorExpression
| UnaryLogicalNotExpression
| AddExpression | SubtractExpression | MultiplyExpression | DivideExpression
| ModExpression | BinaryAndExpression | BinaryOrExpression | BinaryXorExpression
| BinaryXnorExpression
| EqualityExpression | InequalityExpression | CaseEqualityExpression
| CaseInequalityExpression | GreaterThanEqualExpression | GreaterThanExpression
| LessThanEqualExpression | LessThanExpression | WildcardEqualityExpression
| WildcardInequalityExpression
| LogicalAndExpression | LogicalOrExpression | LogicalImplicationExpression
| LogicalEquivalenceExpression
| LogicalShiftLeftExpression | LogicalShiftRightExpression
| ArithmeticShiftLeftExpression | ArithmeticShiftRightExpression | PowerExpression
| AssignmentExpression | AddAssignmentExpression | SubtractAssignmentExpression
| MultiplyAssignmentExpression | DivideAssignmentExpression | ModAssignmentExpression
| AndAssignmentExpression | OrAssignmentExpression | XorAssignmentExpression
| LogicalLeftShiftAssignmentExpression | LogicalRightShiftAssignmentExpression
| ArithmeticLeftShiftAssignmentExpression | ArithmeticRightShiftAssignmentExpression
| InvocationExpression
| ConditionalExpression
| ConcatenationExpression
| MultipleConcatenationExpression
| ElementSelectExpression
| BitSelect | SimpleRangeSelect | AscendingRangeSelect | DescendingRangeSelect.

Inductive TokenKind := TK_Identifier | TK_DoubleColon | TK_Dot | TK_Other.

(** What the binder reads of a token. *)
Record Token := {
  tok_kind : TokenKind;
  tok_location : SourceLocation;
  valueText : string;
  intValue : SVInt;
  realValue : Z;          (* the bits of the double *)
  bitValue : logic_t;
  isMissing : bool
}.

(** Expression syntax, one constructor per syntax class; a class that
    serves several kinds carries its [kind] tag. *)
Inductive ExpressionSyntax :=
| LiteralExpressionSyntax (kind : SyntaxKind) (literal : Token)
| IntegerVectorExpressionSyntax (value : Token)
| IdentifierNameSyntax (identifier : Token)
| IdentifierSelectNameSyntax (identifier : Token) (selectors : list (option SelectorSyntax))
| ScopedNameSyntax (left : ExpressionSyntax) (separator : Token) (right : ExpressionSyntax)
| ParenthesizedExpressionSyntax (expression : ExpressionSyntax)
| PrefixUnaryExpressionSyntax (kind : SyntaxKind) (operatorToken : Token)
    (operand : ExpressionSyntax)
| BinaryExpressionSyntax (kind : SyntaxKind) (left : ExpressionSyntax)
    (operatorToken : Token) (right : ExpressionSyntax)
| InvocationExpressionSyntax (left : ExpressionSyntax)
    (parameters : list (SourceLocation * ExpressionSyntax))
| ConditionalExpressionSyntax (conditions : list ExpressionSyntax)
    (left right : ExpressionSyntax)
| ConcatenationExpressionSyntax (expressions : list ExpressionSyntax)
| MultipleConcatenationExpressionSyntax (expression concatenation : ExpressionSyntax)
| ElementSelectExpressionSyntax (left : ExpressionSyntax) (selector : SelectorSyntax)
with SelectorSyntax :=
| BitSelectSyntax (expr : ExpressionSyntax)
| RangeSelectSyntax (kind : SyntaxKind) (left right : ExpressionSyntax).

Module Syntax.

Definition kind (s : ExpressionSyntax) : SyntaxKind :=
  match s with
  | LiteralExpressionSyntax k _ => k
  | IntegerVectorExpressionSyntax _ => IntegerVectorExpression
  | IdentifierNameSyntax _ => IdentifierName
  | IdentifierSelectNameSyntax _ _ => IdentifierSelectName
  | ScopedNameSyntax _ _ _ => ScopedName
  | ParenthesizedExpressionSyntax _ => ParenthesizedExpression
  | PrefixUnaryExpressionSyntax k _ _ => k
  | BinaryExpressionSyntax k _ _ _ => k
  | InvocationExpressionSyntax _ _ => InvocationExpression
  | ConditionalExpressionSyntax _ _ _ => ConditionalExpression
  | ConcatenationExpressionSyntax _ => ConcatenationExpression
  | MultipleConcatenationExpressionSyntax _ _ => MultipleConcatenationExpression
  | ElementSelectExpressionSyntax _ _ => ElementSelectExpression
  end.

Definition selectorKind (s : SelectorSyntax) : SyntaxKind :=
  match s with
  | BitSelectSyntax _ => BitSelect
  | RangeSelectSyntax k _ _ => k
  end.

(** [syntax.left.getFirstToken()] of an invocation whose callee is a
    simple name. *)
Definition getFirstToken (s : ExpressionSyntax) : option Token :=
  match s with
  | IdentifierNameSyntax t => Some t
  | IdentifierSelectNameSyntax t _ => Some t
  | _ => None
  end.

End Syntax.

(** ** Bound expressions *)

(** Every node carries its (mutable) type first; unary and binary nodes
    keep the kind of the syntax they come from. *)
Inductive Expression :=
| IntegerLiteral (type : TypeSymbol) (value : SVInt)
| RealLiteral (type : TypeSymbol) (value : Z)
| UnbasedUnsizedIntegerLiteral (type : TypeSymbol) (value : logic_t)
| VariableRefExpression (type : TypeSymbol) (symbol : ValueSymbol)
| ParameterRefExpression (type : TypeSymbol) (symbol : ValueSymbol)
| UnaryExpression (type : TypeSymbol) (op : SyntaxKind) (operand : Expression)
| BinaryExpression (type : TypeSymbol) (op : SyntaxKind) (left right : Expression)
| TernaryExpression (type : TypeSymbol) (pred left right : Expression)
| NaryExpression (type : TypeSymbol) (operands : list Expression)
| SelectExpression (type : TypeSymbol) (kind : SyntaxKind) (expr left right : Expression)
| CallExpression (type : TypeSymbol) (subroutine : string) (arguments : list Expression)
| InvalidExpression (child : option Expression) (type : TypeSymbol).

Module Expr.

Definition type (e : Expression) : TypeSymbol :=
  match e with
  | IntegerLiteral t _ | RealLiteral t _ | UnbasedUnsizedIntegerLiteral t _
  | VariableRefExpression t _ | ParameterRefExpression t _
  | UnaryExpression t _ _ | BinaryExpression t _ _ _ | TernaryExpression t _ _ _
  | NaryExpression t _ | SelectExpression t _ _ _ _ | CallExpression t _ _
  | InvalidExpression _ t => t
  end.

(** The assignment [e.type = &t]. *)
Definition set_type (t : TypeSymbol) (e : Expression) : Expression :=
  match e with
  | IntegerLiteral _ v => IntegerLiteral t v
  | RealLiteral _ v => RealLiteral t v
  | UnbasedUnsizedIntegerLiteral _ v => UnbasedUnsizedIntegerLiteral t v
  | VariableRefExpression _ s => VariableRefExpression t s
  | ParameterRefExpression _ s => ParameterRefExpression t s
  | UnaryExpression _ k o => UnaryExpression t k o
  | BinaryExpression _ k l r => BinaryExpression t k l r
  | TernaryExpression _ p l r => TernaryExpression t p l r
  | NaryExpression _ os => NaryExpression t os
  | SelectExpression _ k e l r => SelectExpression t k e l r
  | CallExpression _ s a => CallExpression t s a
  | InvalidExpression c _ => InvalidExpression c t
  end.

(** Modelled from the spec: [Expression::bad()] (Expression.h is not part
    of the sources): "bad() <=> type.is_error()". *)
Definition bad (e : Expression) : bool := TypeSymbol.isError (type e).

(** The node is an [InvalidExpression]. *)
Definition isInvalid (e : Expression) : bool :=
  match e with InvalidExpression _ _ => true | _ => false end.

End Expr.

(** Arguments attached to a diagnostic with [<<]. *)
Inductive DiagArg :=
| ArgText (s : string)
| ArgRange (syntax : ExpressionSyntax)   (* the source range of a syntax node *)
| ArgInt (n : Z)
| ArgType (t : TypeSymbol).              (* [type->toString()] *)

Record Diagnostic := {
  code : DiagCode;
  location : SourceLocation;
  args : list DiagArg
}.

(** The part of the compilation the binder writes to: the diagnostics, in
    the order of emission. *)
Record Compilation := {
  diags : list Diagnostic
}.

Definition addError (c : DiagCode) (loc : SourceLocation) (a : list DiagArg)
    (comp : Compilation) : Compilation :=
  {| diags := diags comp ++ [ {| code := c; location := loc; args := a |} ] |}.

(** ** The binder monad: diagnostics threaded, abort on internal errors *)

Definition M (A : Type) : Type := Compilation -> option (A * Compilation).

Definition ret {A} (a : A) : M A := fun c => Some (a, c).

Definition bind {A B} (m : M A) (k : A -> M B) : M B :=
  fun c => match m c with
           | Some (a, c') => k a c'
           | None => None
           end.

(** [ASSERT] failure, [THROW_UNREACHABLE], failed downcast. *)
Definition abort {A} : M A := fun _ => None.

(** [compilation.addError(code, location) << args]. *)
Definition emit (c : DiagCode) (loc : SourceLocation) (a : list DiagArg) : M unit :=
  fun comp => Some (tt, addError c loc a comp).

Declare Scope binder_scope.
Delimit Scope binder_scope with binder.
Notation "x <- m ;; k" := (bind m (fun x => k))
  (at level 61, m at next level, right associativity) : binder_scope.
Notation "m ;;; k" := (bind m (fun _ => k))
  (at level 61, right associativity) : binder_scope.
Local Open Scope binder_scope.

(** ** Collaborators of the binder *)

(** The operations the binder calls on objects defined outside Binder.cpp:
    [Expression::propagateType] (as a function returning the node after the
    in-place update), [Expression::eval] followed by [.integer()] ([None]
    when the expression has no constant integer value), and the two
    compatibility queries of [TypeSymbol], receiver first.  The last
    member is a value the sources do not give: the four-state flag of the
    type that [Compilation::getType] returns when it is called with a width
    and a signedness only (Compilation.h is not part of the sources). *)
Class Collaborators := {
  propagateType : TypeSymbol -> Expression -> Expression;
  eval : Expression -> option Z;
  isAssignmentCompatible : TypeSymbol -> TypeSymbol -> bool;
  isCastCompatible : TypeSymbol -> TypeSymbol -> bool;
  omittedFourState : bool
}.

Section Binder.

Context `{Collaborators}.

(** The call [compilation.getType(width, isSigned)], two arguments. *)
Definition getType2 (width : Z) (isSigned : bool) : TypeSymbol :=
  getType width isSigned omittedFourState.

(** [expr.propagateType( *expr.type)] *)
Definition propagateOwnType (expr : Expression) : Expression :=
  propagateType (Expr.type expr) expr.

Definition andPropagate (m : M Expression) : M Expression :=
  expr <- m ;; ret (propagateOwnType expr).

Definition badExpr (expr : option Expression) : M Expression :=
  ret (InvalidExpression expr getErrorType).

(** [e.eval().integer().as<int64_t>().value()] *)
Definition evalInt64 (e : Expression) : M Z :=
  match eval e with
  | Some v => ret (as_int64 v)
  | None => abort
  end.

(** [e.eval().integer().as<uint16_t>().value()] *)
Definition evalUInt16 (e : Expression) : M Z :=
  match eval e with
  | Some v => ret (as_uint16 v)
  | None => abort
  end.

(** *** Result types and propagation *)

Definition binaryOperatorResultType (lhsType rhsType : TypeSymbol)
    (forceFourState : bool) : TypeSymbol :=
  let width := Z.max (TypeSymbol.width lhsType) (TypeSymbol.width rhsType) in
  let isSigned := TypeSymbol.isSigned lhsType && TypeSymbol.isSigned rhsType in
  let fourState := forceFourState || TypeSymbol.isFourState lhsType
                   || TypeSymbol.isFourState rhsType in
  if TypeSymbol.isReal lhsType || TypeSymbol.isReal rhsType then
    if 64 <=? width then getRealType else getShortRealType
  else getType width isSigned fourState.

(** Returns the flag and [rhs] after the update. *)
Definition propagateAssignmentLike (rhs : Expression) (lhsType : TypeSymbol)
    : bool * Expression :=
  if TypeSymbol.width (Expr.type rhs) <? TypeSymbol.width lhsType then
    let newType :=
      if negb (TypeSymbol.isReal lhsType) && negb (TypeSymbol.isReal (Expr.type rhs)) then
        getType (TypeSymbol.width lhsType) (TypeSymbol.isSigned (Expr.type rhs))
                (TypeSymbol.isFourState (Expr.type rhs))
      else if 32 <? TypeSymbol.width lhsType then getRealType
      else getShortRealType in
    (true, propagateOwnType (Expr.set_type newType rhs))
  else (false, rhs).

(** *** Operator applicability *)

Definition checkOperatorApplicability1 (op : SyntaxKind) (location : SourceLocation)
    (operand : Expression) : M bool :=
  if Expr.bad operand then ret false
  else
    let type := Expr.type operand in
    let good :=
      match op with
      | UnaryPlusExpression | UnaryMinusExpression | UnaryLogicalNotExpression =>
          TypeSymbol.isIntegral type || TypeSymbol.isReal type
      | _ => TypeSymbol.isIntegral type
      end in
    if good then ret true
    else emit BadUnaryExpression location [ArgType type] ;;; ret false.

Definition checkOperatorApplicability2 (op : SyntaxKind) (location : SourceLocation)
    (lhs rhs : Expression) : M bool :=
  if Expr.bad lhs || Expr.bad rhs then ret false
  else
    let lt := Expr.type lhs in
    let rt := Expr.type rhs in
    let good :=
      match op with
      | AddExpression | SubtractExpression | MultiplyExpression | DivideExpression
      | PowerExpression
      | LogicalAndExpression | LogicalOrExpression | LogicalImplicationExpression
      | LogicalEquivalenceExpression
      | LessThanEqualExpression | LessThanExpression | GreaterThanEqualExpression
      | GreaterThanExpression
      | EqualityExpression | InequalityExpression | WildcardEqualityExpression
      | WildcardInequalityExpression | CaseEqualityExpression
      | CaseInequalityExpression =>
          (TypeSymbol.isIntegral lt || TypeSymbol.isReal lt) &&
          (TypeSymbol.isIntegral rt || TypeSymbol.isReal rt)
      | _ => TypeSymbol.isIntegral lt && TypeSymbol.isIntegral rt
      end in
    if good then ret true
    else emit BadBinaryExpression location [ArgType lt; ArgType rt] ;;; ret false.

(** *** Literals and simple names (no subexpression to bind) *)

Definition bindLiteral (kind : SyntaxKind) (literal : Token) : M Expression :=
  match kind with
  | IntegerLiteralExpression =>
      ret (IntegerLiteral getIntType (intValue literal))
  | RealLiteralExpression =>
      ret (RealLiteral getRealType (realValue literal))
  | UnbasedUnsizedLiteralExpression =>
      let val := bitValue literal in
      ret (UnbasedUnsizedIntegerLiteral (getType 1 false (logic_isUnknown val)) val)
  | _ => abort
  end.

Definition bindLiteralVector (value : Token) : M Expression :=
  if isMissing value then
    badExpr (Some (IntegerLiteral getErrorType SVInt_Zero))
  else
    let v := intValue value in
    let type := getType (getBitWidth v) (sv_isSigned v) (hasUnknown v) in
    ret (IntegerLiteral type v).

Definition bindSimpleName (scope : Scope) (identifierTok : Token) : M Expression :=
  let identifier := valueText identifierTok in
  let result := lookup scope identifier LNK_Default in
  match getResultKind result with
  | Found =>
      match getFoundSymbol result with
      | Some (VariableSymbol v) | Some (FormalArgumentSymbol v) =>
          ret (VariableRefExpression (vs_type v) v)
      | Some (ParameterSymbol v) =>
          ret (ParameterRefExpression (vs_type v) v)
      | _ => abort
      end
  | _ =>
      emit UndeclaredIdentifier (tok_location identifierTok) [ArgText identifier] ;;;
      badExpr None
  end.

(** *** Operators, with the binding of subexpressions as a parameter *)

Section Operators.

Variable bindAndPropagate : ExpressionSyntax -> M Expression.

Definition bindAssignmentLikeContextWith (syntax : ExpressionSyntax)
    (location : SourceLocation) (assignmentType : TypeSymbol) : M Expression :=
  expr <- bindAndPropagate syntax ;;
  if Expr.bad expr then ret expr
  else
    let type := Expr.type expr in
    if negb (isAssignmentCompatible assignmentType type) then
      let code := if isCastCompatible assignmentType type
                  then NoImplicitConversion else BadAssignment in
      emit code location [ArgRange syntax] ;;;
      badExpr (Some expr)
    else
      let '(widened, expr) := propagateAssignmentLike expr assignmentType in
      if negb widened then ret (propagateOwnType expr) else ret expr.

Definition bindUnaryArithmeticOperator (kind : SyntaxKind) (operatorToken : Token)
    (operandSyntax : ExpressionSyntax) : M Expression :=
  operand <- bindAndPropagate operandSyntax ;;
  ok <- checkOperatorApplicability1 kind (tok_location operatorToken) operand ;;
  if negb ok then badExpr (Some (UnaryExpression getErrorType kind operand))
  else ret (UnaryExpression (Expr.type operand) kind operand).

Definition bindUnaryReductionOperator (kind : SyntaxKind) (operatorToken : Token)
    (operandSyntax : ExpressionSyntax) : M Expression :=
  operand <- bindAndPropagate operandSyntax ;;
  ok <- checkOperatorApplicability1 kind (tok_location operatorToken) operand ;;
  if negb ok then badExpr (Some (UnaryExpression getErrorType kind operand))
  else ret (UnaryExpression getLogicType kind operand).

Definition bindArithmeticOperator (kind : SyntaxKind) (left : ExpressionSyntax)
    (operatorToken : Token) (right : ExpressionSyntax) : M Expression :=
  lhs <- bindAndPropagate left ;;
  rhs <- bindAndPropagate right ;;
  ok <- checkOperatorApplicability2 kind (tok_location operatorToken) lhs rhs ;;
  if negb ok then badExpr (Some (BinaryExpression getErrorType kind lhs rhs))
  else
    let type := binaryOperatorResultType (Expr.type lhs) (Expr.type rhs)
                  match kind with DivideExpression => true | _ => false end in
    ret (BinaryExpression type kind lhs rhs).

Definition bindComparisonOperator (kind : SyntaxKind) (left : ExpressionSyntax)
    (operatorToken : Token) (right : ExpressionSyntax) : M Expression :=
  lhs <- bindAndPropagate left ;;
  rhs <- bindAndPropagate right ;;
  ok <- checkOperatorApplicability2 kind (tok_location operatorToken) lhs rhs ;;
  if negb ok then badExpr (Some (BinaryExpression getErrorType kind lhs rhs))
  else ret (BinaryExpression getLogicType kind lhs rhs).

Definition bindRelationalOperator (kind : SyntaxKind) (left : ExpressionSyntax)
    (operatorToken : Token) (right : ExpressionSyntax) : M Expression :=
  lhs <- bindAndPropagate left ;;
  rhs <- bindAndPropagate right ;;
  ok <- checkOperatorApplicability2 kind (tok_location operatorToken) lhs rhs ;;
  if negb ok then badExpr (Some (BinaryExpression getErrorType kind lhs rhs))
  else
    let '(widened, rhs) := propagateAssignmentLike rhs (Expr.type lhs) in
    let lhs := if negb widened
               then snd (propagateAssignmentLike lhs (Expr.type rhs))
               else lhs in
    ret (BinaryExpression getLogicType kind lhs rhs).

Definition bindShiftOrPowerOperator (kind : SyntaxKind) (left : ExpressionSyntax)
    (operatorToken : Token) (right : ExpressionSyntax) : M Expression :=
  lhs <- bindAndPropagate left ;;
  rhs <- bindAndPropagate right ;;
  ok <- checkOperatorApplicability2 kind (tok_location operatorToken) lhs rhs ;;
  if negb ok then badExpr (Some (BinaryExpression getErrorType kind lhs rhs))
  else
    let type := binaryOperatorResultType (Expr.type lhs) (Expr.type rhs)
                  match kind with PowerExpression => true | _ => false end in
    ret (BinaryExpression type kind lhs rhs).

Definition assignmentBinopKind (kind : SyntaxKind) : option SyntaxKind :=
  match kind with
  | AssignmentExpression => Some Unknown
  | AddAssignmentExpression => Some AddExpression
  | SubtractAssignmentExpression => Some SubtractExpression
  | MultiplyAssignmentExpression => Some MultiplyExpression
  | DivideAssignmentExpression => Some DivideExpression
  | ModAssignmentExpression => Some ModExpression
  | AndAssignmentExpression => Some BinaryAndExpression
  | OrAssignmentExpression => Some BinaryOrExpression
  | XorAssignmentExpression => Some BinaryXorExpression
  | LogicalLeftShiftAssignmentExpression => Some LogicalShiftLeftExpression
  | LogicalRightShiftAssignmentExpression => Some LogicalShiftRightExpression
  | ArithmeticLeftShiftAssignmentExpression => Some ArithmeticShiftLeftExpression
  | ArithmeticRightShiftAssignmentExpression => Some ArithmeticShiftRightExpression
  | _ => None
  end.

Definition bindAssignmentOperator (kind : SyntaxKind) (left : ExpressionSyntax)
    (operatorToken : Token) (right : ExpressionSyntax) : M Expression :=
  lhs <- bindAndPropagate left ;;
  rhs <- bindAndPropagate right ;;
  match assignmentBinopKind kind with
  | None => abort
  | Some binopKind =>
      ok <- checkOperatorApplicability2 binopKind (tok_location operatorToken) lhs rhs ;;
      if negb ok then badExpr (Some (BinaryExpression getErrorType kind lhs rhs))
      else
        let rhs := snd (propagateAssignmentLike rhs (Expr.type lhs)) in
        ret (BinaryExpression (Expr.type lhs) kind lhs rhs)
  end.

(** The loop of [bindSubroutineCall] over the actual arguments;
    [formalArgs] is the suffix of the formals from the current index. *)
Fixpoint bindArguments (actualArgs : list (SourceLocation * ExpressionSyntax))
    (formalArgs : list ValueSymbol) (buffer : list Expression)
    : M (list Expression) :=
  match actualArgs with
  | [] => ret buffer
  | (start, argExpr) :: actualArgs' =>
      match formalArgs with
      | [] => abort
      | formal :: formalArgs' =>
          arg <- bindAssignmentLikeContextWith argExpr start (vs_type formal) ;;
          bindArguments actualArgs' formalArgs' (buffer ++ [arg])
      end
  end.

Definition bindSubroutineCall (scope : Scope) (left : ExpressionSyntax)
    (actualArgs : list (SourceLocation * ExpressionSyntax)) : M Expression :=
  match Syntax.getFirstToken left with
  | None => abort
  | Some name =>
      let result := lookup scope (valueText name) LNK_Callable in
      match getFoundSymbol result with
      | Some (SubroutineSymbol subroutine formalArgs returnType) =>
          if (List.length formalArgs <? List.length actualArgs)%nat then
            emit TooManyArguments (tok_location name)
              [ArgRange left;
               ArgInt (wrap_int (Z.of_nat (List.length formalArgs)));
               ArgInt (Z.of_nat (List.length actualArgs))] ;;;
            badExpr None
          else
            buffer <- bindArguments actualArgs formalArgs [] ;;
            ret (CallExpression returnType subroutine buffer)
      | _ => abort
      end
  end.

Definition bindConditionalExpression (conditions : list ExpressionSyntax)
    (leftSyntax rightSyntax : ExpressionSyntax) : M Expression :=
  match conditions with
  | [predicate] =>
      pred <- bindAndPropagate predicate ;;
      left <- bindAndPropagate leftSyntax ;;
      right <- bindAndPropagate rightSyntax ;;
      let type := binaryOperatorResultType (Expr.type left) (Expr.type right) true in
      ret (TernaryExpression type pred left right)
  | _ => abort
  end.

(** The loop of [bindConcatenationExpression]. *)
Fixpoint bindConcatenationElements (expressions : list ExpressionSyntax)
    (buffer : list Expression) (totalWidth : Z) : M Expression :=
  match expressions with
  | [] => ret (NaryExpression (getType2 totalWidth false) buffer)
  | argSyntax :: expressions' =>
      arg <- bindAndPropagate argSyntax ;;
      let type := Expr.type arg in
      if negb (TypeSymbol.isIntegral type) then
        badExpr (Some (NaryExpression getErrorType []))
      else
        bindConcatenationElements expressions' (buffer ++ [arg])
          (wrap_int (totalWidth + TypeSymbol.width type))
  end.

Definition bindConcatenationExpression (expressions : list ExpressionSyntax)
    : M Expression :=
  bindConcatenationElements expressions [] 0.

Definition bindMultipleConcatenationExpression
    (expression concatenation : ExpressionSyntax) : M Expression :=
  left <- bindAndPropagate expression ;;
  right <- bindAndPropagate concatenation ;;
  replicationTimes <- evalUInt16 left ;;
  ret (BinaryExpression
         (getType2 (wrap_int (TypeSymbol.width (Expr.type right) * replicationTimes)) false)
         MultipleConcatenationExpression left right).

(** [bindSelectExpression(syntax, expr, selector)] *)
Definition bindSelectExpression3 (expr : Expression) (selector : SelectorSyntax)
    : M Expression :=
  if Expr.bad expr then badExpr (Some expr)
  else
    match Expr.type expr with
    | IntegralTypeSymbol _ _ _ (lowerBound0 :: _) =>
        let down := 0 <=? lowerBound0 in
        let kind := Syntax.selectorKind selector in
        let finish (left right : Expression) (width : Z) : M Expression :=
          ret (SelectExpression
                 (getType width (TypeSymbol.isSigned (Expr.type expr))
                          (TypeSymbol.isFourState (Expr.type expr)))
                 kind expr left right) in
        match selector with
        | BitSelectSyntax e =>
            left <- bindAndPropagate e ;;
            finish left left 1
        | RangeSelectSyntax SimpleRangeSelect l r =>
            left <- bindAndPropagate l ;;
            right <- bindAndPropagate r ;;
            msb <- evalInt64 left ;;
            lsb <- evalInt64 right ;;
            finish left right
              (wrap_int ((if down then 1 else -1) * wrap_int (wrap_int64 (msb - lsb))))
        | RangeSelectSyntax AscendingRangeSelect l r
        | RangeSelectSyntax DescendingRangeSelect l r =>
            left <- bindAndPropagate l ;;
            right <- bindAndPropagate r ;;
            n <- evalInt64 right ;;
            finish left right (wrap_int n)
        | _ => abort
        end
    | _ => abort
    end.

Definition bindSelectExpression (left : ExpressionSyntax) (selector : SelectorSyntax)
    : M Expression :=
  expr <- bindAndPropagate left ;;
  bindSelectExpression3 expr selector.

Definition bindSelectName (scope : Scope) (identifier : Token)
    (selectors : list (option SelectorSyntax)) : M Expression :=
  match selectors with
  | [Some selector] =>
      expr <- bindSimpleName scope identifier ;;
      bindSelectExpression3 expr selector
  | _ => abort
  end.

End Operators.

Definition isNameKind (k : SyntaxKind) : bool :=
  match k with
  | IdentifierName | IdentifierSelectName | ScopedName => true
  | _ => false
  end.

Definition bindScopedName (bindName : Scope -> ExpressionSyntax -> M Expression)
    (scope : Scope) (left : ExpressionSyntax) (separator : Token)
    (right : ExpressionSyntax) : M Expression :=
  match tok_kind separator, left with
  | TK_DoubleColon, IdentifierNameSyntax leftIdentifier =>
      let identifier := valueText leftIdentifier in
      if String.eqb identifier "" then badExpr None
      else
        match findPackage scope identifier with
        | None => badExpr None
        | Some package => bindName package right
        end
  | _, _ => badExpr None
  end.

End Binder.

(** ** The dispatch over syntax kinds and the entry points *)

Section Dispatch.

Context `{Collaborators}.

(** [Binder::bindExpression], for the binder of [scope].  The source
    switches on [syntax.kind] and downcasts; here the syntax class is
    matched first and its kind second, and a node whose kind does not
    belong to its class aborts like the failed downcast.  [bindName] is
    the same switch restricted to the three name kinds. *)
Fixpoint bindExpression (scope : Scope) (syntax : ExpressionSyntax) {struct syntax}
    : M Expression :=
  let bindAndPropagate := fun s => andPropagate (bindExpression scope s) in
  let bindName := fun package s =>
    if isNameKind (Syntax.kind s) then bindExpression package s else abort in
  match syntax with
  | LiteralExpressionSyntax kind literal =>
      match kind with
      | NullLiteralExpression | StringLiteralExpression | TimeLiteralExpression
      | WildcardLiteralExpression | OneStepLiteralExpression =>
          badExpr None
      | RealLiteralExpression | IntegerLiteralExpression
      | UnbasedUnsizedLiteralExpression =>
          bindLiteral kind literal
      | _ => abort
      end
  | IntegerVectorExpressionSyntax value => bindLiteralVector value
  | IdentifierNameSyntax identifier => bindSimpleName scope identifier
  | IdentifierSelectNameSyntax identifier selectors =>
      bindSelectName bindAndPropagate scope identifier selectors
  | ScopedNameSyntax lhs separator rhs =>
      bindScopedName bindName scope lhs separator rhs
  | ParenthesizedExpressionSyntax expression => bindExpression scope expression
  | PrefixUnaryExpressionSyntax kind operatorToken operand =>
      match kind with
      | UnaryPlusExpression | UnaryMinusExpression | UnaryBitwiseNotExpression =>
          bindUnaryArithmeticOperator bindAndPropagate kind operatorToken operand
      | UnaryBitwiseAndExpression | UnaryBitwiseOrExpression
      | UnaryBitwiseXorExpression | UnaryBitwiseNandExpression
      | UnaryBitwiseNorExpression | UnaryBitwiseXnorExpression
      | UnaryLogicalNotExpression =>
          bindUnaryReductionOperator bindAndPropagate kind operatorToken operand
      | _ => abort
      end
  | BinaryExpressionSyntax kind lhs operatorToken rhs =>
      match kind with
      | AddExpression | SubtractExpression | MultiplyExpression | DivideExpression
      | ModExpression | BinaryAndExpression | BinaryOrExpression
      | BinaryXorExpression | BinaryXnorExpression =>
          bindArithmeticOperator bindAndPropagate kind lhs operatorToken rhs
      | EqualityExpression | InequalityExpression | CaseEqualityExpression
      | CaseInequalityExpression | GreaterThanEqualExpression
      | GreaterThanExpression | LessThanEqualExpression | LessThanExpression
      | WildcardEqualityExpression | WildcardInequalityExpression =>
          bindComparisonOperator bindAndPropagate kind lhs operatorToken rhs
      | LogicalAndExpression | LogicalOrExpression | LogicalImplicationExpression
      | LogicalEquivalenceExpression =>
          bindRelationalOperator bindAndPropagate kind lhs operatorToken rhs
      | LogicalShiftLeftExpression | LogicalShiftRightExpression
      | ArithmeticShiftLeftExpression | ArithmeticShiftRightExpression
      | PowerExpression =>
          bindShiftOrPowerOperator bindAndPropagate kind lhs operatorToken rhs
      | AssignmentExpression | AddAssignmentExpression
      | SubtractAssignmentExpression | MultiplyAssignmentExpression
      | DivideAssignmentExpression | ModAssignmentExpression
      | AndAssignmentExpression | OrAssignmentExpression | XorAssignmentExpression
      | LogicalLeftShiftAssignmentExpression | LogicalRightShiftAssignmentExpression
      | ArithmeticLeftShiftAssignmentExpression
      | ArithmeticRightShiftAssignmentExpression =>
          bindAssignmentOperator bindAndPropagate kind lhs operatorToken rhs
      | _ => abort
      end
  | InvocationExpressionSyntax callee parameters =>
      bindSubroutineCall bindAndPropagate scope callee parameters
  | ConditionalExpressionSyntax conditions lhs rhs =>
      bindConditionalExpression bindAndPropagate conditions lhs rhs
  | ConcatenationExpressionSyntax expressions =>
      bindConcatenationExpression bindAndPropagate expressions
  | MultipleConcatenationExpressionSyntax expression concatenation =>
      bindMultipleConcatenationExpression bindAndPropagate expression concatenation
  | ElementSelectExpressionSyntax base selector =>
      bindSelectExpression bindAndPropagate base selector
  end.

Definition bindAndPropagate (scope : Scope) (syntax : ExpressionSyntax) : M Expression :=
  andPropagate (bindExpression scope syntax).

Definition bindConstantExpression (scope : Scope) (syntax : ExpressionSyntax)
    : M Expression :=
  bindAndPropagate scope syntax.

Definition bindSelfDeterminedExpression (scope : Scope) (syntax : ExpressionSyntax)
    : M Expression :=
  bindAndPropagate scope syntax.

Definition bindAssignmentLikeContext (scope : Scope) (syntax : ExpressionSyntax)
    (location : SourceLocation) (assignmentType : TypeSymbol) : M Expression :=
  bindAssignmentLikeContextWith (bindAndPropagate scope) syntax location assignmentType.

End Dispatch.

(** ** A reference instance of the collaborators *)

Module Reference.

(** Modelled from the spec: [Expression::propagateType] (Expression.cpp is
    not part of the sources).  "Each bound-node kind defines its own
    propagation behavior (e.g. arithmetic operators widen both operands;
    shifts widen only the LHS; reduction operators do not propagate
    outward)"; an [Invalid] node keeps type [Error].  Every other node
    takes the type its context requests. *)
Fixpoint propagateType (newType : TypeSymbol) (e : Expression) : Expression :=
  match e with
  | InvalidExpression _ _ => e
  | UnaryExpression _ op operand =>
      match op with
      | UnaryPlusExpression | UnaryMinusExpression | UnaryBitwiseNotExpression =>
          UnaryExpression newType op (propagateType newType operand)
      | _ => e
      end
  | BinaryExpression _ op lhs rhs =>
      match op with
      | AddExpression | SubtractExpression | MultiplyExpression | DivideExpression
      | ModExpression | BinaryAndExpression | BinaryOrExpression
      | BinaryXorExpression | BinaryXnorExpression =>
          BinaryExpression newType op (propagateType newType lhs)
                           (propagateType newType rhs)
      | LogicalShiftLeftExpression | LogicalShiftRightExpression
      | ArithmeticShiftLeftExpression | ArithmeticShiftRightExpression
      | PowerExpression =>
          BinaryExpression newType op (propagateType newType lhs) rhs
      | EqualityExpression | InequalityExpression | CaseEqualityExpression
      | CaseInequalityExpression | GreaterThanEqualExpression
      | GreaterThanExpression | LessThanEqualExpression | LessThanExpression
      | WildcardEqualityExpression | WildcardInequalityExpression
      | LogicalAndExpression | LogicalOrExpression | LogicalImplicationExpression
      | LogicalEquivalenceExpression => e
      | _ => Expr.set_type newType e
      end
  | TernaryExpression _ pred lhs rhs =>
      TernaryExpression newType pred (propagateType newType lhs)
                        (propagateType newType rhs)
  | _ => Expr.set_type newType e
  end.

(** Modelled from the spec: the [eval()] facade of the constant
    evaluation engine (not part of the sources), here for the constants
    the binder's own literals denote: a known integer literal evaluates to
    its lexed value. *)
Definition eval (e : Expression) : option Z :=
  match e with
  | IntegerLiteral _ v => if hasUnknown v then None else Some (sv_value v)
  | _ => None
  end.

Definition isNumeric (t : TypeSymbol) : bool :=
  TypeSymbol.isIntegral t || TypeSymbol.isReal t.

(** Modelled from the spec: the assignability queries of the type algebra
    (TypeSymbol.cpp is not part of the sources; the spec only names
    them).  In this instance the numeric types are mutually assignable,
    and a type that is neither numeric nor the error type can only be
    cast to or from an integral type. *)
Definition isAssignmentCompatible (dst src : TypeSymbol) : bool :=
  isNumeric dst && isNumeric src.

Definition isCastCompatible (dst src : TypeSymbol) : bool :=
  isAssignmentCompatible dst src
  || (TypeSymbol.isIntegral dst && negb (TypeSymbol.isError src))
  || (negb (TypeSymbol.isError dst) && TypeSymbol.isIntegral src).

(** The flag of the two-argument [getType] is set to false in this
    instance; no law of this file depends on its value. *)
Definition collaborators : Collaborators :=
  Build_Collaborators propagateType eval isAssignmentCompatible isCastCompatible false.

End Reference.

(** ** Building scopes and syntax for the scenarios *)

Module Scenario.

Definition emptyCompilation : Compilation := {| diags := [] |}.

Definition token (k : TokenKind) (loc : SourceLocation) (text : string) : Token :=
  {| tok_kind := k; tok_location := loc; valueText := text;
     intValue := SVInt_Zero; realValue := 0; bitValue := L0; isMissing := false |}.

Definition identifier (loc : SourceLocation) (name : string) : ExpressionSyntax :=
  IdentifierNameSyntax (token TK_Identifier loc name).

(** An unsized decimal literal such as [7]: a 32-bit signed value. *)
Definition integerLiteral (loc : SourceLocation) (v : Z) : ExpressionSyntax :=
  LiteralExpressionSyntax IntegerLiteralExpression
    {| tok_kind := TK_Other; tok_location := loc; valueText := "";
       intValue := {| getBitWidth := 32; sv_isSigned := true;
                      hasUnknown := false; sv_value := v |};
       realValue := 0; bitValue := L0; isMissing := false |}.

(** A sized vector literal such as [20'd65536]. *)
Definition vectorLiteral (loc : SourceLocation) (bits v : Z) : ExpressionSyntax :=
  IntegerVectorExpressionSyntax
    {| tok_kind := TK_Other; tok_location := loc; valueText := "";
       intValue := {| getBitWidth := bits; sv_isSigned := false;
                      hasUnknown := false; sv_value := v |};
       realValue := 0; bitValue := L0; isMissing := false |}.

Definition binary (k : SyntaxKind) (l : ExpressionSyntax) (loc : SourceLocation)
    (r : ExpressionSyntax) : ExpressionSyntax :=
  BinaryExpressionSyntax k l (token TK_Other loc "") r.

Definition findMember (members : list (string * Symbol)) (name : string)
    : option Symbol :=
  match find (fun m => String.eqb (fst m) name) members with
  | Some m => Some (snd m)
  | None => None
  end.

(** A scope with the given members and no packages; a callable lookup
    sees the subroutines, any other lookup the remaining symbols. *)
Definition scopeOf (members : list (string * Symbol)) : Scope :=
  {| lookup := fun name nameKind =>
       let visible (s : Symbol) :=
         match nameKind, Symbol.kind s with
         | LNK_Callable, SK_Subroutine => true
         | LNK_Callable, _ => false
         | _, SK_Subroutine => false
         | _, _ => true
         end in
       match findMember (filter (fun m => visible (snd m)) members) name with
       | Some s => {| getResultKind := Found; getFoundSymbol := Some s |}
       | None => {| getResultKind := NotFound; getFoundSymbol := None |}
       end;
     findPackage := fun _ => None |}.

Definition variable (name : string) (t : TypeSymbol) : string * Symbol :=
  (name, VariableSymbol {| vs_name := name; vs_type := t |}).

(** [logic [msb:0]] *)
Definition logicVector (bits : Z) : TypeSymbol := getType bits false true.

(** The node a reference to the variable [name] of type [t] binds to. *)
Definition variableRef (name : string) (t : TypeSymbol) : Expression :=
  VariableRefExpression t {| vs_name := name; vs_type := t |}.

(** The node the literal [v] binds to. *)
Definition boundInteger (v : Z) : Expression :=
  IntegerLiteral getIntType
    {| getBitWidth := 32; sv_isSigned := true; hasUnknown := false; sv_value := v |}.

Definition rangeSelect (k : SyntaxKind) (base : string) (l r : Z) : ExpressionSyntax :=
  ElementSelectExpressionSyntax (identifier 0 base)
    (RangeSelectSyntax k (integerLiteral 2 l) (integerLiteral 4 r)).

End Scenario.

(** ** The groups of the dispatch switch *)

(** The kinds [bindExpression] sends to [bindArithmeticOperator]. *)
Definition isArithmeticKind (k : SyntaxKind) : bool :=
  match k with
  | AddExpression | SubtractExpression | MultiplyExpression | DivideExpression
  | ModExpression | BinaryAndExpression | BinaryOrExpression
  | BinaryXorExpression | BinaryXnorExpression => true
  | _ => false
  end.

(** The kinds sent to [bindComparisonOperator]. *)
Definition isComparisonKind (k : SyntaxKind) : bool :=
  match k with
  | EqualityExpression | InequalityExpression | CaseEqualityExpression
  | CaseInequalityExpression | GreaterThanEqualExpression
  | GreaterThanExpression | LessThanEqualExpression | LessThanExpression
  | WildcardEqualityExpression | WildcardInequalityExpression => true
  | _ => false
  end.

(** The kinds sent to [bindRelationalOperator]. *)
Definition isRelationalKind (k : SyntaxKind) : bool :=
  match k with
  | LogicalAndExpression | LogicalOrExpression | LogicalImplicationExpression
  | LogicalEquivalenceExpression => true
  | _ => false
  end.

(** The kinds sent to [bindShiftOrPowerOperator]. *)
Definition isShiftOrPowerKind (k : SyntaxKind) : bool :=
  match k with
  | LogicalShiftLeftExpression | LogicalShiftRightExpression
  | ArithmeticShiftLeftExpression | ArithmeticShiftRightExpression
  | PowerExpression => true
  | _ => false
  end.

(** The kinds sent to [bindAssignmentOperator]. *)
Definition isAssignmentKind (k : SyntaxKind) : bool :=
  match k with
  | AssignmentExpression | AddAssignmentExpression
  | SubtractAssignmentExpression | MultiplyAssignmentExpression
  | DivideAssignmentExpression | ModAssignmentExpression
  | AndAssignmentExpression | OrAssignmentExpression | XorAssignmentExpression
  | LogicalLeftShiftAssignmentExpression | LogicalRightShiftAssignmentExpression
  | ArithmeticLeftShiftAssignmentExpression
  | ArithmeticRightShiftAssignmentExpression => true
  | _ => false
  end.

(** Every binary kind the switch accepts. *)
Definition isBinaryKind (k : SyntaxKind) : bool :=
  isArithmeticKind k || isComparisonKind k || isRelationalKind k
  || isShiftOrPowerKind k || isAssignmentKind k.

(** The kinds sent to one of the two unary binders. *)
Definition isUnaryKind (k : SyntaxKind) : bool :=
  match k with
  | UnaryPlusExpression | UnaryMinusExpression | UnaryBitwiseNotExpression
  | UnaryBitwiseAndExpression | UnaryBitwiseOrExpression
  | UnaryBitwiseXorExpression | UnaryBitwiseNandExpression
  | UnaryBitwiseNorExpression | UnaryBitwiseXnorExpression
  | UnaryLogicalNotExpression => true
  | _ => false
  end.

(** The binary operators for which the binder passes [forceFourState =
    true] to [binaryOperatorResultType]: the comparisons
    [syntax.kind == DivideExpression] of [bindArithmeticOperator] and
    [syntax.kind == PowerExpression] of [bindShiftOrPowerOperator]. *)
Definition forcesFourState (k : SyntaxKind) : bool :=
  match k with
  | DivideExpression | PowerExpression => true
  | _ => false
  end.

(** Binding the children of a node in sequence, as the binder does before
    it looks at them. *)
Fixpoint bindAll (bindOne : ExpressionSyntax -> M Expression)
    (syntaxes : list ExpressionSyntax) : M (list Expression) :=
  match syntaxes with
  | [] => ret []
  | s :: rest =>
      e <- bindOne s ;;
      es <- bindAll bindOne rest ;;
      ret (e :: es)
  end.

(** *** Scenarios *)

Module Scenarios.

Import Scenario.

(** S1: [a: logic[7:0]], [b: logic[3:0]]; the expression [a + b]. *)
Definition scopeS1 : Scope :=
  scopeOf [variable "a" (logicVector 8); variable "b" (logicVector 4)].
Definition exprS1 : ExpressionSyntax :=
  binary AddExpression (identifier 0 "a") 2 (identifier 4 "b").

(** S2: [x: int], [y: real]; the expression [x + y]. *)
Definition scopeS2 : Scope :=
  scopeOf [variable "x" getIntType; variable "y" getRealType].
Definition exprS2 : ExpressionSyntax :=
  binary AddExpression (identifier 0 "x") 2 (identifier 4 "y").

(** Two-state operands [x: int], [y: int]; the expressions [x % y],
    [x / y] and [x ? x : y]. *)
Definition scopeInts : Scope :=
  scopeOf [variable "x" getIntType; variable "y" getIntType].
Definition exprMod : ExpressionSyntax :=
  binary ModExpression (identifier 0 "x") 2 (identifier 4 "y").
Definition exprDivide : ExpressionSyntax :=
  binary DivideExpression (identifier 0 "x") 2 (identifier 4 "y").
Definition exprConditional : ExpressionSyntax :=
  ConditionalExpressionSyntax [identifier 0 "x"] (identifier 4 "x") (identifier 8 "y").

(** S6: [v: logic[15:0]]; the selects [v[7:0]], [v[3:3]], [v[3]],
    [v[4 +: 8]] and [v[z]] with [z] undeclared. *)
Definition scopeS6 : Scope := scopeOf [variable "v" (logicVector 16)].
Definition exprS6 : ExpressionSyntax := rangeSelect SimpleRangeSelect "v" 7 0.
Definition exprOneBitRange : ExpressionSyntax := rangeSelect SimpleRangeSelect "v" 3 3.
Definition exprBitSelect : ExpressionSyntax :=
  ElementSelectExpressionSyntax (identifier 0 "v") (BitSelectSyntax (integerLiteral 2 3)).
Definition exprIndexedSelect : ExpressionSyntax := rangeSelect AscendingRangeSelect "v" 4 8.
Definition exprSelectBadIndex : ExpressionSyntax :=
  ElementSelectExpressionSyntax (identifier 0 "v") (BitSelectSyntax (identifier 2 "z")).

(** S5: the subroutine [f(int a, int b)] and the call [f(1, 2, 3)]. *)
Definition subroutineF : Symbol :=
  SubroutineSymbol "f" [ {| vs_name := "a"; vs_type := getIntType |};
                         {| vs_name := "b"; vs_type := getIntType |} ] getIntType.
Definition scopeS5 : Scope := scopeOf [("f", subroutineF)].
Definition calleeS5 : ExpressionSyntax := identifier 0 "f".
Definition argumentsS5 : list (SourceLocation * ExpressionSyntax) :=
  [(2, integerLiteral 2 1); (5, integerLiteral 5 2); (8, integerLiteral 8 3)].
Definition exprS5 : ExpressionSyntax := InvocationExpressionSyntax calleeS5 argumentsS5.

(** Replications of [x: int]: [{65536{x}}] and [{3{x}}]. *)
Definition exprReplicate (n : Z) : ExpressionSyntax :=
  MultipleConcatenationExpressionSyntax (integerLiteral 1 n) (identifier 8 "x").

(** A string variable [s], bound where an [int] or an event is expected. *)
Definition stringType : TypeSymbol := OtherTypeSymbol "string".
Definition eventType : TypeSymbol := OtherTypeSymbol "event".
Definition scopeString : Scope := scopeOf [variable "s" stringType].

(** A conditional whose second operand is undeclared: [x ? z : y]. *)
Definition exprConditionalBad : ExpressionSyntax :=
  ConditionalExpressionSyntax [identifier 0 "x"] (identifier 4 "z") (identifier 8 "y").


End Scenarios.

(** ** Admissible operand types *)

(** The unary operators of the first group of the switch of
    [checkOperatorApplicability(op, location, operand)]: a real operand is
    accepted beside an integral one. *)
Definition unaryAcceptsReal (k : SyntaxKind) : bool :=
  match k with
  | UnaryPlusExpression | UnaryMinusExpression | UnaryLogicalNotExpression => true
  | _ => false
  end.

(** The binary operators of the first group of the switch of
    [checkOperatorApplicability(op, location, lhs, rhs)]. *)
Definition binaryAcceptsReal (k : SyntaxKind) : bool :=
  match k with
  | AddExpression | SubtractExpression | MultiplyExpression | DivideExpression
  | PowerExpression
  | LogicalAndExpression | LogicalOrExpression | LogicalImplicationExpression
  | LogicalEquivalenceExpression
  | LessThanEqualExpression | LessThanExpression | GreaterThanEqualExpression
  | GreaterThanExpression
  | EqualityExpression | InequalityExpression | WildcardEqualityExpression
  | WildcardInequalityExpression | CaseEqualityExpression
  | CaseInequalityExpression => true
  | _ => false
  end.

(** The operator whose applicability a binary expression is checked with:
    its own kind, except for an assignment, checked with the binary
    operator of the compound form ([Unknown] for the plain [=]). *)
Definition checkedOperator (k : SyntaxKind) : SyntaxKind :=
  match assignmentBinopKind k with
  | Some binopKind => binopKind
  | None => k
  end.

(** The unary operators sent to [bindUnaryReductionOperator]. *)
Definition isReductionKind (k : SyntaxKind) : bool :=
  match k with
  | UnaryBitwiseAndExpression | UnaryBitwiseOrExpression
  | UnaryBitwiseXorExpression | UnaryBitwiseNandExpression
  | UnaryBitwiseNorExpression | UnaryBitwiseXnorExpression
  | UnaryLogicalNotExpression => true
  | _ => false
  end.

(** ** Induction over syntax trees *)

Section SyntaxInduction.

Variable P : ExpressionSyntax -> Prop.
Variable Q : SelectorSyntax -> Prop.

Hypothesis literal_case : forall kind literal, P (LiteralExpressionSyntax kind literal).
Hypothesis vector_case : forall value, P (IntegerVectorExpressionSyntax value).
Hypothesis identifier_case : forall identifier, P (IdentifierNameSyntax identifier).
Hypothesis identifier_select_case :
  forall identifier selectors,
    Forall (fun o => match o with Some s => Q s | None => True end) selectors ->
    P (IdentifierSelectNameSyntax identifier selectors).
Hypothesis scoped_case :
  forall l separator r, P l -> P r -> P (ScopedNameSyntax l separator r).
Hypothesis parenthesized_case :
  forall e, P e -> P (ParenthesizedExpressionSyntax e).
Hypothesis unary_case :
  forall kind tok operand, P operand -> P (PrefixUnaryExpressionSyntax kind tok operand).
Hypothesis binary_case :
  forall kind l tok r, P l -> P r -> P (BinaryExpressionSyntax kind l tok r).
Hypothesis invocation_case :
  forall callee parameters,
    P callee -> Forall (fun a => P (snd a)) parameters ->
    P (InvocationExpressionSyntax callee parameters).
Hypothesis conditional_case :
  forall conditions l r,
    Forall P conditions -> P l -> P r -> P (ConditionalExpressionSyntax conditions l r).
Hypothesis concatenation_case :
  forall expressions, Forall P expressions -> P (ConcatenationExpressionSyntax expressions).
Hypothesis replication_case :
  forall count body, P count -> P body ->
                     P (MultipleConcatenationExpressionSyntax count body).
Hypothesis element_select_case :
  forall base selector, P base -> Q selector ->
                        P (ElementSelectExpressionSyntax base selector).
Hypothesis bit_select_case : forall e, P e -> Q (BitSelectSyntax e).
Hypothesis range_select_case :
  forall kind l r, P l -> P r -> Q (RangeSelectSyntax kind l r).

Fixpoint syntax_induction (s : ExpressionSyntax) : P s :=
  match s with
  | LiteralExpressionSyntax kind literal => literal_case kind literal
  | IntegerVectorExpressionSyntax value => vector_case value
  | IdentifierNameSyntax identifier => identifier_case identifier
  | IdentifierSelectNameSyntax identifier selectors =>
      identifier_select_case identifier
        ((fix each (l : list (option SelectorSyntax))
            : Forall (fun o => match o with Some s => Q s | None => True end) l :=
            match l with
            | [] => Forall_nil _
            | Some sel :: l' => Forall_cons (Some sel) (selector_induction sel) (each l')
            | None :: l' => Forall_cons None I (each l')
            end) selectors)
  | ScopedNameSyntax l separator r =>
      scoped_case separator (syntax_induction l) (syntax_induction r)
  | ParenthesizedExpressionSyntax e => parenthesized_case (syntax_induction e)
  | PrefixUnaryExpressionSyntax kind tok operand =>
      unary_case kind tok (syntax_induction operand)
  | BinaryExpressionSyntax kind l tok r =>
      binary_case kind tok (syntax_induction l) (syntax_induction r)
  | InvocationExpressionSyntax callee parameters =>
      invocation_case (syntax_induction callee)
        ((fix each (l : list (SourceLocation * ExpressionSyntax))
            : Forall (fun a => P (snd a)) l :=
            match l with
            | [] => Forall_nil _
            | a :: l' => Forall_cons a (syntax_induction (snd a)) (each l')
            end) parameters)
  | ConditionalExpressionSyntax conditions l r =>
      conditional_case
        ((fix each (l : list ExpressionSyntax) : Forall P l :=
            match l with
            | [] => Forall_nil _
            | a :: l' => Forall_cons a (syntax_induction a) (each l')
            end) conditions)
        (syntax_induction l) (syntax_induction r)
  | ConcatenationExpressionSyntax expressions =>
      concatenation_case
        ((fix each (l : list ExpressionSyntax) : Forall P l :=
            match l with
            | [] => Forall_nil _
            | a :: l' => Forall_cons a (syntax_induction a) (each l')
            end) expressions)
  | MultipleConcatenationExpressionSyntax count body =>
      replication_case (syntax_induction count) (syntax_induction body)
  | ElementSelectExpressionSyntax base selector =>
      element_select_case (syntax_induction base) (selector_induction selector)
  end
with selector_induction (s : SelectorSyntax) : Q s :=
  match s with
  | BitSelectSyntax e => bit_select_case (syntax_induction e)
  | RangeSelectSyntax kind l r =>
      range_select_case kind (syntax_induction l) (syntax_induction r)
  end.

End SyntaxInduction.

(** *** More scenarios *)

Module MoreScenarios.

Import Scenario.

(** [z + 1] where [z] is not declared (S4), in a scope that declares
    nothing. *)
Definition emptyScope : Scope := scopeOf [].
Definition undeclaredZ : Token := token TK_Identifier 0 "z".
Definition afterUndeclaredZ : Compilation :=
  addError UndeclaredIdentifier 0 [ArgText "z"] emptyCompilation.

(** [r: real], [a: logic[7:0]], [b: logic[3:0]], [i: int]. *)
Definition scopeMixed : Scope :=
  scopeOf [variable "r" getRealType; variable "a" (logicVector 8);
           variable "b" (logicVector 4); variable "i" getIntType].

Definition operatorAt (loc : SourceLocation) : Token := token TK_Other loc "".

End MoreScenarios.

(** ** Widths of a list of bound expressions *)

Definition widthsOf (es : list Expression) : list Z :=
  map (fun e => TypeSymbol.width (Expr.type e)) es.

Definition sumOf (ws : list Z) : Z := fold_right Z.add 0 ws.

Definition allIntegral (es : list Expression) : bool :=
  forallb (fun e => TypeSymbol.isIntegral (Expr.type e)) es.

(** *** Scenarios with packages and calls *)

Module PackageScenarios.

Import Scenario.

(** A package [p] declaring [w: logic[7:0]], seen from a scope that
    declares its own [w: int]. *)
Definition packageP : Scope := scopeOf [variable "w" (logicVector 8)].
Definition scopeWithPackage : Scope :=
  {| lookup := lookup (scopeOf [variable "w" getIntType]);
     findPackage := fun name => if String.eqb name "p" then Some packageP else None |}.
Definition doubleColon : Token := token TK_DoubleColon 1 "::".
Definition scopedW : ExpressionSyntax :=
  ScopedNameSyntax (identifier 0 "p") doubleColon (identifier 3 "w").

(** The call [f(1)] of [f(int a, int b)]. *)
Definition argumentsShort : list (SourceLocation * ExpressionSyntax) :=
  [(2, integerLiteral 2 1)].

End PackageScenarios.

(** ** Invariants of a binder computation *)

(** Whenever the computation returns, its result satisfies [R]. *)
Definition produces {A} (R : A -> Prop) (m : M A) : Prop :=
  forall c a c', m c = Some (a, c') -> R a.

(** The nodes whose type is taken from the symbol they refer to: references
    to variables and parameters, and calls. *)
Definition typedBySymbol (e : Expression) : bool :=
  match e with
  | VariableRefExpression _ _ | ParameterRefExpression _ _ | CallExpression _ _ _ => true
  | _ => false
  end.

(** What holds of every node [bindExpression] returns: an [Invalid] node
    has the error type, and a node of the error type is an [Invalid] node
    unless its type comes from a symbol. *)
Definition wellFormedResult (e : Expression) : Prop :=
  (Expr.isInvalid e = true -> Expr.type e = getErrorType)
  /\ (Expr.bad e = true -> Expr.isInvalid e = true \/ typedBySymbol e = true).

(** ** Statements *)

(** Statement syntax, as far as [Binder::bindStatement] looks at it.  The
    value of a return statement and the else clause are pointers that may
    be null; a condition of a conditional statement carries its expression
    and whether it has a [matches] clause.  [OtherStatementSyntax] stands
    for the statement kinds the switch of [bindStatement] does not list. *)
Inductive StatementSyntax :=
| ReturnStatementSyntax (returnKeyword : Token) (returnValue : option ExpressionSyntax)
| ConditionalStatementSyntax (conditions : list (ExpressionSyntax * bool))
    (statement : StatementSyntax) (elseClause : option StatementSyntax)
| ForLoopStatementSyntax (stopExpr : ExpressionSyntax) (statement : StatementSyntax)
| ExpressionStatementSyntax (expr : ExpressionSyntax)
| OtherStatementSyntax (kind : SyntaxKind).

(** An item of a statement list: a statement, or a node of another kind
    (a declaration, say). *)
Inductive SyntaxNode :=
| StatementNode (syntax : StatementSyntax)
| OtherNode (kind : SyntaxKind).

(** Modelled from the spec: [isStatement(kind)] (SyntaxFacts is not part of
    the sources): the "syntactic item whose kind is a statement kind". *)
Definition isStatement (item : SyntaxNode) : bool :=
  match item with StatementNode _ => true | OtherNode _ => false end.

Inductive Statement :=
| ReturnStatement (expr : Expression)
| ConditionalStatement (cond : Expression) (ifTrue : Statement) (ifFalse : option Statement)
| ExpressionStatement (expr : Expression)
| VariableDeclStatement (symbol : ValueSymbol)
| StatementList (list : list Statement)
| InvalidStatement (child : option Statement).

(** The scope of a statement binder: the scope expressions are bound in,
    its member symbols in declaration order ([scope.members()]) and the
    ancestors of its symbol ([scope.asSymbol().findAncestor(kind)]). *)
Record StatementScope := {
  expressionScope : Scope;
  members : list Symbol;
  findAncestor : SymbolKind -> option Symbol
}.

Section StatementBinder.

Context `{Collaborators}.

Definition badStmt (stmt : option Statement) : M Statement :=
  ret (InvalidStatement stmt).

Definition bindReturnStatement (scope : StatementScope) (returnKeyword : Token)
    (returnValue : option ExpressionSyntax) : M Statement :=
  let stmtLoc := tok_location returnKeyword in
  match findAncestor scope SK_Subroutine with
  | None =>
      emit ReturnNotInSubroutine stmtLoc [] ;;;
      badStmt None
  | Some (SubroutineSymbol _ _ returnType) =>
      match returnValue with
      | Some value =>
          expr <- bindAssignmentLikeContext (expressionScope scope) value stmtLoc
                    returnType ;;
          ret (ReturnStatement expr)
      | None => abort
      end
  | Some _ => abort
  end.

Definition bindExpressionStatement (scope : StatementScope) (expr : ExpressionSyntax)
    : M Statement :=
  expr <- bindSelfDeterminedExpression (expressionScope scope) expr ;;
  ret (ExpressionStatement expr).

Definition bindForLoopStatement : M Statement := badStmt None.

(** [Binder::bindStatement], with [bindConditionalStatement] in its
    conditional arm. *)
Fixpoint bindStatement (scope : StatementScope) (syntax : StatementSyntax)
    : M Statement :=
  match syntax with
  | ReturnStatementSyntax returnKeyword returnValue =>
      bindReturnStatement scope returnKeyword returnValue
  | ConditionalStatementSyntax conditions statement elseClause =>
      match conditions with
      | [(predicate, false)] =>
          cond <- bindSelfDeterminedExpression (expressionScope scope) predicate ;;
          ifTrue <- bindStatement scope statement ;;
          match elseClause with
          | Some clause =>
              ifFalse <- bindStatement scope clause ;;
              ret (ConditionalStatement cond ifTrue (Some ifFalse))
          | None => ret (ConditionalStatement cond ifTrue None)
          end
      | _ => abort
      end
  | ForLoopStatementSyntax _ _ => bindForLoopStatement
  | ExpressionStatementSyntax expr => bindExpressionStatement scope expr
  | OtherStatementSyntax _ => abort
  end.

(** The first loop of [bindStatementList]: a declaration statement for
    every member of kind [Variable]. *)
Fixpoint declareVariables (members : list Symbol) (buffer : list Statement)
    : list Statement :=
  match members with
  | [] => buffer
  | VariableSymbol v :: members' =>
      declareVariables members' (buffer ++ [VariableDeclStatement v])
  | _ :: members' => declareVariables members' buffer
  end.

(** The second loop: the items that are statements, bound in order. *)
Fixpoint bindItems (scope : StatementScope) (items : list SyntaxNode)
    (buffer : list Statement) : M (list Statement) :=
  match items with
  | [] => ret buffer
  | item :: items' =>
      if isStatement item then
        match item with
        | StatementNode syntax =>
            stmt <- bindStatement scope syntax ;;
            bindItems scope items' (buffer ++ [stmt])
        | OtherNode _ => abort
        end
      else bindItems scope items' buffer
  end.

Definition bindStatementList (scope : StatementScope) (items : list SyntaxNode)
    : M Statement :=
  buffer <- bindItems scope items (declareVariables (members scope) []) ;;
  ret (StatementList buffer).

End StatementBinder.

(** The variables among the members of a scope, and the statements among
    the items of a list, in order. *)
Definition variablesOf (members : list Symbol) : list ValueSymbol :=
  flat_map (fun m => match m with VariableSymbol v => [v] | _ => [] end) members.

Definition statementsOf (items : list SyntaxNode) : list StatementSyntax :=
  flat_map (fun i => match i with StatementNode s => [s] | OtherNode _ => [] end) items.

(** Binding statements in sequence. *)
Fixpoint bindEach (bindOne : StatementSyntax -> M Statement)
    (syntaxes : list StatementSyntax) : M (list Statement) :=
  match syntaxes with
  | [] => ret []
  | s :: rest =>
      stmt <- bindOne s ;;
      stmts <- bindEach bindOne rest ;;
      ret (stmt :: stmts)
  end.

(** *** Statement scenarios *)

Module StatementScenarios.

Import Scenario.

(** The body of [function int g(); logic [3:0] b; ... endfunction]: the
    scope declares [b] and has the subroutine [g] as an ancestor. *)
Definition subroutineG : Symbol := SubroutineSymbol "g" [] getIntType.
Definition scopeInG : StatementScope :=
  {| expressionScope := scopeOf [variable "b" (logicVector 4); variable "s" (OtherTypeSymbol "string")];
     members := [VariableSymbol {| vs_name := "b"; vs_type := logicVector 4 |};
                 ParameterSymbol {| vs_name := "P"; vs_type := getIntType |};
                 VariableSymbol {| vs_name := "s"; vs_type := OtherTypeSymbol "string" |}];
     findAncestor := fun k => match k with SK_Subroutine => Some subroutineG | _ => None end |}.

(** A scope outside of any subroutine. *)
Definition scopeInModule : StatementScope :=
  {| expressionScope := scopeOf [variable "b" (logicVector 4)];
     members := [VariableSymbol {| vs_name := "b"; vs_type := logicVector 4 |}];
     findAncestor := fun _ => None |}.

Definition returnKeywordAt (loc : SourceLocation) : Token := token TK_Other loc "return".

End StatementScenarios.

(** * Command line arguments (source/util/CommandLine.cpp) *)

Module CommandLine.

(** ** string_view *)

Definition empty (s : string) : bool :=
  match s with EmptyString => true | String _ _ => false end.

(** [s[0]] of a non-empty view. *)
Definition front (s : string) : option ascii :=
  match s with EmptyString => None | String c _ => Some c end.

Definition startsWith (ch : ascii) (s : string) : bool :=
  match s with EmptyString => false | String c _ => Ascii.eqb c ch end.

(** [s.find_first_of(ch)]; [None] is [npos]. *)
Fixpoint find_first_of (ch : ascii) (s : string) : option nat :=
  match s with
  | EmptyString => None
  | String c rest =>
      if Ascii.eqb c ch then Some O
      else match find_first_of ch rest with
           | Some i => Some (S i)
           | None => None
           end
  end.

(** [s.substr(pos)]; [None] is the [std::out_of_range] thrown when [pos]
    exceeds the size. *)
Fixpoint substr (pos : nat) (s : string) : option string :=
  match pos, s with
  | O, _ => Some s
  | S pos', String _ rest => substr pos' rest
  | S _, EmptyString => None
  end.

(** [s.substr(0, count)] *)
Fixpoint prefix (count : nat) (s : string) : string :=
  match count, s with
  | S count', String c rest => String c (prefix count' rest)
  | _, _ => EmptyString
  end.

(** [current += ch] *)
Definition push_back (s : string) (ch : ascii) : string :=
  (s ++ String ch EmptyString)%string.

(** ** Options and the option map *)

Inductive ValueKind := VBool | VInt32 | VUInt32 | VInt64 | VUInt64 | VDouble | VString.

(** The target an option writes to: an [optional<T>] or a [vector<T>]. *)
Inductive OptionStorage :=
| OptionalStorage (kind : ValueKind)
| VectorStorage (kind : ValueKind).

Record Option := {
  desc : string;
  valueName : string;
  storage : OptionStorage
}.

(** [std::map<std::string, std::shared_ptr<Option>>]: the entries in
    increasing key order, which is the order of iteration. *)
Definition OptionMap := list (string * Option).

(** [optionMap.try_emplace(key, option)]: the map afterwards and whether
    the insertion took place. *)
Fixpoint try_emplace (key : string) (option : Option) (m : OptionMap)
    : OptionMap * bool :=
  match m with
  | [] => ([(key, option)], true)
  | (k, o) :: rest =>
      match String.compare key k with
      | Eq => (m, false)
      | Lt => ((key, option) :: m, true)
      | Gt => let '(rest', inserted) := try_emplace key option rest in
              ((k, o) :: rest', inserted)
      end
  end.

(** [optionMap.find(key)] *)
Fixpoint find (key : string) (m : OptionMap) : option Option :=
  match m with
  | [] => None
  | (k, o) :: rest => if String.eqb key k then Some o else find key rest
  end.

(** ** Exceptions *)

Inductive Exception :=
| invalid_argument (what : string)
| out_of_range
| runtime_error (what : string).

Inductive Outcome (A : Type) :=
| Returned (a : A)
| Threw (e : Exception)
| OutOfFuel.
Arguments Returned {A} a.
Arguments Threw {A} e.
Arguments OutOfFuel {A}.

(** ** CommandLine::addInternal *)

Definition namesMustBegin : Exception :=
  invalid_argument "Names must begin with '-' or '--'".

Definition alreadyExists (curr : string) : Exception :=
  invalid_argument ("Argument with name '" ++ curr ++ "' already exists")%string.

(** The [while (!name.empty())] loop of [addInternal], one iteration per
    unit of fuel; the map is returned as the loop leaves it, also when it
    leaves by an exception. *)
Fixpoint addLoop (fuel : nat) (name : string) (option : Option) (optionMap : OptionMap)
    : Outcome unit * OptionMap :=
  match fuel with
  | O => (OutOfFuel, optionMap)
  | S fuel' =>
      if empty name then (Returned tt, optionMap)
      else
        let split :=
          match find_first_of ","%char name with
          | Some index => (prefix index name, substr (index + 1) name)
          | None => (name, Some name)
          end in
        match split with
        | (_, None) => (Threw out_of_range, optionMap)
        | (curr, Some name) =>
            if empty curr || negb (startsWith "-"%char curr) then
              (Threw namesMustBegin, optionMap)
            else
              match substr 1 name with
              | None => (Threw out_of_range, optionMap)
              | Some curr =>
                  if empty curr then (Threw namesMustBegin, optionMap)
                  else
                    let curr :=
                      if startsWith "-"%char curr then
                        match substr 1 curr with Some c => c | None => curr end
                      else curr in
                    let '(optionMap, inserted) := try_emplace curr option optionMap in
                    if negb inserted then (Threw (alreadyExists curr), optionMap)
                    else addLoop fuel' name option optionMap
              end
        end
  end.

Definition addInternal (name : string) (storage : OptionStorage) (desc valueName : string)
    (optionMap : OptionMap) : Outcome unit * OptionMap :=
  let option := {| desc := desc; valueName := valueName; storage := storage |} in
  if empty name then (Threw (invalid_argument "Name cannot be empty"), optionMap)
  else addLoop (String.length name + 2) name option optionMap.

(** The fourteen overloads of [CommandLine::add]: the two for [bool] pass
    an empty value name. *)
Definition add (name : string) (storage : OptionStorage) (desc valueName : string)
    (optionMap : OptionMap) : Outcome unit * OptionMap :=
  match storage with
  | OptionalStorage VBool | VectorStorage VBool =>
      addInternal name storage desc EmptyString optionMap
  | _ => addInternal name storage desc valueName optionMap
  end.

(** The number of commas of a name. *)
Fixpoint commas (s : string) : nat :=
  match s with
  | EmptyString => O
  | String c rest => if Ascii.eqb c ","%char then S (commas rest) else commas rest
  end.

(** ** CommandLine::parse(string_view): splitting an argument string *)

Section Splitting.

(** [isWhitespace] of CharInfo.h, which is not part of the sources. *)
Variable isWhitespace : ascii -> bool.

Definition backslash : ascii := "\"%char.
Definition singleQuote : ascii := "'"%char.
Definition doubleQuote : ascii := "034"%char.

(** Where the scan is: between the quotes of a quoted part, or not. *)
Inductive Quoting := Unquoted | SingleQuoted | DoubleQuoted.

(** The [for] loop over the characters, with the two inner [while] loops
    as the quoted states.  [chars] is what is left from [ptr] on;
    [None] means that [ptr] is moved past [end] (a backslash as the last
    character, or a quote that is not closed: the [continue] then
    increments a pointer that already equals [end]).  At the end of the
    input the pending argument is stored if it is not empty. *)
Fixpoint splitLoop (quoting : Quoting) (chars : string) (current : string)
    (storage : list string) : option (list string) :=
  match chars with
  | EmptyString =>
      match quoting with
      | Unquoted =>
          Some (if empty current then storage else (storage ++ [current])%list)
      | _ => None
      end
  | String ch rest =>
      match quoting with
      | Unquoted =>
          if isWhitespace ch then
            if empty current then splitLoop Unquoted rest current storage
            else splitLoop Unquoted rest EmptyString (storage ++ [current])%list
          else if Ascii.eqb ch backslash then
            match rest with
            | EmptyString => None
            | String escaped rest' =>
                splitLoop Unquoted rest' (push_back current escaped) storage
            end
          else if Ascii.eqb ch singleQuote then
            splitLoop SingleQuoted rest current storage
          else if Ascii.eqb ch doubleQuote then
            splitLoop DoubleQuoted rest current storage
          else splitLoop Unquoted rest (push_back current ch) storage
      | SingleQuoted =>
          if Ascii.eqb ch singleQuote then splitLoop Unquoted rest current storage
          else splitLoop SingleQuoted rest (push_back current ch) storage
      | DoubleQuoted =>
          if Ascii.eqb ch doubleQuote then splitLoop Unquoted rest current storage
          else
            match rest with
            | String next rest' =>
                if Ascii.eqb ch backslash
                   && (Ascii.eqb next backslash || Ascii.eqb next doubleQuote)
                then splitLoop DoubleQuoted rest' (push_back current next) storage
                else splitLoop DoubleQuoted rest (push_back current ch) storage
            | EmptyString => splitLoop DoubleQuoted rest (push_back current ch) storage
            end
      end
  end.

(** The arguments [parse(string_view)] hands to [parse(span)]. *)
Definition splitArguments (argList : string) : option (list string) :=
  splitLoop Unquoted argList EmptyString [].

(** A character that is copied as it is outside quotes. *)
Definition plainChar (ch : ascii) : bool :=
  negb (isWhitespace ch) && negb (Ascii.eqb ch backslash)
  && negb (Ascii.eqb ch singleQuote) && negb (Ascii.eqb ch doubleQuote).

Fixpoint plain (s : string) : bool :=
  match s with
  | EmptyString => true
  | String ch rest => plainChar ch && plain rest
  end.

(** A non-empty word of plain characters. *)
Definition plainWord (s : string) : bool := negb (empty s) && plain s.

(** The words joined with the separator [sep]. *)
Fixpoint join (sep : ascii) (words : list string) : string :=
  match words with
  | [] => EmptyString
  | [w] => w
  | w :: rest => (w ++ String sep (join sep rest))%string
  end.

End Splitting.

(** ** CommandLine::parse(span<const string_view>) *)

Record State := {
  optionMap : OptionMap;
  positional : option Option;
  programName : string;
  errors : list string
}.

Section Parsing.

(** [editDistance] (not part of the sources) and
    [fs::path(p).filename().string()]. *)
Variable editDistance : string -> string -> bool -> Z -> Z.
Variable filename : string -> string.

(** Strips [=value] from the argument. *)
Definition stripValue (arg : string) : string * string :=
  match find_first_of "="%char arg with
  | Some equalsIndex =>
      (prefix equalsIndex arg,
       match substr (equalsIndex + 1) arg with Some v => v | None => EmptyString end)
  | None => (arg, EmptyString)
  end.

(** [findOption(arg, value)]: the option found and the value split off. *)
Definition findOption (m : OptionMap) (arg : string) : option Option * string :=
  if empty arg then (None, EmptyString)
  else
    let '(arg, value) := stripValue arg in
    (find arg m, value).

Definition tryGroupOrPrefix (name value : string) : option Option := None.

Definition findNearestMatch (m : OptionMap) (arg : string) : string :=
  let arg := fst (stripValue arg) in
  fst (fold_left
         (fun best entry =>
            let dist := editDistance (fst entry) arg true (snd best) in
            if dist <? snd best then (fst entry, dist) else best)
         m (EmptyString, INT_MAX)).

Definition unknownArgument (programName name nearest : string) : string :=
  let error := (programName ++ ": unknown command line argument '" ++ name ++ "'")%string in
  if negb (empty nearest) then (error ++ ", did you mean '" ++ nearest ++ "'?")%string
  else error.

Definition positionalNotAllowed (programName first : string) : string :=
  (programName ++ ": positional arguments are not allowed (see e.g. '"
   ++ first ++ "')")%string.

(** The loop over the arguments: the positional arguments collected and
    the errors recorded so far are threaded through.  [Option::set] does
    nothing, so a known option leaves no trace. *)
Fixpoint parseLoop (m : OptionMap) (programName : string) (args : list string)
    (doubleDash : bool) (positionalArgs : list string) (errors : list string)
    : list string * list string :=
  match args with
  | [] => (positionalArgs, errors)
  | arg :: rest =>
      if empty arg then parseLoop m programName rest doubleDash positionalArgs errors
      else if negb (startsWith "-"%char arg) || (String.length arg =? 1)%nat || doubleDash
      then parseLoop m programName rest doubleDash (positionalArgs ++ [arg])%list errors
      else if String.eqb arg "--" then
        parseLoop m programName rest true positionalArgs errors
      else
        let name := match substr 1 arg with Some n => n | None => EmptyString end in
        let longName := startsWith "-"%char name in
        let name := if longName
                    then match substr 1 name with Some n => n | None => EmptyString end
                    else name in
        let '(option, value) := findOption m name in
        let option := match option with
                      | None => if negb longName then tryGroupOrPrefix name value else None
                      | Some o => Some o
                      end in
        match option with
        | None =>
            parseLoop m programName rest doubleDash positionalArgs
              (errors ++ [unknownArgument programName name (findNearestMatch m name)])%list
        | Some _ =>
            parseLoop m programName rest doubleDash positionalArgs errors
        end
  end.

(** [parse(args)]: the result ([errors.empty()]) and the state left. *)
Definition parse (args : list string) (st : State) : Outcome bool * State :=
  match args with
  | [] => (Threw (runtime_error "Expected at least one argument"), st)
  | first :: _ =>
      let programName := filename first in
      let '(positionalArgs, errors) :=
        parseLoop (optionMap st) programName args false [] (errors st) in
      let errors :=
        match positional st, positionalArgs with
        | Some _, _ => errors
        | None, [] => errors
        | None, firstPositional :: _ =>
            (errors ++ [positionalNotAllowed programName firstPositional])%list
        end in
      (Returned (match errors with [] => true | _ => false end),
       {| optionMap := optionMap st; positional := positional st;
          programName := programName; errors := errors |})
  end.

End Parsing.

(** A whitespace test for the scenarios: blank, tab and the line ends. *)
Definition asciiWhitespace (ch : ascii) : bool :=
  match ch with
  | " "%char | "009"%char | "010"%char | "011"%char | "012"%char | "013"%char => true
  | _ => false
  end.

End CommandLine.

(** ** Texts without a given character, and command line scenarios *)

Module CommandLineScenarios.

(** [ch] does not occur in [s]. *)
Fixpoint lacks (ch : ascii) (s : string) : bool :=
  match s with
  | EmptyString => true
  | String c rest => negb (Ascii.eqb c ch) && lacks ch rest
  end.

Definition nonEmpty (s : string) : bool := negb (CommandLine.empty s).

Definition flagOption : CommandLine.Option :=
  {| CommandLine.desc := "verbose"; CommandLine.valueName := "";
     CommandLine.storage := CommandLine.OptionalStorage CommandLine.VBool |}.

(** A command line with the option [x] registered and no positional
    option. *)
Definition stateWithX : CommandLine.State :=
  {| CommandLine.optionMap := [("x", flagOption)];
     CommandLine.positional := None;
     CommandLine.programName := "";
     CommandLine.errors := [] |}.

Definition sampleDistance (key arg : string) (allowReplacements : bool) (bound : Z) : Z :=
  Z.of_nat (String.length key).

Definition sameName (path : string) : string := path.

End CommandLineScenarios.

(** * Laws *)

Unset Implicit Arguments.
Local Open Scope list_scope.

(** ** Running the monad *)

Lemma bind_run {A B} {m : M A} (k : A -> M B) {c a c'} :
  m c = Some (a, c') -> bind m k c = k a c'.
Proof. intros E. unfold bind. now rewrite E. Qed.

Lemma bind_abort {A B} (m : M A) (k : A -> M B) c :
  m c = None -> bind m k c = None.
Proof. intros E. unfold bind. now rewrite E. Qed.

Lemma bind_inv {A B} (m : M A) (k : A -> M B) c r :
  bind m k c = Some r -> exists a c', m c = Some (a, c') /\ k a c' = Some r.
Proof.
  unfold bind. destruct (m c) as [[a c']|] eqn:E; [|discriminate].
  intros K. now exists a, c'.
Qed.

Section Laws.

Context `{Collaborators}.

(** *** Unfolding the dispatch *)

Lemma bindExpression_arithmetic scope kind l tok r :
  isArithmeticKind kind = true ->
  bindExpression scope (BinaryExpressionSyntax kind l tok r)
  = bindArithmeticOperator (bindAndPropagate scope) kind l tok r.
Proof. destruct kind; intros K; try discriminate K; reflexivity. Qed.

Lemma bindExpression_comparison scope kind l tok r :
  isComparisonKind kind = true ->
  bindExpression scope (BinaryExpressionSyntax kind l tok r)
  = bindComparisonOperator (bindAndPropagate scope) kind l tok r.
Proof. destruct kind; intros K; try discriminate K; reflexivity. Qed.

Lemma bindExpression_relational scope kind l tok r :
  isRelationalKind kind = true ->
  bindExpression scope (BinaryExpressionSyntax kind l tok r)
  = bindRelationalOperator (bindAndPropagate scope) kind l tok r.
Proof. destruct kind; intros K; try discriminate K; reflexivity. Qed.

Lemma bindExpression_shiftOrPower scope kind l tok r :
  isShiftOrPowerKind kind = true ->
  bindExpression scope (BinaryExpressionSyntax kind l tok r)
  = bindShiftOrPowerOperator (bindAndPropagate scope) kind l tok r.
Proof. destruct kind; intros K; try discriminate K; reflexivity. Qed.

Lemma bindExpression_assignment scope kind l tok r :
  isAssignmentKind kind = true ->
  bindExpression scope (BinaryExpressionSyntax kind l tok r)
  = bindAssignmentOperator (bindAndPropagate scope) kind l tok r.
Proof. destruct kind; intros K; try discriminate K; reflexivity. Qed.

(** *** The result type of a binary operator *)

Lemma binaryOperatorResultType_integral wa sa fa ba wb sb fb bb force :
  binaryOperatorResultType (IntegralTypeSymbol wa sa fa ba)
                           (IntegralTypeSymbol wb sb fb bb) force
  = getType (Z.max wa wb) (sa && sb) (force || fa || fb).
Proof. reflexivity. Qed.

Lemma binaryOperatorResultType_not_error a b force :
  TypeSymbol.isError (binaryOperatorResultType a b force) = false.
Proof.
  unfold binaryOperatorResultType.
  destruct (TypeSymbol.isReal a || TypeSymbol.isReal b); [|reflexivity].
  now destruct (64 <=? _).
Qed.

Lemma checkOperatorApplicability2_integral op loc a b c :
  TypeSymbol.isIntegral (Expr.type a) = true ->
  TypeSymbol.isIntegral (Expr.type b) = true ->
  checkOperatorApplicability2 op loc a b c = Some (true, c).
Proof.
  intros Ia Ib. unfold checkOperatorApplicability2, Expr.bad.
  destruct (Expr.type a); try discriminate Ia.
  destruct (Expr.type b); try discriminate Ib.
  cbn. now destruct op.
Qed.

Lemma checkOperatorApplicability2_bad op loc a b c :
  Expr.bad a || Expr.bad b = true ->
  checkOperatorApplicability2 op loc a b c = Some (false, c).
Proof. intros B. unfold checkOperatorApplicability2. now rewrite B. Qed.

Lemma checkOperatorApplicability1_bad op loc a c :
  Expr.bad a = true ->
  checkOperatorApplicability1 op loc a c = Some (false, c).
Proof. intros B. unfold checkOperatorApplicability1. now rewrite B. Qed.

End Laws.

(** ** Entry points *)

(** C10: the entry points [bindConstantExpression] and
    [bindSelfDeterminedExpression] are extensionally equal: on every
    syntax node, scope and compilation both are exactly [bindAndPropagate],
    and neither checks that the expression is constant. *)
Theorem bindConstantExpression_is_bindSelfDeterminedExpression :
  forall (collab : Collaborators) (scope : Scope) (syntax : ExpressionSyntax)
         (c : Compilation),
    bindConstantExpression scope syntax c = bindSelfDeterminedExpression scope syntax c
    /\ bindConstantExpression scope syntax c = bindAndPropagate scope syntax c
    /\ bindSelfDeterminedExpression scope syntax c = bindAndPropagate scope syntax c.
Proof. intros. repeat split. Qed.

(** ** Result types of binary operators *)

Section ResultTypes.

Context `{Collaborators}.

Variable scope : Scope.
Variables (l r : ExpressionSyntax) (tok : Token).
Variables (c c1 c2 : Compilation) (a b : Expression).

Hypothesis bound_l : bindAndPropagate scope l c = Some (a, c1).
Hypothesis bound_r : bindAndPropagate scope r c1 = Some (b, c2).

Lemma bindArithmeticOperator_integral kind :
  TypeSymbol.isIntegral (Expr.type a) = true ->
  TypeSymbol.isIntegral (Expr.type b) = true ->
  bindArithmeticOperator (bindAndPropagate scope) kind l tok r c
  = Some (BinaryExpression
            (binaryOperatorResultType (Expr.type a) (Expr.type b)
               match kind with DivideExpression => true | _ => false end)
            kind a b, c2).
Proof.
  intros Ia Ib. unfold bindArithmeticOperator.
  rewrite (bind_run _ bound_l), (bind_run _ bound_r).
  now rewrite (bind_run _ (checkOperatorApplicability2_integral _ _ _ _ _ Ia Ib)).
Qed.

Lemma bindShiftOrPowerOperator_integral kind :
  TypeSymbol.isIntegral (Expr.type a) = true ->
  TypeSymbol.isIntegral (Expr.type b) = true ->
  bindShiftOrPowerOperator (bindAndPropagate scope) kind l tok r c
  = Some (BinaryExpression
            (binaryOperatorResultType (Expr.type a) (Expr.type b)
               match kind with PowerExpression => true | _ => false end)
            kind a b, c2).
Proof.
  intros Ia Ib. unfold bindShiftOrPowerOperator.
  rewrite (bind_run _ bound_l), (bind_run _ bound_r).
  now rewrite (bind_run _ (checkOperatorApplicability2_integral _ _ _ _ _ Ia Ib)).
Qed.

(** C3: binding [a op b] for a binary arithmetic operator on integral
    operands gives a binary node over the two bound operands whose type is
    integral, of width max(width a, width b), signed iff both operands are
    signed, and four-state iff one operand is four-state or the operator
    forces four-state ([op] is the division); no diagnostic is added. *)
Theorem binary_arithmetic_result_type :
  forall kind wa sa fa ba wb sb fb bb,
    isArithmeticKind kind = true ->
    Expr.type a = IntegralTypeSymbol wa sa fa ba ->
    Expr.type b = IntegralTypeSymbol wb sb fb bb ->
    exists t,
      bindExpression scope (BinaryExpressionSyntax kind l tok r) c
      = Some (BinaryExpression t kind a b, c2)
      /\ t = binaryOperatorResultType (Expr.type a) (Expr.type b)
               match kind with DivideExpression => true | _ => false end
      /\ TypeSymbol.isIntegral t = true
      /\ TypeSymbol.width t = Z.max wa wb
      /\ TypeSymbol.isSigned t = sa && sb
      /\ TypeSymbol.isFourState t
         = fa || fb || match kind with DivideExpression => true | _ => false end.
Proof.
  intros kind wa sa fa ba wb sb fb bb K Ta Tb.
  eexists. split.
  - rewrite (bindExpression_arithmetic _ _ _ _ _ K).
    apply bindArithmeticOperator_integral; [now rewrite Ta | now rewrite Tb].
  - rewrite Ta, Tb, binaryOperatorResultType_integral. cbn.
    repeat split. now destruct fa, fb, kind.
Qed.

(** C4, as the binder has it: the flag [forceFourState] the binder passes
    to [binaryOperatorResultType] is true exactly for the division, the
    power operator and the conditional operator; for every other binary
    arithmetic or shift operator, the modulo among them, it is false, so
    that on integral operands the result is four-state iff an operand is
    or the operator is [/] or [**]. *)
Theorem force_four_state_flag :
  (forall kind,
      isArithmeticKind kind || isShiftOrPowerKind kind = true ->
      TypeSymbol.isIntegral (Expr.type a) = true ->
      TypeSymbol.isIntegral (Expr.type b) = true ->
      bindExpression scope (BinaryExpressionSyntax kind l tok r) c
      = Some (BinaryExpression
                (binaryOperatorResultType (Expr.type a) (Expr.type b)
                                          (forcesFourState kind))
                kind a b, c2)
      /\ TypeSymbol.isFourState
           (binaryOperatorResultType (Expr.type a) (Expr.type b) (forcesFourState kind))
         = TypeSymbol.isFourState (Expr.type a) || TypeSymbol.isFourState (Expr.type b)
           || forcesFourState kind
      /\ (forcesFourState kind = true
          <-> kind = DivideExpression \/ kind = PowerExpression))
  /\ (forall p cp pe,
         bindAndPropagate scope p cp = Some (pe, c) ->
         bindExpression scope (ConditionalExpressionSyntax [p] l r) cp
         = Some (TernaryExpression
                   (binaryOperatorResultType (Expr.type a) (Expr.type b) true)
                   pe a b, c2)).
Proof.
  split.
  - intros kind K Ia Ib. split; [|split].
    + apply orb_true_iff in K. destruct K as [K|K].
      * rewrite (bindExpression_arithmetic _ _ _ _ _ K).
        rewrite (bindArithmeticOperator_integral _ Ia Ib).
        now destruct kind.
      * rewrite (bindExpression_shiftOrPower _ _ _ _ _ K).
        rewrite (bindShiftOrPowerOperator_integral _ Ia Ib).
        now destruct kind.
    + destruct (Expr.type a); try discriminate Ia.
      destruct (Expr.type b); try discriminate Ib.
      rewrite binaryOperatorResultType_integral. cbn.
      now destruct isFourState, isFourState0, (forcesFourState kind).
    + destruct kind; cbn; split; intros E; try discriminate E; auto;
        destruct E as [E|E]; discriminate E.
  - intros p cp pe Bp.
    change (bindExpression scope (ConditionalExpressionSyntax [p] l r))
      with (bindConditionalExpression (bindAndPropagate scope) [p] l r).
    unfold bindConditionalExpression.
    now rewrite (bind_run _ Bp), (bind_run _ bound_l), (bind_run _ bound_r).
Qed.

(** C5, as the binder has it: with [x: int] and [y: real], binding [x + y]
    gives a binary node whose type is [real] (width 64), and adds no
    diagnostic. *)
Theorem int_plus_real_is_real :
  Expr.type a = getIntType ->
  Expr.type b = getRealType ->
  bindExpression scope (BinaryExpressionSyntax AddExpression l tok r) c
  = Some (BinaryExpression getRealType AddExpression a b, c2)
  /\ TypeSymbol.width getRealType = 64.
Proof.
  intros Ta Tb. split; [|reflexivity].
  change (bindExpression scope (BinaryExpressionSyntax AddExpression l tok r))
    with (bindArithmeticOperator (bindAndPropagate scope) AddExpression l tok r).
  unfold bindArithmeticOperator.
  rewrite (bind_run _ bound_l), (bind_run _ bound_r).
  unfold checkOperatorApplicability2, Expr.bad. rewrite Ta, Tb. reflexivity.
Qed.

End ResultTypes.

Import Scenario Scenarios.

(** S1 instantiates the law of C3: [a + b] is integral(8, unsigned,
    four-state). *)
Lemma binary_arithmetic_result_type_witness :
  bindAndPropagate (H := Reference.collaborators) scopeS1 (identifier 0 "a")
    emptyCompilation
  = Some (variableRef "a" (logicVector 8), emptyCompilation)
  /\ exists t,
      bindExpression (H := Reference.collaborators) scopeS1 exprS1 emptyCompilation
      = Some (BinaryExpression t AddExpression (variableRef "a" (logicVector 8))
                (variableRef "b" (logicVector 4)), emptyCompilation)
      /\ t = binaryOperatorResultType (logicVector 8) (logicVector 4) false
      /\ TypeSymbol.isIntegral t = true
      /\ TypeSymbol.width t = Z.max 8 4
      /\ TypeSymbol.isSigned t = false && false
      /\ TypeSymbol.isFourState t = true || true || false.
Proof.
  split; [reflexivity|].
  apply (binary_arithmetic_result_type (H := Reference.collaborators)
           scopeS1 (identifier 0 "a") (identifier 4 "b") (token TK_Other 2 "")
           emptyCompilation emptyCompilation emptyCompilation
           (variableRef "a" (logicVector 8)) (variableRef "b" (logicVector 4))
           eq_refl eq_refl AddExpression 8 false true [0] 4 false true [0]
           eq_refl eq_refl eq_refl).
Defined.

(** [x % y] on two-state operands stays two-state: the modulo does not
    force four-state, against C4 as stated. *)
Lemma modulo_does_not_force_four_state :
  exists e c,
    bindSelfDeterminedExpression (H := Reference.collaborators) scopeInts exprMod
      emptyCompilation = Some (e, c)
    /\ Expr.type e = binaryOperatorResultType getIntType getIntType false
    /\ Expr.type e <> binaryOperatorResultType getIntType getIntType true
    /\ TypeSymbol.isFourState (Expr.type e) = false.
Proof.
  eexists. eexists. split; [vm_compute; reflexivity|].
  repeat split. discriminate.
Qed.

Lemma force_four_state_flag_witness :
  bindAndPropagate (H := Reference.collaborators) scopeInts (identifier 0 "x")
    emptyCompilation
  = Some (variableRef "x" getIntType, emptyCompilation)
  /\ bindExpression (H := Reference.collaborators) scopeInts exprDivide emptyCompilation
     = Some (BinaryExpression (getType 32 true true) DivideExpression
               (variableRef "x" getIntType) (variableRef "y" getIntType),
             emptyCompilation)
  /\ bindExpression (H := Reference.collaborators) scopeInts exprMod emptyCompilation
     = Some (BinaryExpression (getType 32 true false) ModExpression
               (variableRef "x" getIntType) (variableRef "y" getIntType),
             emptyCompilation).
Proof.
  split; [reflexivity|].
  pose proof (force_four_state_flag (H := Reference.collaborators)
                scopeInts (identifier 0 "x") (identifier 4 "y") (token TK_Other 2 "")
                emptyCompilation emptyCompilation emptyCompilation
                (variableRef "x" getIntType) (variableRef "y" getIntType)
                eq_refl eq_refl) as [Binary _].
  split.
  - exact (proj1 (Binary DivideExpression eq_refl eq_refl eq_refl)).
  - exact (proj1 (Binary ModExpression eq_refl eq_refl eq_refl)).
Defined.

(** S2 on the code: [x + y] has type [real], not [shortreal], and its width
    is 64, not 32. *)
Lemma int_plus_real_not_shortreal :
  exists e c,
    bindSelfDeterminedExpression (H := Reference.collaborators) scopeS2 exprS2
      emptyCompilation = Some (e, c)
    /\ Expr.type e = getRealType
    /\ Expr.type e <> getShortRealType
    /\ TypeSymbol.width (Expr.type e) <> 32
    /\ diags c = [].
Proof.
  eexists. eexists. split; [vm_compute; reflexivity|].
  repeat split; discriminate.
Qed.

Lemma int_plus_real_is_real_witness :
  bindAndPropagate (H := Reference.collaborators) scopeS2 (identifier 0 "x")
    emptyCompilation
  = Some (variableRef "x" getIntType, emptyCompilation)
  /\ bindAndPropagate (H := Reference.collaborators) scopeS2 (identifier 4 "y")
       emptyCompilation
     = Some (variableRef "y" getRealType, emptyCompilation)
  /\ bindExpression (H := Reference.collaborators) scopeS2 exprS2 emptyCompilation
     = Some (BinaryExpression getRealType AddExpression
               (variableRef "x" getIntType) (variableRef "y" getRealType),
             emptyCompilation)
  /\ TypeSymbol.width getRealType = 64.
Proof.
  split; [reflexivity|]. split; [reflexivity|].
  apply (int_plus_real_is_real (H := Reference.collaborators)
           scopeS2 (identifier 0 "x") (identifier 4 "y") (token TK_Other 2 "")
           emptyCompilation emptyCompilation emptyCompilation
           (variableRef "x" getIntType) (variableRef "y" getRealType)
           eq_refl eq_refl eq_refl eq_refl).
Defined.

(** ** Machine integers in range *)

Lemma wrap_int_fits v : fits_int v -> wrap_int v = v.
Proof.
  unfold fits_int, INT_MIN, INT_MAX, wrap_int, wrap_signed.
  change (2 ^ 32) with 4294967296. change (2 ^ (32 - 1)) with 2147483648.
  change (2 ^ 31) with 2147483648.
  intros F. destruct (Z.ltb_spec (v mod 4294967296) 2147483648);
    Z.to_euclidean_division_equations; lia.
Qed.

Lemma wrap_int64_fits v : - 2 ^ 63 <= v < 2 ^ 63 -> wrap_int64 v = v.
Proof.
  unfold wrap_int64, wrap_signed.
  change (2 ^ 64) with 18446744073709551616.
  change (2 ^ (64 - 1)) with 9223372036854775808.
  change (2 ^ 63) with 9223372036854775808.
  intros F. destruct (Z.ltb_spec (v mod 18446744073709551616) 9223372036854775808);
    Z.to_euclidean_division_equations; lia.
Qed.

Lemma wrap_uint16_range v : 0 <= wrap_uint16 v < 65536.
Proof.
  unfold wrap_uint16, wrap_unsigned. change (2 ^ 16) with 65536.
  apply Z.mod_pos_bound. lia.
Qed.

Lemma wrap_uint16_fits v : 0 <= v < 65536 -> wrap_uint16 v = v.
Proof.
  unfold wrap_uint16, wrap_unsigned. change (2 ^ 16) with 65536.
  intros F. now apply Z.mod_small.
Qed.

(** ** Selects *)

Section Selects.

Context `{Collaborators}.

Variable bindOne : ExpressionSyntax -> M Expression.
Variables (base : Expression) (w : Z) (sg fs : bool) (lb : Z) (lbs : list Z).
Hypothesis base_type : Expr.type base = IntegralTypeSymbol w sg fs (lb :: lbs).

Lemma base_not_bad : Expr.bad base = false.
Proof. unfold Expr.bad. now rewrite base_type. Qed.

(** A bit select has width 1. *)
Lemma bindSelectExpression3_bit e c i c1 :
  bindOne e c = Some (i, c1) ->
  bindSelectExpression3 bindOne base (BitSelectSyntax e) c
  = Some (SelectExpression (getType 1 sg fs) BitSelect base i i, c1).
Proof.
  intros B. unfold bindSelectExpression3.
  rewrite base_not_bad, base_type. now rewrite (bind_run _ B).
Qed.

(** An indexed select [base +: n] or [base -: n] has width [n]. *)
Lemma bindSelectExpression3_indexed k l r c le c1 re c2 n :
  k = AscendingRangeSelect \/ k = DescendingRangeSelect ->
  bindOne l c = Some (le, c1) ->
  bindOne r c1 = Some (re, c2) ->
  eval re = Some n ->
  fits_int n ->
  bindSelectExpression3 bindOne base (RangeSelectSyntax k l r) c
  = Some (SelectExpression (getType n sg fs) k base le re, c2).
Proof.
  intros K Bl Br E F. unfold bindSelectExpression3.
  rewrite base_not_bad, base_type.
  assert (W : wrap_int (as_int64 n) = n).
  { unfold as_int64. rewrite wrap_int64_fits; [now apply wrap_int_fits|].
    unfold fits_int, INT_MIN, INT_MAX in F. lia. }
  destruct K; subst k; cbn;
    rewrite (bind_run _ Bl), (bind_run _ Br); unfold evalInt64; rewrite E;
    cbn; unfold ret; now rewrite W.
Qed.

(** What the binder computes for a simple range select [msb:lsb] on a
    descending base when the bounds are in order: [msb - lsb], one less
    than the number of selected bits. *)
Lemma bindSelectExpression3_simple_range l r c le c1 re c2 msb lsb :
  bindOne l c = Some (le, c1) ->
  bindOne r c1 = Some (re, c2) ->
  eval le = Some msb ->
  eval re = Some lsb ->
  0 <= lb ->
  fits_int msb -> fits_int lsb -> fits_int (msb - lsb) ->
  bindSelectExpression3 bindOne base (RangeSelectSyntax SimpleRangeSelect l r) c
  = Some (SelectExpression (getType (msb - lsb) sg fs) SimpleRangeSelect base le re, c2).
Proof.
  intros Bl Br El Er D Fm Fl Fd. unfold bindSelectExpression3.
  rewrite base_not_bad, base_type.
  rewrite (bind_run _ Bl), (bind_run _ Br). unfold evalInt64. rewrite El, Er.
  cbn. unfold ret, as_int64.
  assert (Fm' : - 2 ^ 63 <= msb < 2 ^ 63)
    by (unfold fits_int, INT_MIN, INT_MAX in Fm; lia).
  assert (Fl' : - 2 ^ 63 <= lsb < 2 ^ 63)
    by (unfold fits_int, INT_MIN, INT_MAX in Fl; lia).
  assert (Fd' : - 2 ^ 63 <= msb - lsb < 2 ^ 63)
    by (unfold fits_int, INT_MIN, INT_MAX in Fd; lia).
  rewrite (wrap_int64_fits _ Fm'), (wrap_int64_fits _ Fl'), (wrap_int64_fits _ Fd').
  rewrite (wrap_int_fits _ Fd).
  destruct (Z.leb_spec 0 lb); [|lia].
  rewrite Z.mul_1_l. now rewrite (wrap_int_fits _ Fd).
Qed.

End Selects.

(** C1 on the code, at S6: with [v: logic[15:0]], binding [v[7:0]] gives a
    select node of width 7 (unsigned, four-state), not 8; the one-bit range
    [v[3:3]] gets width 0 while the bit select [v[3]] gets width 1 and the
    indexed select [v[4 +: 8]] width 8. *)
Theorem select_S6_has_width_7 :
  (exists base msb lsb c,
      bindSelfDeterminedExpression (H := Reference.collaborators) scopeS6 exprS6
        emptyCompilation
      = Some (SelectExpression (getType 7 false true) SimpleRangeSelect base msb lsb, c)
      /\ Reference.eval msb = Some 7 /\ Reference.eval lsb = Some 0
      /\ TypeSymbol.width (getType 7 false true) <> Z.abs (7 - 0) + 1)
  /\ (exists e c,
         bindSelfDeterminedExpression (H := Reference.collaborators) scopeS6
           exprOneBitRange emptyCompilation = Some (e, c)
         /\ TypeSymbol.width (Expr.type e) = 0)
  /\ (exists e c,
         bindSelfDeterminedExpression (H := Reference.collaborators) scopeS6
           exprBitSelect emptyCompilation = Some (e, c)
         /\ TypeSymbol.width (Expr.type e) = 1)
  /\ (exists e c,
         bindSelfDeterminedExpression (H := Reference.collaborators) scopeS6
           exprIndexedSelect emptyCompilation = Some (e, c)
         /\ TypeSymbol.width (Expr.type e) = 8).
Proof.
  split; [|split; [|split]].
  - do 4 eexists. split; [vm_compute; reflexivity|].
    repeat split. discriminate.
  - do 2 eexists. split; [vm_compute; reflexivity|reflexivity].
  - do 2 eexists. split; [vm_compute; reflexivity|reflexivity].
  - do 2 eexists. split; [vm_compute; reflexivity|reflexivity].
Qed.

(** ** Replication *)

(** C9, as the binder has it: for [{n{x}}] with [n] compile-time
    evaluable, the count is evaluated at bind time and converted to
    [uint16_t], and the width is computed as an [int]: the result is the
    type [getType(x.width * count, false)], an unsigned integral whose
    width is [x.width] times the low 16 bits of [n], wrapped to [int].
    For a count that fits in 16 bits and a product [n * x.width] in the
    range of [int], that width is [n * x.width]. *)
Theorem replication_width :
  forall (collab : Collaborators) scope l r c le c1 re c2 n,
    bindAndPropagate scope l c = Some (le, c1) ->
    bindAndPropagate scope r c1 = Some (re, c2) ->
    eval le = Some n ->
    exists t,
      bindExpression scope (MultipleConcatenationExpressionSyntax l r) c
      = Some (BinaryExpression t MultipleConcatenationExpression le re, c2)
      /\ t = getType2 (wrap_int (TypeSymbol.width (Expr.type re) * (n mod 2 ^ 16))) false
      /\ TypeSymbol.isIntegral t = true
      /\ TypeSymbol.isSigned t = false
      /\ TypeSymbol.width t
         = wrap_int (TypeSymbol.width (Expr.type re) * (n mod 2 ^ 16))
      /\ (0 <= n < 2 ^ 16 ->
          fits_int (n * TypeSymbol.width (Expr.type re)) ->
          TypeSymbol.width t = n * TypeSymbol.width (Expr.type re)).
Proof.
  intros collab scope l r c le c1 re c2 n Bl Br E. eexists. split; [|split].
  - change (bindExpression scope (MultipleConcatenationExpressionSyntax l r))
      with (bindMultipleConcatenationExpression (bindAndPropagate scope) l r).
    unfold bindMultipleConcatenationExpression.
    rewrite (bind_run _ Bl), (bind_run _ Br). unfold evalUInt16. rewrite E.
    reflexivity.
  - reflexivity.
  - split; [reflexivity|]. split; [reflexivity|]. split; [reflexivity|].
    intros R F. cbn [getType2 getType TypeSymbol.width].
    unfold as_uint16, wrap_uint16, wrap_unsigned.
    rewrite Z.mod_small by exact R.
    rewrite Z.mul_comm. now apply wrap_int_fits.
Qed.

(** [{3{x}}] with [x: int] is 96 bits wide. *)
Lemma replication_width_witness :
  exists t,
    bindExpression (H := Reference.collaborators) scopeInts (exprReplicate 3)
      emptyCompilation
    = Some (BinaryExpression t MultipleConcatenationExpression (boundInteger 3)
              (variableRef "x" getIntType), emptyCompilation)
    /\ TypeSymbol.isIntegral t = true
    /\ TypeSymbol.isSigned t = false
    /\ TypeSymbol.width t = 3 * 32.
Proof.
  destruct (replication_width Reference.collaborators scopeInts
              (integerLiteral 1 3) (identifier 8 "x")
              emptyCompilation (boundInteger 3) emptyCompilation
              (variableRef "x" getIntType) emptyCompilation 3
              eq_refl eq_refl eq_refl)
    as (t & Bound & _ & Integral & Unsigned & _ & Width).
  exists t. split; [exact Bound|]. split; [exact Integral|]. split; [exact Unsigned|].
  apply Width; unfold fits_int, INT_MIN, INT_MAX; cbn; lia.
Defined.

(** [{65536{x}}] with [x: int]: the count does not fit in 16 bits, and the
    bound width is 0 instead of 65536 * 32. *)
Lemma replication_65536_loses_count :
  exists t le re c,
    bindSelfDeterminedExpression (H := Reference.collaborators) scopeInts
      (exprReplicate 65536) emptyCompilation
    = Some (BinaryExpression t MultipleConcatenationExpression le re, c)
    /\ Reference.eval le = Some 65536
    /\ TypeSymbol.width (Expr.type re) = 32
    /\ TypeSymbol.width t = 0
    /\ TypeSymbol.width t <> 65536 * 32.
Proof.
  do 4 eexists. split; [vm_compute; reflexivity|].
  repeat split. discriminate.
Qed.

(** ** Subroutine calls *)

(** C7: a call with more actual than formal arguments binds to an
    [Invalid] node and adds exactly one diagnostic, [TooManyArguments],
    carrying the number of formals and the number of actuals. *)
Theorem too_many_arguments :
  forall (collab : Collaborators) scope callee name args c subroutine formals returnType,
    Syntax.getFirstToken callee = Some name ->
    getFoundSymbol (lookup scope (valueText name) LNK_Callable)
    = Some (SubroutineSymbol subroutine formals returnType) ->
    (List.length formals < List.length args)%nat ->
    Z.of_nat (List.length formals) <= INT_MAX ->
    let diagnostic :=
      {| code := TooManyArguments; location := tok_location name;
         args := [ArgRange callee; ArgInt (Z.of_nat (List.length formals));
                  ArgInt (Z.of_nat (List.length args))] |} in
    exists c',
      bindExpression scope (InvocationExpressionSyntax callee args) c
      = Some (InvalidExpression None getErrorType, c')
      /\ diags c' = diags c ++ [diagnostic].
Proof.
  intros collab scope callee name args c subroutine formals returnType
         N L Len Fit diagnostic.
  change (bindExpression scope (InvocationExpressionSyntax callee args))
    with (bindSubroutineCall (bindAndPropagate scope) scope callee args).
  unfold bindSubroutineCall. rewrite N, L.
  destruct (Nat.ltb_spec (List.length formals) (List.length args)); [|lia].
  eexists. split; [reflexivity|]. cbn.
  rewrite wrap_int_fits; [reflexivity|].
  unfold fits_int, INT_MIN, INT_MAX in *. lia.
Qed.

(** S5: [f(1, 2, 3)] for [f(int a, int b)]. *)
Lemma too_many_arguments_witness :
  exists c',
    bindExpression (H := Reference.collaborators) scopeS5 exprS5 emptyCompilation
    = Some (InvalidExpression None getErrorType, c')
    /\ diags c'
       = diags emptyCompilation
         ++ [ {| code := TooManyArguments; location := 0;
                 args := [ArgRange calleeS5; ArgInt 2; ArgInt 3] |} ].
Proof.
  apply (too_many_arguments Reference.collaborators scopeS5 calleeS5
           (token TK_Identifier 0 "f") argumentsS5 emptyCompilation "f"
           [ {| vs_name := "a"; vs_type := getIntType |};
             {| vs_name := "b"; vs_type := getIntType |} ] getIntType
           eq_refl eq_refl).
  - cbn. lia.
  - unfold INT_MAX. cbn. lia.
Defined.

(** ** Assignment-like contexts *)

(** C6: when the bound right-hand side is not bad and its type is not
    assignment compatible with the destination type, the binder adds
    exactly one diagnostic ([NoImplicitConversion] if the types are cast
    compatible, [BadAssignment] otherwise) and returns an [Invalid] node
    wrapping the bound expression. *)
Theorem assignment_incompatible :
  forall (collab : Collaborators) scope syntax location dst c expr c1,
    bindAndPropagate scope syntax c = Some (expr, c1) ->
    Expr.bad expr = false ->
    isAssignmentCompatible dst (Expr.type expr) = false ->
    let diagnostic :=
      {| code := if isCastCompatible dst (Expr.type expr)
                 then NoImplicitConversion else BadAssignment;
         location := location;
         args := [ArgRange syntax] |} in
    exists c',
      bindAssignmentLikeContext scope syntax location dst c
      = Some (InvalidExpression (Some expr) getErrorType, c')
      /\ diags c' = diags c1 ++ [diagnostic].
Proof.
  intros collab scope syntax location dst c expr c1 B NB NA diagnostic.
  unfold bindAssignmentLikeContext, bindAssignmentLikeContextWith.
  rewrite (bind_run _ B), NB, NA. cbn.
  eexists. split; reflexivity.
Qed.

(** A string bound where an [int] is expected: cast compatible only. *)
Lemma assignment_incompatible_witness :
  exists c',
    bindAssignmentLikeContext (H := Reference.collaborators) scopeString
      (identifier 3 "s") 1 getIntType emptyCompilation
    = Some (InvalidExpression (Some (variableRef "s" stringType)) getErrorType, c')
    /\ diags c'
       = diags emptyCompilation
         ++ [ {| code := NoImplicitConversion; location := 1;
                 args := [ArgRange (identifier 3 "s")] |} ].
Proof.
  apply (assignment_incompatible Reference.collaborators scopeString
           (identifier 3 "s") 1 getIntType emptyCompilation
           (variableRef "s" stringType) emptyCompilation
           eq_refl eq_refl eq_refl).
Defined.

(** ** Assignment widening *)

Lemma type_set_type t e : Expr.type (Expr.set_type t e) = t.
Proof. now destruct e. Qed.

Lemma reference_propagateType_own e :
  Expr.type (Reference.propagateType (Expr.type e) e) = Expr.type e.
Proof.
  destruct e as [| | | | |t op o|t op l r| | | | |]; cbn; try reflexivity;
    destruct op; reflexivity.
Qed.







(** ** Quarantine of bad operands *)

Section Quarantine.

Context `{Collaborators}.

Variable scope : Scope.

Lemma bindExpression_unary kind tok s :
  isUnaryKind kind = true ->
  bindExpression scope (PrefixUnaryExpressionSyntax kind tok s)
  = (if match kind with
        | UnaryPlusExpression | UnaryMinusExpression | UnaryBitwiseNotExpression => true
        | _ => false
        end
     then bindUnaryArithmeticOperator (bindAndPropagate scope) kind tok s
     else bindUnaryReductionOperator (bindAndPropagate scope) kind tok s).
Proof. destruct kind; intros K; try discriminate K; reflexivity. Qed.

Lemma unary_quarantine kind tok s c e c1 :
  isUnaryKind kind = true ->
  bindAndPropagate scope s c = Some (e, c1) ->
  Expr.bad e = true ->
  bindExpression scope (PrefixUnaryExpressionSyntax kind tok s) c
  = Some (InvalidExpression (Some (UnaryExpression getErrorType kind e)) getErrorType, c1).
Proof.
  intros K B Bad. rewrite (bindExpression_unary _ _ _ K).
  destruct (match kind with
            | UnaryPlusExpression | UnaryMinusExpression
            | UnaryBitwiseNotExpression => true
            | _ => false
            end);
    unfold bindUnaryArithmeticOperator, bindUnaryReductionOperator;
    rewrite (bind_run _ B);
    now rewrite (bind_run _ (checkOperatorApplicability1_bad _ _ _ _ Bad)).
Qed.

Lemma binary_quarantine kind l tok r c a c1 b c2 :
  isBinaryKind kind = true ->
  bindAndPropagate scope l c = Some (a, c1) ->
  bindAndPropagate scope r c1 = Some (b, c2) ->
  Expr.bad a || Expr.bad b = true ->
  bindExpression scope (BinaryExpressionSyntax kind l tok r) c
  = Some (InvalidExpression (Some (BinaryExpression getErrorType kind a b)) getErrorType,
          c2).
Proof.
  intros K Bl Br Bad. unfold isBinaryKind in K.
  repeat (apply orb_true_iff in K; destruct K as [K|K]).
  - rewrite (bindExpression_arithmetic _ _ _ _ _ K). unfold bindArithmeticOperator.
    rewrite (bind_run _ Bl), (bind_run _ Br).
    now rewrite (bind_run _ (checkOperatorApplicability2_bad _ _ _ _ _ Bad)).
  - rewrite (bindExpression_comparison _ _ _ _ _ K). unfold bindComparisonOperator.
    rewrite (bind_run _ Bl), (bind_run _ Br).
    now rewrite (bind_run _ (checkOperatorApplicability2_bad _ _ _ _ _ Bad)).
  - rewrite (bindExpression_relational _ _ _ _ _ K). unfold bindRelationalOperator.
    rewrite (bind_run _ Bl), (bind_run _ Br).
    now rewrite (bind_run _ (checkOperatorApplicability2_bad _ _ _ _ _ Bad)).
  - rewrite (bindExpression_shiftOrPower _ _ _ _ _ K). unfold bindShiftOrPowerOperator.
    rewrite (bind_run _ Bl), (bind_run _ Br).
    now rewrite (bind_run _ (checkOperatorApplicability2_bad _ _ _ _ _ Bad)).
  - rewrite (bindExpression_assignment _ _ _ _ _ K). unfold bindAssignmentOperator.
    rewrite (bind_run _ Bl), (bind_run _ Br).
    destruct kind; try discriminate K; cbn [assignmentBinopKind];
      now rewrite (bind_run _ (checkOperatorApplicability2_bad _ _ _ _ _ Bad)).
Qed.

Lemma select_base_quarantine base selector c e c1 :
  bindAndPropagate scope base c = Some (e, c1) ->
  Expr.bad e = true ->
  bindExpression scope (ElementSelectExpressionSyntax base selector) c
  = Some (InvalidExpression (Some e) getErrorType, c1).
Proof.
  intros B Bad.
  change (bindExpression scope (ElementSelectExpressionSyntax base selector))
    with (bindSelectExpression (bindAndPropagate scope) base selector).
  unfold bindSelectExpression, bindSelectExpression3.
  rewrite (bind_run _ B). now rewrite Bad.
Qed.

Lemma bad_not_integral e : Expr.bad e = true -> TypeSymbol.isIntegral (Expr.type e) = false.
Proof. unfold Expr.bad. now destruct (Expr.type e). Qed.

(** The loop of the concatenation stops at the first element that is not
    integral, a bad one included, in the state reached after binding the
    elements up to that one. *)
Lemma concatenation_loop_quarantine bindOne :
  forall expressions buffer totalWidth c es c',
    bindAll bindOne expressions c = Some (es, c') ->
    existsb Expr.bad es = true ->
    exists elements rest bound c'',
      expressions = elements ++ rest
      /\ bindAll bindOne elements c = Some (bound, c'')
      /\ bindConcatenationElements bindOne expressions buffer totalWidth c
         = Some (InvalidExpression (Some (NaryExpression getErrorType [])) getErrorType,
                 c'').
Proof.
  induction expressions as [|s rest IH]; intros buffer totalWidth c es c' B Bad.
  - cbn in B. inversion B; subst. discriminate Bad.
  - cbn [bindAll] in B.
    apply bind_inv in B. destruct B as (e & c1 & Be & B).
    apply bind_inv in B. destruct B as (es' & c2 & Bes & B).
    inversion B; subst; clear B.
    cbn [bindConcatenationElements]. rewrite (bind_run _ Be).
    destruct (TypeSymbol.isIntegral (Expr.type e)) eqn:I; cbn [negb].
    + cbn [existsb] in Bad. apply orb_true_iff in Bad. destruct Bad as [Bad|Bad].
      * apply bad_not_integral in Bad. congruence.
      * destruct (IH (buffer ++ [e])
                     (wrap_int (totalWidth + TypeSymbol.width (Expr.type e)))
                     c1 es' c' Bes Bad)
          as (elements & rest' & bound & c'' & E & Bp & R).
        exists (s :: elements), rest', (e :: bound), c''. repeat split.
        -- now rewrite E.
        -- cbn [bindAll]. rewrite (bind_run _ Be). now rewrite (bind_run _ Bp).
        -- exact R.
    + exists [s], rest, [e], c1. repeat split.
      cbn [bindAll]. now rewrite (bind_run _ Be).
Qed.

(** Quarantine where the binder implements it: a unary, binary
    (arithmetic, comparison, logical, shift or power) or assignment
    expression with a bad operand, a select whose base is bad and a
    concatenation with a bad element bind to an [Invalid] node, and the
    diagnostics are those of binding the children; a conditional
    expression, and a bit select on an integral base, also add no
    diagnostic to those of their children. *)
Theorem bad_operand_quarantine :
  (forall kind tok s c e c1,
      isUnaryKind kind = true ->
      bindAndPropagate scope s c = Some (e, c1) ->
      Expr.bad e = true ->
      exists parent,
        bindExpression scope (PrefixUnaryExpressionSyntax kind tok s) c
        = Some (parent, c1)
        /\ Expr.isInvalid parent = true /\ Expr.type parent = getErrorType)
  /\ (forall kind l tok r c a c1 b c2,
         isBinaryKind kind = true ->
         bindAndPropagate scope l c = Some (a, c1) ->
         bindAndPropagate scope r c1 = Some (b, c2) ->
         Expr.bad a || Expr.bad b = true ->
         exists parent,
           bindExpression scope (BinaryExpressionSyntax kind l tok r) c
           = Some (parent, c2)
           /\ Expr.isInvalid parent = true /\ Expr.type parent = getErrorType)
  /\ (forall base selector c e c1,
         bindAndPropagate scope base c = Some (e, c1) ->
         Expr.bad e = true ->
         exists parent,
           bindExpression scope (ElementSelectExpressionSyntax base selector) c
           = Some (parent, c1)
           /\ Expr.isInvalid parent = true /\ Expr.type parent = getErrorType)
  /\ (forall expressions c es c',
         bindAll (bindAndPropagate scope) expressions c = Some (es, c') ->
         existsb Expr.bad es = true ->
         exists parent elements rest bound c'',
           expressions = elements ++ rest
           /\ bindAll (bindAndPropagate scope) elements c = Some (bound, c'')
           /\ bindExpression scope (ConcatenationExpressionSyntax expressions) c
              = Some (parent, c'')
           /\ Expr.isInvalid parent = true /\ Expr.type parent = getErrorType)
  /\ (forall p l r c pe c1 le c2 re c3,
         bindAndPropagate scope p c = Some (pe, c1) ->
         bindAndPropagate scope l c1 = Some (le, c2) ->
         bindAndPropagate scope r c2 = Some (re, c3) ->
         exists parent,
           bindExpression scope (ConditionalExpressionSyntax [p] l r) c
           = Some (parent, c3))
  /\ (forall base index c e c1 i c2 w sg fs lb lbs,
         bindAndPropagate scope base c = Some (e, c1) ->
         Expr.type e = IntegralTypeSymbol w sg fs (lb :: lbs) ->
         bindAndPropagate scope index c1 = Some (i, c2) ->
         exists parent,
           bindExpression scope
             (ElementSelectExpressionSyntax base (BitSelectSyntax index)) c
           = Some (parent, c2)).
Proof.
  repeat apply conj.
  - intros kind tok s c e c1 K B Bad. eexists. split.
    + eapply unary_quarantine; eassumption.
    + now split.
  - intros kind l tok r c a c1 b c2 K Bl Br Bad. eexists. split.
    + eapply binary_quarantine; eassumption.
    + now split.
  - intros base selector c e c1 B Bad. eexists. split.
    + eapply select_base_quarantine; eassumption.
    + now split.
  - intros expressions c es c' B Bad.
    destruct (concatenation_loop_quarantine _ expressions [] 0 c es c' B Bad)
      as (elements & rest & bound & c'' & E & Bp & R).
    exists (InvalidExpression (Some (NaryExpression getErrorType [])) getErrorType),
      elements, rest, bound, c''.
    split; [exact E|]. split; [exact Bp|]. split; [exact R|]. now split.
  - intros p l r c pe c1 le c2 re c3 Bp Bl Br. eexists.
    change (bindExpression scope (ConditionalExpressionSyntax [p] l r))
      with (bindConditionalExpression (bindAndPropagate scope) [p] l r).
    unfold bindConditionalExpression.
    now rewrite (bind_run _ Bp), (bind_run _ Bl), (bind_run _ Br).
  - intros base index c e c1 i c2 w sg fs lb lbs B T Bi. eexists.
    change (bindExpression scope
              (ElementSelectExpressionSyntax base (BitSelectSyntax index)))
      with (bindSelectExpression (bindAndPropagate scope) base (BitSelectSyntax index)).
    unfold bindSelectExpression. rewrite (bind_run _ B).
    exact (bindSelectExpression3_bit _ _ _ _ _ _ _ T _ _ _ _ Bi).
Qed.

(** A conditional expression never binds to an [Invalid] node, whatever
    its operands are. *)
Lemma conditional_never_invalid conditions l r c parent c' :
  bindExpression scope (ConditionalExpressionSyntax conditions l r) c = Some (parent, c') ->
  Expr.isInvalid parent = false /\ Expr.bad parent = false.
Proof.
  change (bindExpression scope (ConditionalExpressionSyntax conditions l r))
    with (bindConditionalExpression (bindAndPropagate scope) conditions l r).
  unfold bindConditionalExpression.
  destruct conditions as [|p [|q rest]]; try discriminate.
  intros B.
  apply bind_inv in B. destruct B as (pe & c1 & _ & B).
  apply bind_inv in B. destruct B as (le & c2 & _ & B).
  apply bind_inv in B. destruct B as (re & c3 & _ & B).
  inversion B; subst. split; [reflexivity|].
  apply binaryOperatorResultType_not_error.
Qed.

End Quarantine.

(** [z] is undeclared: as an operand of [+] it poisons the sum. *)
Lemma bad_operand_quarantine_witness :
  exists parent,
    bindExpression (H := Reference.collaborators) scopeInts
      (binary AddExpression (identifier 0 "z") 2 (identifier 4 "x")) emptyCompilation
    = Some (parent,
            addError UndeclaredIdentifier 0 [ArgText "z"] emptyCompilation)
    /\ Expr.isInvalid parent = true /\ Expr.type parent = getErrorType.
Proof.
  destruct (bad_operand_quarantine (H := Reference.collaborators) scopeInts)
    as (_ & Binary & _).
  apply (Binary AddExpression (identifier 0 "z") (token TK_Other 2 "") (identifier 4 "x")
           emptyCompilation (InvalidExpression None getErrorType)
           (addError UndeclaredIdentifier 0 [ArgText "z"] emptyCompilation)
           (variableRef "x" getIntType)
           (addError UndeclaredIdentifier 0 [ArgText "z"] emptyCompilation)
           eq_refl eq_refl eq_refl eq_refl).
Defined.

(** C2 on the code: [x ? z : y] and [v[z]] with [z] undeclared.  The
    operand [z] binds to an [Invalid] child, but the parent is not
    [Invalid]: [bindConditionalExpression] never tests [bad()] and returns
    a ternary node of an integral type, and [bindSelectExpression] tests
    the base only and returns a select node.  The binders of the unary and
    binary operators do make the test. *)
Theorem conditional_with_invalid_child_is_not_invalid :
  (exists child c1 parent c2,
      bindAndPropagate (H := Reference.collaborators) scopeInts (identifier 4 "z")
        emptyCompilation = Some (child, c1)
      /\ Expr.isInvalid child = true
      /\ bindSelfDeterminedExpression (H := Reference.collaborators) scopeInts
           exprConditionalBad emptyCompilation = Some (parent, c2)
      /\ (exists t pred rhs, parent = TernaryExpression t pred child rhs)
      /\ Expr.isInvalid parent = false
      /\ Expr.bad parent = false)
  /\ (exists child c1 parent c2,
         bindAndPropagate (H := Reference.collaborators) scopeS6 (identifier 2 "z")
           emptyCompilation = Some (child, c1)
         /\ Expr.isInvalid child = true
         /\ bindSelfDeterminedExpression (H := Reference.collaborators) scopeS6
              exprSelectBadIndex emptyCompilation = Some (parent, c2)
         /\ (exists t k base, parent = SelectExpression t k base child child)
         /\ Expr.isInvalid parent = false
         /\ Expr.bad parent = false).
Proof.
  split.
  - do 4 eexists. split; [vm_compute; reflexivity|]. split; [reflexivity|].
    split; [vm_compute; reflexivity|]. split; [|split; reflexivity].
    do 3 eexists. reflexivity.
  - do 4 eexists. split; [vm_compute; reflexivity|]. split; [reflexivity|].
    split; [vm_compute; reflexivity|]. split; [|split; reflexivity].
    do 3 eexists. reflexivity.
Qed.

(** * Further laws of the binder *)

Import MoreScenarios.

(** ** The algebra of result types *)

(** The result type of a binary operator does not depend on the order of
    its operands. *)
Theorem binaryOperatorResultType_comm :
  forall a b force,
    binaryOperatorResultType a b force = binaryOperatorResultType b a force.
Proof.
  intros a b force. unfold binaryOperatorResultType.
  rewrite (Z.max_comm (TypeSymbol.width a)).
  rewrite (orb_comm (TypeSymbol.isReal a)).
  rewrite (andb_comm (TypeSymbol.isSigned a)).
  replace (force || TypeSymbol.isFourState a || TypeSymbol.isFourState b)
    with (force || TypeSymbol.isFourState b || TypeSymbol.isFourState a)
    by (destruct force, (TypeSymbol.isFourState a), (TypeSymbol.isFourState b);
        reflexivity).
  reflexivity.
Qed.

(** The result type is a real type exactly when an operand is real, and
    then the four-state flag plays no role and the result is [real] as
    soon as one operand has 64 bits or more, [shortreal] otherwise; it is
    never the error type. *)
Theorem binaryOperatorResultType_real_rule :
  forall a b force,
    TypeSymbol.isReal (binaryOperatorResultType a b force)
    = TypeSymbol.isReal a || TypeSymbol.isReal b
    /\ TypeSymbol.isError (binaryOperatorResultType a b force) = false
    /\ (TypeSymbol.isReal a || TypeSymbol.isReal b = true ->
        binaryOperatorResultType a b force = binaryOperatorResultType a b (negb force)
        /\ (64 <= TypeSymbol.width a \/ 64 <= TypeSymbol.width b ->
            binaryOperatorResultType a b force = getRealType)
        /\ (TypeSymbol.width a < 64 /\ TypeSymbol.width b < 64 ->
            binaryOperatorResultType a b force = getShortRealType)).
Proof.
  intros a b force. split; [|split].
  - unfold binaryOperatorResultType.
    destruct (TypeSymbol.isReal a || TypeSymbol.isReal b); [|reflexivity].
    now destruct (64 <=? _).
  - apply binaryOperatorResultType_not_error.
  - intros R. unfold binaryOperatorResultType. rewrite R. split; [reflexivity|].
    split.
    + intros W. destruct (Z.leb_spec 64
                            (Z.max (TypeSymbol.width a) (TypeSymbol.width b)));
        [reflexivity|lia].
    + intros W. destruct (Z.leb_spec 64
                            (Z.max (TypeSymbol.width a) (TypeSymbol.width b)));
        [lia|reflexivity].
Qed.

(** A 64-bit integral with a shortreal gives [real]. *)
Lemma binaryOperatorResultType_real_rule_witness :
  binaryOperatorResultType (getType 64 true false) getShortRealType false
  = getRealType.
Proof.
  apply (binaryOperatorResultType_real_rule
           (getType 64 true false) getShortRealType false).
  - reflexivity.
  - left. cbn. lia.
Defined.

(** ** Names *)

Section Names.

Context `{Collaborators}.

Hypothesis own_type : forall e, Expr.type (propagateOwnType e) = Expr.type e.

Lemma bad_propagateOwnType e : Expr.bad (propagateOwnType e) = Expr.bad e.
Proof. unfold Expr.bad. now rewrite own_type. Qed.

Lemma bindAndPropagate_undeclared scope identifier c :
  getResultKind (lookup scope (valueText identifier) LNK_Default) <> Found ->
  bindAndPropagate scope (IdentifierNameSyntax identifier) c
  = Some (propagateOwnType (InvalidExpression None getErrorType),
          addError UndeclaredIdentifier (tok_location identifier)
                   [ArgText (valueText identifier)] c).
Proof.
  intros NF. unfold bindAndPropagate, andPropagate. cbn [bindExpression].
  unfold bindSimpleName.
  destruct (getResultKind (lookup scope (valueText identifier) LNK_Default));
    [congruence| |]; reflexivity.
Qed.

(** An identifier the scope does not find (not found, or ambiguous) as the
    left operand of any binary operator: the expression binds to an
    [Invalid] node, and the diagnostics are one [UndeclaredIdentifier]
    with the identifier's text at its location, followed by those of the
    right operand; the operator adds none. *)
Theorem undeclared_left_operand :
  forall scope kind identifier tok r c b c2,
    isBinaryKind kind = true ->
    getResultKind (lookup scope (valueText identifier) LNK_Default) <> Found ->
    bindAndPropagate scope r
      (addError UndeclaredIdentifier (tok_location identifier)
                [ArgText (valueText identifier)] c) = Some (b, c2) ->
    exists parent,
      bindExpression scope
        (BinaryExpressionSyntax kind (IdentifierNameSyntax identifier) tok r) c
      = Some (parent, c2)
      /\ Expr.isInvalid parent = true
      /\ Expr.type parent = getErrorType.
Proof.
  intros scope kind identifier tok r c b c2 K NF Br.
  eexists. split.
  - apply (binary_quarantine scope kind _ tok r c _ _ b c2 K
             (bindAndPropagate_undeclared scope identifier c NF) Br).
    now rewrite bad_propagateOwnType.
  - split; reflexivity.
Qed.

End Names.

(** S4: [z + 1] with no [z] in scope gives an [Invalid] node and exactly
    one diagnostic. *)
Lemma undeclared_left_operand_witness :
  exists parent,
    bindExpression (H := Reference.collaborators) emptyScope
      (binary AddExpression (identifier 0 "z") 2 (integerLiteral 4 1)) emptyCompilation
    = Some (parent, afterUndeclaredZ)
    /\ Expr.isInvalid parent = true
    /\ Expr.type parent = getErrorType.
Proof.
  apply (undeclared_left_operand (H := Reference.collaborators)
           reference_propagateType_own emptyScope AddExpression undeclaredZ
           (operatorAt 2) (integerLiteral 4 1) emptyCompilation
           (boundInteger 1) afterUndeclaredZ eq_refl).
  - discriminate.
  - reflexivity.
Defined.

(** ** Unary operators *)

Section UnaryOperators.

Context `{Collaborators}.

Variables (scope : Scope) (kind : SyntaxKind) (tok : Token) (s : ExpressionSyntax).
Variables (c c1 : Compilation) (e : Expression).

Hypothesis unary_kind : isUnaryKind kind = true.
Hypothesis bound_operand : bindAndPropagate scope s c = Some (e, c1).

(** A unary operator on an admissible operand (integral, or real for [+],
    [-] and [!]) binds without a diagnostic: a reduction or [!] has type
    [logic], whatever the operand's width, and [+], [-], [~] have the type
    of the operand. *)
Theorem unary_operator_result_type :
  TypeSymbol.isIntegral (Expr.type e)
  || (unaryAcceptsReal kind && TypeSymbol.isReal (Expr.type e)) = true ->
  bindExpression scope (PrefixUnaryExpressionSyntax kind tok s) c
  = Some (UnaryExpression
            (if isReductionKind kind then getLogicType else Expr.type e) kind e, c1).
Proof.
  intros Ok. rewrite (bindExpression_unary scope kind tok s unary_kind).
  assert (Check : checkOperatorApplicability1 kind (tok_location tok) e c1
                  = Some (true, c1)).
  { unfold checkOperatorApplicability1, Expr.bad.
    destruct (Expr.type e); destruct kind; try discriminate unary_kind;
      try discriminate Ok; reflexivity. }
  destruct kind; try discriminate unary_kind;
    unfold bindUnaryArithmeticOperator, bindUnaryReductionOperator;
    rewrite (bind_run _ bound_operand), (bind_run _ Check); reflexivity.
Qed.

(** A unary operator on an operand that is not bad but has an inadmissible
    type binds to an [Invalid] node wrapping the unary node, and adds
    exactly one diagnostic, [BadUnaryExpression], at the operator, with
    the operand's type. *)
Theorem unary_operator_rejected :
  Expr.bad e = false ->
  TypeSymbol.isIntegral (Expr.type e)
  || (unaryAcceptsReal kind && TypeSymbol.isReal (Expr.type e)) = false ->
  bindExpression scope (PrefixUnaryExpressionSyntax kind tok s) c
  = Some (InvalidExpression (Some (UnaryExpression getErrorType kind e)) getErrorType,
          addError BadUnaryExpression (tok_location tok) [ArgType (Expr.type e)] c1).
Proof.
  intros NotBad No. rewrite (bindExpression_unary scope kind tok s unary_kind).
  assert (Check : checkOperatorApplicability1 kind (tok_location tok) e c1
                  = Some (false, addError BadUnaryExpression (tok_location tok)
                                          [ArgType (Expr.type e)] c1)).
  { unfold checkOperatorApplicability1. rewrite NotBad.
    unfold Expr.bad in NotBad.
    destruct (Expr.type e); destruct kind; try discriminate unary_kind;
      try discriminate No; try discriminate NotBad; reflexivity. }
  destruct kind; try discriminate unary_kind;
    unfold bindUnaryArithmeticOperator, bindUnaryReductionOperator;
    rewrite (bind_run _ bound_operand), (bind_run _ Check); reflexivity.
Qed.

End UnaryOperators.

(** [!r] with [r: real] is accepted and has type [logic]. *)
Lemma unary_operator_result_type_witness :
  bindExpression (H := Reference.collaborators) scopeMixed
    (PrefixUnaryExpressionSyntax UnaryLogicalNotExpression (operatorAt 0)
       (identifier 1 "r")) emptyCompilation
  = Some (UnaryExpression getLogicType UnaryLogicalNotExpression
            (variableRef "r" getRealType), emptyCompilation).
Proof.
  apply (unary_operator_result_type (H := Reference.collaborators) scopeMixed
           UnaryLogicalNotExpression (operatorAt 0) (identifier 1 "r")
           emptyCompilation emptyCompilation (variableRef "r" getRealType)
           eq_refl eq_refl eq_refl).
Defined.

(** [~r] with [r: real] is rejected. *)
Lemma unary_operator_rejected_witness :
  bindExpression (H := Reference.collaborators) scopeMixed
    (PrefixUnaryExpressionSyntax UnaryBitwiseNotExpression (operatorAt 0)
       (identifier 1 "r")) emptyCompilation
  = Some (InvalidExpression
            (Some (UnaryExpression getErrorType UnaryBitwiseNotExpression
                     (variableRef "r" getRealType))) getErrorType,
          addError BadUnaryExpression 0 [ArgType getRealType] emptyCompilation).
Proof.
  apply (unary_operator_rejected (H := Reference.collaborators) scopeMixed
           UnaryBitwiseNotExpression (operatorAt 0) (identifier 1 "r")
           emptyCompilation emptyCompilation (variableRef "r" getRealType)
           eq_refl eq_refl eq_refl eq_refl).
Defined.

(** ** Binary operators *)

Section BinaryOperators.

Context `{Collaborators}.

Variables (scope : Scope) (kind : SyntaxKind) (l r : ExpressionSyntax) (tok : Token).
Variables (c c1 c2 : Compilation) (a b : Expression).

Hypothesis bound_l : bindAndPropagate scope l c = Some (a, c1).
Hypothesis bound_r : bindAndPropagate scope r c1 = Some (b, c2).

Lemma checkOperatorApplicability2_rejects op :
  Expr.bad a = false ->
  Expr.bad b = false ->
  (if binaryAcceptsReal op
   then (TypeSymbol.isIntegral (Expr.type a) || TypeSymbol.isReal (Expr.type a))
        && (TypeSymbol.isIntegral (Expr.type b) || TypeSymbol.isReal (Expr.type b))
   else TypeSymbol.isIntegral (Expr.type a) && TypeSymbol.isIntegral (Expr.type b))
  = false ->
  checkOperatorApplicability2 op (tok_location tok) a b c2
  = Some (false, addError BadBinaryExpression (tok_location tok)
                          [ArgType (Expr.type a); ArgType (Expr.type b)] c2).
Proof.
  intros Na Nb No. unfold checkOperatorApplicability2. rewrite Na, Nb. cbn [orb].
  destruct op; cbn [binaryAcceptsReal] in No; rewrite No; reflexivity.
Qed.

(** A binary operator (an assignment included) on operands that are not
    bad but whose types the operator does not admit binds to an [Invalid]
    node wrapping the binary node, and adds exactly one diagnostic,
    [BadBinaryExpression], at the operator, with both operand types.  An
    assignment is checked with the operator of its compound form, and the
    plain [=] like an operator that admits integral operands only. *)
Theorem binary_operator_rejected :
  isBinaryKind kind = true ->
  Expr.bad a = false ->
  Expr.bad b = false ->
  (if binaryAcceptsReal (checkedOperator kind)
   then (TypeSymbol.isIntegral (Expr.type a) || TypeSymbol.isReal (Expr.type a))
        && (TypeSymbol.isIntegral (Expr.type b) || TypeSymbol.isReal (Expr.type b))
   else TypeSymbol.isIntegral (Expr.type a) && TypeSymbol.isIntegral (Expr.type b))
  = false ->
  bindExpression scope (BinaryExpressionSyntax kind l tok r) c
  = Some (InvalidExpression (Some (BinaryExpression getErrorType kind a b)) getErrorType,
          addError BadBinaryExpression (tok_location tok)
                   [ArgType (Expr.type a); ArgType (Expr.type b)] c2).
Proof.
  intros K Na Nb No. unfold isBinaryKind in K.
  pose proof (checkOperatorApplicability2_rejects (checkedOperator kind) Na Nb No)
    as Check.
  repeat (apply orb_true_iff in K; destruct K as [K|K]).
  - rewrite (bindExpression_arithmetic _ _ _ _ _ K). unfold bindArithmeticOperator.
    rewrite (bind_run _ bound_l), (bind_run _ bound_r).
    replace (checkedOperator kind) with kind in Check
      by (destruct kind; try discriminate K; reflexivity).
    now rewrite (bind_run _ Check).
  - rewrite (bindExpression_comparison _ _ _ _ _ K). unfold bindComparisonOperator.
    rewrite (bind_run _ bound_l), (bind_run _ bound_r).
    replace (checkedOperator kind) with kind in Check
      by (destruct kind; try discriminate K; reflexivity).
    now rewrite (bind_run _ Check).
  - rewrite (bindExpression_relational _ _ _ _ _ K). unfold bindRelationalOperator.
    rewrite (bind_run _ bound_l), (bind_run _ bound_r).
    replace (checkedOperator kind) with kind in Check
      by (destruct kind; try discriminate K; reflexivity).
    now rewrite (bind_run _ Check).
  - rewrite (bindExpression_shiftOrPower _ _ _ _ _ K). unfold bindShiftOrPowerOperator.
    rewrite (bind_run _ bound_l), (bind_run _ bound_r).
    replace (checkedOperator kind) with kind in Check
      by (destruct kind; try discriminate K; reflexivity).
    now rewrite (bind_run _ Check).
  - rewrite (bindExpression_assignment _ _ _ _ _ K). unfold bindAssignmentOperator.
    rewrite (bind_run _ bound_l), (bind_run _ bound_r).
    unfold checkedOperator in Check.
    destruct (assignmentBinopKind kind) as [binopKind|] eqn:A;
      [|destruct kind; discriminate].
    now rewrite (bind_run _ Check).
Qed.

(** A comparison of two numeric operands (each integral or real) binds
    without a diagnostic to a binary node of type [logic], whatever the
    operand types are. *)
Theorem comparison_result_is_logic :
  isComparisonKind kind = true ->
  TypeSymbol.isIntegral (Expr.type a) || TypeSymbol.isReal (Expr.type a) = true ->
  TypeSymbol.isIntegral (Expr.type b) || TypeSymbol.isReal (Expr.type b) = true ->
  bindExpression scope (BinaryExpressionSyntax kind l tok r) c
  = Some (BinaryExpression getLogicType kind a b, c2).
Proof.
  intros K Oa Ob. rewrite (bindExpression_comparison _ _ _ _ _ K).
  unfold bindComparisonOperator.
  rewrite (bind_run _ bound_l), (bind_run _ bound_r).
  assert (Check : checkOperatorApplicability2 kind (tok_location tok) a b c2
                  = Some (true, c2)).
  { unfold checkOperatorApplicability2, Expr.bad.
    destruct (Expr.type a); try discriminate Oa;
      destruct (Expr.type b); try discriminate Ob;
      destruct kind; try discriminate K; reflexivity. }
  now rewrite (bind_run _ Check).
Qed.

Hypothesis own_type : forall e, Expr.type (propagateOwnType e) = Expr.type e.

(** A logical operator ([&&], [||], [->], [<->]) on integral operands
    binds without a diagnostic to a node of type [logic] whose two
    operands have been brought to the same width, the larger of the two;
    each operand keeps its own signedness and four-state flag. *)
Theorem relational_operands_same_width :
  forall wa sa fa ba wb sb fb bb,
    isRelationalKind kind = true ->
    Expr.type a = IntegralTypeSymbol wa sa fa ba ->
    Expr.type b = IntegralTypeSymbol wb sb fb bb ->
    exists a' b',
      bindExpression scope (BinaryExpressionSyntax kind l tok r) c
      = Some (BinaryExpression getLogicType kind a' b', c2)
      /\ TypeSymbol.width (Expr.type a') = Z.max wa wb
      /\ TypeSymbol.width (Expr.type b') = Z.max wa wb
      /\ TypeSymbol.isSigned (Expr.type a') = sa
      /\ TypeSymbol.isFourState (Expr.type a') = fa
      /\ TypeSymbol.isSigned (Expr.type b') = sb
      /\ TypeSymbol.isFourState (Expr.type b') = fb.
Proof.
  intros wa sa fa ba wb sb fb bb K Ta Tb.
  rewrite (bindExpression_relational _ _ _ _ _ K). unfold bindRelationalOperator.
  rewrite (bind_run _ bound_l), (bind_run _ bound_r).
  rewrite (bind_run _ (checkOperatorApplicability2_integral kind (tok_location tok)
                         a b c2 ltac:(now rewrite Ta) ltac:(now rewrite Tb))).
  cbn [negb]. unfold propagateAssignmentLike. rewrite Ta, Tb. cbn.
  destruct (Z.ltb_spec wb wa) as [Lt|Ge]; cbn.
  - do 2 eexists. split; [reflexivity|].
    rewrite own_type, type_set_type, Ta. cbn. repeat split; lia.
  - rewrite Tb. cbn. destruct (Z.ltb_spec wa wb) as [Lt|Ge']; cbn.
    + do 2 eexists. split; [reflexivity|].
      rewrite own_type, type_set_type, Tb. cbn. repeat split; lia.
    + do 2 eexists. split; [reflexivity|].
      rewrite Ta, Tb. cbn. repeat split; lia.
Qed.

End BinaryOperators.

(** The plain assignment [r = i] with [r: real] is rejected like an
    operator on integral operands only. *)
Lemma binary_operator_rejected_witness :
  bindExpression (H := Reference.collaborators) scopeMixed
    (binary AssignmentExpression (identifier 0 "r") 2 (identifier 4 "i"))
    emptyCompilation
  = Some (InvalidExpression
            (Some (BinaryExpression getErrorType AssignmentExpression
                     (variableRef "r" getRealType) (variableRef "i" getIntType)))
            getErrorType,
          addError BadBinaryExpression 2 [ArgType getRealType; ArgType getIntType]
                   emptyCompilation).
Proof.
  apply (binary_operator_rejected (H := Reference.collaborators) scopeMixed
           AssignmentExpression (identifier 0 "r") (identifier 4 "i") (operatorAt 2)
           emptyCompilation emptyCompilation emptyCompilation
           (variableRef "r" getRealType) (variableRef "i" getIntType)
           eq_refl eq_refl eq_refl eq_refl eq_refl eq_refl).
Defined.

(** [r < a] with [r: real], [a: logic[7:0]]. *)
Lemma comparison_result_is_logic_witness :
  bindExpression (H := Reference.collaborators) scopeMixed
    (binary LessThanExpression (identifier 0 "r") 2 (identifier 4 "a"))
    emptyCompilation
  = Some (BinaryExpression getLogicType LessThanExpression
            (variableRef "r" getRealType) (variableRef "a" (logicVector 8)),
          emptyCompilation).
Proof.
  apply (comparison_result_is_logic (H := Reference.collaborators) scopeMixed
           LessThanExpression (identifier 0 "r") (identifier 4 "a") (operatorAt 2)
           emptyCompilation emptyCompilation emptyCompilation
           (variableRef "r" getRealType) (variableRef "a" (logicVector 8))
           eq_refl eq_refl eq_refl eq_refl eq_refl).
Defined.

(** [a && b] with [a: logic[7:0]], [b: logic[3:0]]: both operands end up
    8 bits wide. *)
Lemma relational_operands_same_width_witness :
  exists a' b',
    bindExpression (H := Reference.collaborators) scopeMixed
      (binary LogicalAndExpression (identifier 0 "a") 2 (identifier 4 "b"))
      emptyCompilation
    = Some (BinaryExpression getLogicType LogicalAndExpression a' b', emptyCompilation)
    /\ TypeSymbol.width (Expr.type a') = Z.max 8 4
    /\ TypeSymbol.width (Expr.type b') = Z.max 8 4
    /\ TypeSymbol.isSigned (Expr.type a') = false
    /\ TypeSymbol.isFourState (Expr.type a') = true
    /\ TypeSymbol.isSigned (Expr.type b') = false
    /\ TypeSymbol.isFourState (Expr.type b') = true.
Proof.
  apply (relational_operands_same_width (H := Reference.collaborators) scopeMixed
           LogicalAndExpression (identifier 0 "a") (identifier 4 "b") (operatorAt 2)
           emptyCompilation emptyCompilation emptyCompilation
           (variableRef "a" (logicVector 8)) (variableRef "b" (logicVector 4))
           eq_refl eq_refl reference_propagateType_own
           8 false true [0] 4 false true [0] eq_refl eq_refl eq_refl).
Defined.

(** ** Concatenations *)

Section Concatenations.

Context `{Collaborators}.

Variable bindOne : ExpressionSyntax -> M Expression.

(** The loop, run to its end on integral elements. *)
Lemma concatenation_loop_integral :
  forall expressions buffer totalWidth c bound c',
    bindAll bindOne expressions c = Some (bound, c') ->
    allIntegral bound = true ->
    bindConcatenationElements bindOne expressions buffer totalWidth c
    = Some (NaryExpression
              (getType2 (fold_left (fun w e => wrap_int (w + TypeSymbol.width (Expr.type e)))
                                   bound totalWidth) false)
              (buffer ++ bound), c').
Proof.
  induction expressions as [|s rest IH]; intros buffer totalWidth c bound c' B I.
  - cbn in B. inversion B; subst. cbn. now rewrite app_nil_r.
  - cbn [bindAll] in B.
    apply bind_inv in B. destruct B as (e & c1 & Be & B).
    apply bind_inv in B. destruct B as (es & c2 & Bes & B).
    inversion B; subst; clear B.
    cbn [allIntegral forallb] in I. apply andb_true_iff in I. destruct I as [Ie Ies].
    cbn [bindConcatenationElements]. rewrite (bind_run _ Be), Ie. cbn [negb].
    rewrite (IH _ _ _ _ _ Bes Ies). cbn [fold_left].
    now rewrite <- app_assoc.
Qed.

Lemma fold_widths_in_range :
  forall bound totalWidth,
    Forall (fun w => 0 <= w) (widthsOf bound) ->
    0 <= totalWidth ->
    totalWidth + sumOf (widthsOf bound) <= INT_MAX ->
    fold_left (fun w e => wrap_int (w + TypeSymbol.width (Expr.type e))) bound totalWidth
    = totalWidth + sumOf (widthsOf bound).
Proof.
  induction bound as [|e es IH]; intros totalWidth Pos T Fit.
  - cbn. lia.
  - cbn [widthsOf map] in Pos. inversion Pos as [|w ws Pw Pws]; subst.
    cbn [fold_left]. cbn [widthsOf map sumOf fold_right] in Fit |- *.
    fold (widthsOf es) in *. fold (sumOf (widthsOf es)) in *.
    assert (S : 0 <= sumOf (widthsOf es)).
    { clear - Pws. induction Pws; cbn; [lia|]. unfold sumOf in IHPws. lia. }
    rewrite wrap_int_fits
      by (unfold fits_int, INT_MIN, INT_MAX in *; cbn in *; lia).
    rewrite IH; [lia|exact Pws|lia|lia].
Qed.

(** The loop, stopped by an element that is not integral. *)
Lemma concatenation_loop_stops :
  forall elements s rest buffer totalWidth c bound c1 e c2,
    bindAll bindOne elements c = Some (bound, c1) ->
    allIntegral bound = true ->
    bindOne s c1 = Some (e, c2) ->
    TypeSymbol.isIntegral (Expr.type e) = false ->
    bindConcatenationElements bindOne (elements ++ s :: rest) buffer totalWidth c
    = Some (InvalidExpression (Some (NaryExpression getErrorType [])) getErrorType, c2).
Proof.
  induction elements as [|x xs IH];
    intros s rest buffer totalWidth c bound c1 e c2 B I Bs N.
  - cbn in B. inversion B; subst. cbn [app bindConcatenationElements].
    rewrite (bind_run _ Bs), N. reflexivity.
  - cbn [bindAll] in B.
    apply bind_inv in B. destruct B as (ex & cx & Bx & B).
    apply bind_inv in B. destruct B as (es & c' & Bes & B).
    inversion B; subst; clear B.
    cbn [allIntegral forallb] in I. apply andb_true_iff in I. destruct I as [Ix Ies].
    cbn [app bindConcatenationElements]. rewrite (bind_run _ Bx), Ix. cbn [negb].
    apply (IH _ _ _ _ _ _ _ _ _ Bes Ies Bs N).
Qed.

End Concatenations.

Section ConcatenationLaws.

Context `{Collaborators}.

Variable scope : Scope.

(** A concatenation whose elements all bind to integral types binds,
    without a diagnostic of its own, to an n-ary node over the bound
    elements in order, of an unsigned integral type whose width is the sum
    of the element widths (as long as that sum is in the range of [int]);
    the empty concatenation has width 0. *)
Theorem concatenation_width_is_sum :
  forall expressions c bound c',
    bindAll (bindAndPropagate scope) expressions c = Some (bound, c') ->
    allIntegral bound = true ->
    Forall (fun w => 0 <= w) (widthsOf bound) ->
    sumOf (widthsOf bound) <= INT_MAX ->
    exists t,
      bindExpression scope (ConcatenationExpressionSyntax expressions) c
      = Some (NaryExpression t bound, c')
      /\ TypeSymbol.isIntegral t = true
      /\ TypeSymbol.width t = sumOf (widthsOf bound)
      /\ TypeSymbol.isSigned t = false.
Proof.
  intros expressions c bound c' B I Pos Fit. eexists. split.
  - change (bindExpression scope (ConcatenationExpressionSyntax expressions))
      with (bindConcatenationElements (bindAndPropagate scope) expressions [] 0).
    apply (concatenation_loop_integral _ expressions [] 0 c bound c' B I).
  - rewrite (fold_widths_in_range bound 0 Pos) by lia. repeat split.
Qed.

(** A concatenation stops at its first element that is not integral (a
    real, say): it binds to an [Invalid] node, adds no diagnostic of its
    own, and the elements after that one are not bound at all. *)
Theorem concatenation_stops_at_non_integral :
  forall elements s rest c bound c1 e c2,
    bindAll (bindAndPropagate scope) elements c = Some (bound, c1) ->
    allIntegral bound = true ->
    bindAndPropagate scope s c1 = Some (e, c2) ->
    TypeSymbol.isIntegral (Expr.type e) = false ->
    bindExpression scope (ConcatenationExpressionSyntax (elements ++ s :: rest)) c
    = Some (InvalidExpression (Some (NaryExpression getErrorType [])) getErrorType, c2).
Proof.
  intros elements s rest c bound c1 e c2 B I Bs N.
  change (bindExpression scope (ConcatenationExpressionSyntax (elements ++ s :: rest)))
    with (bindConcatenationElements (bindAndPropagate scope) (elements ++ s :: rest) [] 0).
  apply (concatenation_loop_stops _ elements s rest [] 0 c bound c1 e c2 B I Bs N).
Qed.

End ConcatenationLaws.

(** [{a, b}] with [a: logic[7:0]], [b: logic[3:0]] has 12 bits. *)
Lemma concatenation_width_is_sum_witness :
  exists t,
    bindExpression (H := Reference.collaborators) scopeMixed
      (ConcatenationExpressionSyntax [identifier 1 "a"; identifier 4 "b"])
      emptyCompilation
    = Some (NaryExpression t [variableRef "a" (logicVector 8);
                              variableRef "b" (logicVector 4)], emptyCompilation)
    /\ TypeSymbol.isIntegral t = true
    /\ TypeSymbol.width t = 12
    /\ TypeSymbol.isSigned t = false.
Proof.
  apply (concatenation_width_is_sum (H := Reference.collaborators) scopeMixed
           [identifier 1 "a"; identifier 4 "b"] emptyCompilation
           [variableRef "a" (logicVector 8); variableRef "b" (logicVector 4)]
           emptyCompilation eq_refl eq_refl).
  - repeat constructor; cbn; lia.
  - unfold INT_MAX. cbn. lia.
Defined.

(** [{a, r, q}] with [r: real]: invalid after [r], and the undeclared [q]
    is never looked up. *)
Lemma concatenation_stops_at_non_integral_witness :
  bindExpression (H := Reference.collaborators) scopeMixed
    (ConcatenationExpressionSyntax
       ([identifier 1 "a"] ++ identifier 4 "r" :: [identifier 7 "q"]))
    emptyCompilation
  = Some (InvalidExpression (Some (NaryExpression getErrorType [])) getErrorType,
          emptyCompilation).
Proof.
  apply (concatenation_stops_at_non_integral (H := Reference.collaborators) scopeMixed
           [identifier 1 "a"] (identifier 4 "r") [identifier 7 "q"] emptyCompilation
           [variableRef "a" (logicVector 8)] emptyCompilation
           (variableRef "r" getRealType) emptyCompilation
           eq_refl eq_refl eq_refl eq_refl).
Defined.

Import PackageScenarios.

(** ** Selects on a good base *)

(** On a base of integral type, a bit select binds to a select node of
    width 1 and an indexed select [base +: n] or [base -: n], with [n] a
    constant in the range of [int], to a select node of width [n]; both
    inherit signedness and four-state flag from the base and add no
    diagnostic.  The start index of an indexed select is not evaluated. *)
Theorem element_select_width :
  forall (collab : Collaborators) scope base c e c1 w sg fs lb lbs,
    bindAndPropagate scope base c = Some (e, c1) ->
    Expr.type e = IntegralTypeSymbol w sg fs (lb :: lbs) ->
    (forall index i c2,
        bindAndPropagate scope index c1 = Some (i, c2) ->
        bindExpression scope (ElementSelectExpressionSyntax base (BitSelectSyntax index)) c
        = Some (SelectExpression (getType 1 sg fs) BitSelect e i i, c2))
    /\ (forall k l r le c2 re c3 n,
           k = AscendingRangeSelect \/ k = DescendingRangeSelect ->
           bindAndPropagate scope l c1 = Some (le, c2) ->
           bindAndPropagate scope r c2 = Some (re, c3) ->
           eval re = Some n ->
           fits_int n ->
           bindExpression scope
             (ElementSelectExpressionSyntax base (RangeSelectSyntax k l r)) c
           = Some (SelectExpression (getType n sg fs) k e le re, c3)).
Proof.
  intros collab scope base c e c1 w sg fs lb lbs B T. split.
  - intros index i c2 Bi.
    change (bindExpression scope
              (ElementSelectExpressionSyntax base (BitSelectSyntax index)))
      with (bindSelectExpression (bindAndPropagate scope) base (BitSelectSyntax index)).
    unfold bindSelectExpression. rewrite (bind_run _ B).
    exact (bindSelectExpression3_bit _ _ _ _ _ _ _ T _ _ _ _ Bi).
  - intros k l r le c2 re c3 n K Bl Br E F.
    change (bindExpression scope
              (ElementSelectExpressionSyntax base (RangeSelectSyntax k l r)))
      with (bindSelectExpression (bindAndPropagate scope) base (RangeSelectSyntax k l r)).
    unfold bindSelectExpression. rewrite (bind_run _ B).
    exact (bindSelectExpression3_indexed _ _ _ _ _ _ _ T _ _ _ _ _ _ _ _ _ K Bl Br E F).
Qed.

(** [v[4 +: 8]] on [v: logic[15:0]]. *)
Lemma element_select_width_witness :
  bindExpression (H := Reference.collaborators) scopeS6 exprIndexedSelect emptyCompilation
  = Some (SelectExpression (getType 8 false true) AscendingRangeSelect
            (variableRef "v" (logicVector 16)) (boundInteger 4) (boundInteger 8),
          emptyCompilation).
Proof.
  destruct (element_select_width Reference.collaborators scopeS6 (identifier 0 "v")
              emptyCompilation (variableRef "v" (logicVector 16)) emptyCompilation
              16 false true 0 [] eq_refl eq_refl) as [_ Indexed].
  apply (Indexed AscendingRangeSelect (integerLiteral 2 4) (integerLiteral 4 8)
           (boundInteger 4) emptyCompilation (boundInteger 8) emptyCompilation 8
           (or_introl eq_refl) eq_refl eq_refl eq_refl).
  unfold fits_int, INT_MIN, INT_MAX. cbn. lia.
Defined.

(** ** Identifier selects and scoped names *)

(** [id[selector]] with an identifier the scope does not find binds to an
    [Invalid] node wrapping the invalid name, with the one
    [UndeclaredIdentifier] diagnostic; the selector is not bound. *)
Theorem identifier_select_undeclared :
  forall (collab : Collaborators) scope identifier selector c,
    getResultKind (lookup scope (valueText identifier) LNK_Default) <> Found ->
    bindExpression scope (IdentifierSelectNameSyntax identifier [Some selector]) c
    = Some (InvalidExpression (Some (InvalidExpression None getErrorType)) getErrorType,
            addError UndeclaredIdentifier (tok_location identifier)
                     [ArgText (valueText identifier)] c).
Proof.
  intros collab scope identifier selector c NF.
  change (bindExpression scope (IdentifierSelectNameSyntax identifier [Some selector]))
    with (bindSelectName (bindAndPropagate scope) scope identifier [Some selector]).
  unfold bindSelectName, bindSimpleName.
  destruct (getResultKind (lookup scope (valueText identifier) LNK_Default));
    [congruence| |]; reflexivity.
Qed.

Lemma identifier_select_undeclared_witness :
  bindExpression (H := Reference.collaborators) emptyScope
    (IdentifierSelectNameSyntax undeclaredZ [Some (BitSelectSyntax (identifier 2 "q"))])
    emptyCompilation
  = Some (InvalidExpression (Some (InvalidExpression None getErrorType)) getErrorType,
          afterUndeclaredZ).
Proof.
  apply (identifier_select_undeclared Reference.collaborators emptyScope undeclaredZ
           (BitSelectSyntax (identifier 2 "q")) emptyCompilation).
  discriminate.
Defined.

(** A scoped name [left sep right] is resolved in the package named by
    [left] and nowhere else: with a [::] separator, a non-empty simple
    name on the left and a package of that name, it binds like the name
    [right] in the scope of the package; when the package does not exist,
    or the left name is empty, or the separator is not [::], it binds to
    an [Invalid] node and no diagnostic is added. *)
Theorem scoped_name_resolution :
  forall (collab : Collaborators) scope leftToken separator right c,
    (forall package,
        tok_kind separator = TK_DoubleColon ->
        valueText leftToken <> "" ->
        findPackage scope (valueText leftToken) = Some package ->
        isNameKind (Syntax.kind right) = true ->
        bindExpression scope
          (ScopedNameSyntax (IdentifierNameSyntax leftToken) separator right) c
        = bindExpression package right c)
    /\ (tok_kind separator <> TK_DoubleColon
        \/ valueText leftToken = ""
        \/ findPackage scope (valueText leftToken) = None ->
        bindExpression scope
          (ScopedNameSyntax (IdentifierNameSyntax leftToken) separator right) c
        = Some (InvalidExpression None getErrorType, c)).
Proof.
  intros collab scope leftToken separator right c.
  change (bindExpression scope
            (ScopedNameSyntax (IdentifierNameSyntax leftToken) separator right))
    with (bindScopedName
            (fun package s =>
               if isNameKind (Syntax.kind s) then bindExpression package s else abort)
            scope (IdentifierNameSyntax leftToken) separator right).
  unfold bindScopedName. split.
  - intros package Sep NonEmpty Pkg Name. rewrite Sep, Pkg, Name.
    destruct (String.eqb_spec (valueText leftToken) ""); [contradiction|reflexivity].
  - intros [Sep|[Empty|NoPkg]].
    + destruct (tok_kind separator); try reflexivity. contradiction.
    + rewrite Empty. now destruct (tok_kind separator).
    + rewrite NoPkg. destruct (tok_kind separator); try reflexivity.
      now destruct (String.eqb (valueText leftToken) "").
Qed.

(** [p::w] is the [w] of the package, not the [w] of the current scope. *)
Lemma scoped_name_resolution_witness :
  bindExpression (H := Reference.collaborators) scopeWithPackage scopedW emptyCompilation
  = bindExpression (H := Reference.collaborators) packageP (identifier 3 "w")
      emptyCompilation
  /\ bindExpression (H := Reference.collaborators) scopeWithPackage scopedW
       emptyCompilation
     = Some (variableRef "w" (logicVector 8), emptyCompilation).
Proof.
  destruct (scoped_name_resolution Reference.collaborators scopeWithPackage
              (token TK_Identifier 0 "p") doubleColon (identifier 3 "w")
              emptyCompilation) as [Found _].
  split.
  - apply (Found packageP); try reflexivity. discriminate.
  - reflexivity.
Defined.

(** ** Assignment-like contexts that succeed *)

(** When an integral expression is bound where an integral destination
    type is expected and the types are assignment compatible, the result
    is the expression widened to the destination's width if that is
    larger, never narrowed: its width is the larger of the two, it keeps
    its own signedness and four-state flag, and no diagnostic is added. *)
Theorem assignment_like_context_widens :
  forall (collab : Collaborators),
    (forall e, Expr.type (propagateOwnType e) = Expr.type e) ->
    forall scope syntax location c expr c1 we se fe be wd sd fd bd,
      bindAndPropagate scope syntax c = Some (expr, c1) ->
      Expr.type expr = IntegralTypeSymbol we se fe be ->
      isAssignmentCompatible (IntegralTypeSymbol wd sd fd bd) (Expr.type expr) = true ->
      exists expr',
        bindAssignmentLikeContext scope syntax location (IntegralTypeSymbol wd sd fd bd) c
        = Some (expr', c1)
        /\ Expr.type expr'
           = (if we <? wd then getType wd se fe else IntegralTypeSymbol we se fe be)
        /\ TypeSymbol.width (Expr.type expr') = Z.max we wd
        /\ TypeSymbol.isSigned (Expr.type expr') = se
        /\ TypeSymbol.isFourState (Expr.type expr') = fe.
Proof.
  intros collab Own scope syntax location c expr c1 we se fe be wd sd fd bd B T Compat.
  unfold bindAssignmentLikeContext, bindAssignmentLikeContextWith.
  rewrite (bind_run _ B). unfold Expr.bad. rewrite Compat, T. cbn.
  unfold propagateAssignmentLike. rewrite T. cbn.
  destruct (Z.ltb_spec we wd) as [Lt|Ge]; cbn.
  - eexists. split; [reflexivity|].
    rewrite Own, type_set_type. cbn. repeat split. lia.
  - eexists. split; [reflexivity|].
    rewrite Own, T. cbn. repeat split. lia.
Qed.

(** [b: logic[3:0]] bound where an [int] is expected becomes 32 bits wide,
    still unsigned and four-state. *)
Lemma assignment_like_context_widens_witness :
  exists expr',
    bindAssignmentLikeContext (H := Reference.collaborators) scopeMixed
      (identifier 0 "b") 0 getIntType emptyCompilation
    = Some (expr', emptyCompilation)
    /\ Expr.type expr' = (if 4 <? 32 then getType 32 false true else logicVector 4)
    /\ TypeSymbol.width (Expr.type expr') = Z.max 4 32
    /\ TypeSymbol.isSigned (Expr.type expr') = false
    /\ TypeSymbol.isFourState (Expr.type expr') = true.
Proof.
  apply (assignment_like_context_widens Reference.collaborators
           reference_propagateType_own scopeMixed (identifier 0 "b") 0
           emptyCompilation (variableRef "b" (logicVector 4)) emptyCompilation
           4 false true [0] 32 true false [0] eq_refl eq_refl eq_refl).
Defined.

(** ** Calls that are accepted *)

Lemma bindArguments_length `{Collaborators} bindOne :
  forall actuals formals buffer c bound c',
    bindArguments bindOne actuals formals buffer c = Some (bound, c') ->
    List.length bound = (List.length buffer + List.length actuals)%nat.
Proof.
  induction actuals as [|[start argument] actuals IH];
    intros formals buffer c bound c' B.
  - cbn in B. inversion B; subst. cbn. lia.
  - cbn [bindArguments] in B. destruct formals as [|formal formals]; [discriminate|].
    apply bind_inv in B. destruct B as (arg & c1 & _ & B).
    apply IH in B. rewrite B, length_app. cbn. lia.
Qed.

(** A call with no more actual than formal arguments is never rejected
    for its argument count: once its arguments are bound, each in the
    assignment-like context of its formal, it binds to a call node of the
    subroutine's return type with exactly one bound argument per actual;
    missing trailing arguments are not reported. *)
Theorem call_binds_one_argument_per_actual :
  forall (collab : Collaborators) scope callee name actuals c subroutine formals
         returnType bound c',
    Syntax.getFirstToken callee = Some name ->
    getFoundSymbol (lookup scope (valueText name) LNK_Callable)
    = Some (SubroutineSymbol subroutine formals returnType) ->
    (List.length actuals <= List.length formals)%nat ->
    bindArguments (bindAndPropagate scope) actuals formals [] c = Some (bound, c') ->
    bindExpression scope (InvocationExpressionSyntax callee actuals) c
    = Some (CallExpression returnType subroutine bound, c')
    /\ List.length bound = List.length actuals.
Proof.
  intros collab scope callee name actuals c subroutine formals returnType bound c'
         N L Len B.
  split; [|exact (bindArguments_length _ _ _ _ _ _ _ B)].
  change (bindExpression scope (InvocationExpressionSyntax callee actuals))
    with (bindSubroutineCall (bindAndPropagate scope) scope callee actuals).
  unfold bindSubroutineCall. rewrite N, L.
  destruct (Nat.ltb_spec (List.length formals) (List.length actuals)); [lia|].
  now rewrite (bind_run _ B).
Qed.

(** [f(1)] for [f(int a, int b)]. *)
Lemma call_binds_one_argument_per_actual_witness :
  bindExpression (H := Reference.collaborators) scopeS5
    (InvocationExpressionSyntax calleeS5 argumentsShort) emptyCompilation
  = Some (CallExpression getIntType "f" [boundInteger 1], emptyCompilation)
  /\ List.length [boundInteger 1] = List.length argumentsShort.
Proof.
  apply (call_binds_one_argument_per_actual Reference.collaborators scopeS5 calleeS5
           (token TK_Identifier 0 "f") argumentsShort emptyCompilation "f"
           [ {| vs_name := "a"; vs_type := getIntType |};
             {| vs_name := "b"; vs_type := getIntType |} ] getIntType
           [boundInteger 1] emptyCompilation eq_refl eq_refl).
  - cbn. lia.
  - reflexivity.
Defined.

(** ** Invalid nodes and the error type *)

Lemma produces_ret {A} (R : A -> Prop) a : R a -> produces R (ret a).
Proof. intros Ra c x c' E. inversion E; subst. exact Ra. Qed.

Lemma produces_abort {A} (R : A -> Prop) : produces R abort.
Proof. intros c x c' E. discriminate E. Qed.

Lemma produces_bind {A B} (Rm : A -> Prop) (R : B -> Prop) (m : M A) (k : A -> M B) :
  produces Rm m -> (forall a, Rm a -> produces R (k a)) -> produces R (bind m k).
Proof.
  intros Hm Hk c b c' E. apply bind_inv in E. destruct E as (a & c1 & Em & Ek).
  exact (Hk a (Hm _ _ _ Em) _ _ _ Ek).
Qed.

Lemma produces_any {A} (m : M A) : produces (fun _ => True) m.
Proof. intros c a c' _. exact I. Qed.

Lemma wellFormed_invalid child : wellFormedResult (InvalidExpression child getErrorType).
Proof. split; intros _; [reflexivity|now left]. Qed.

Lemma wellFormed_typed e :
  Expr.isInvalid e = false -> Expr.bad e = false -> wellFormedResult e.
Proof. intros I B. split; intros E; congruence. Qed.

Lemma wellFormed_symbol e :
  Expr.isInvalid e = false -> typedBySymbol e = true -> wellFormedResult e.
Proof. intros I S. split; intros E; [congruence|now right]. Qed.

Section WellFormedResults.

Context `{Collaborators}.

Lemma produces_badExpr child : produces wellFormedResult (badExpr child).
Proof. apply produces_ret, wellFormed_invalid. Qed.

Lemma produces_check1 op loc e :
  produces (fun ok => ok = true -> Expr.bad e = false)
           (checkOperatorApplicability1 op loc e).
Proof.
  unfold checkOperatorApplicability1. destruct (Expr.bad e).
  - apply produces_ret. discriminate.
  - match goal with |- produces _ (if ?g then _ else _) => destruct g end.
    + now apply produces_ret.
    + apply produces_bind with (Rm := fun _ => True); [apply produces_any|].
      intros _ _. apply produces_ret. discriminate.
Qed.

Lemma produces_check2 op loc a b :
  produces (fun ok => ok = true -> Expr.bad a = false)
           (checkOperatorApplicability2 op loc a b).
Proof.
  unfold checkOperatorApplicability2. destruct (Expr.bad a); cbn [orb].
  - apply produces_ret. discriminate.
  - destruct (Expr.bad b).
    + now apply produces_ret.
    + match goal with |- produces _ (if ?g then _ else _) => destruct g end.
      * now apply produces_ret.
      * apply produces_bind with (Rm := fun _ => True); [apply produces_any|].
        intros _ _. now apply produces_ret.
Qed.

Variable bindOne : ExpressionSyntax -> M Expression.

Ltac operands :=
  repeat (apply produces_bind with (Rm := fun _ => True); [apply produces_any|];
          intros ? _).

Lemma produces_unary kind tok s :
  produces wellFormedResult (bindUnaryArithmeticOperator bindOne kind tok s)
  /\ produces wellFormedResult (bindUnaryReductionOperator bindOne kind tok s).
Proof.
  split; unfold bindUnaryArithmeticOperator, bindUnaryReductionOperator.
  - apply produces_bind with (Rm := fun _ => True); [apply produces_any|].
    intros operand _.
    apply produces_bind with (Rm := fun ok => ok = true -> Expr.bad operand = false);
      [apply produces_check1|].
    intros [|] Ok; cbn [negb]; [|apply produces_badExpr].
    apply produces_ret, wellFormed_typed; [reflexivity|now apply Ok].
  - operands. destruct (negb _); [apply produces_badExpr|].
    now apply produces_ret, wellFormed_typed.
Qed.

Lemma produces_binary kind l tok r :
  produces wellFormedResult (bindArithmeticOperator bindOne kind l tok r)
  /\ produces wellFormedResult (bindComparisonOperator bindOne kind l tok r)
  /\ produces wellFormedResult (bindRelationalOperator bindOne kind l tok r)
  /\ produces wellFormedResult (bindShiftOrPowerOperator bindOne kind l tok r)
  /\ produces wellFormedResult (bindAssignmentOperator bindOne kind l tok r).
Proof.
  split; [|split; [|split; [|split]]];
    unfold bindArithmeticOperator, bindComparisonOperator, bindRelationalOperator,
      bindShiftOrPowerOperator, bindAssignmentOperator.
  - operands. destruct (negb _); [apply produces_badExpr|].
    apply produces_ret, wellFormed_typed; [reflexivity|].
    apply binaryOperatorResultType_not_error.
  - operands. destruct (negb _); [apply produces_badExpr|].
    now apply produces_ret, wellFormed_typed.
  - operands. destruct (negb _); [apply produces_badExpr|].
    destruct (propagateAssignmentLike _ _). now apply produces_ret, wellFormed_typed.
  - operands. destruct (negb _); [apply produces_badExpr|].
    apply produces_ret, wellFormed_typed; [reflexivity|].
    apply binaryOperatorResultType_not_error.
  - apply produces_bind with (Rm := fun _ => True); [apply produces_any|].
    intros lhs _.
    apply produces_bind with (Rm := fun _ => True); [apply produces_any|].
    intros rhs _.
    destruct (assignmentBinopKind kind); [|apply produces_abort].
    apply produces_bind with (Rm := fun ok => ok = true -> Expr.bad lhs = false);
      [apply produces_check2|].
    intros [|] Ok; cbn [negb]; [|apply produces_badExpr].
    apply produces_ret, wellFormed_typed; [reflexivity|now apply Ok].
Qed.

Lemma produces_call scope callee actuals :
  produces wellFormedResult (bindSubroutineCall bindOne scope callee actuals).
Proof.
  unfold bindSubroutineCall.
  destruct (Syntax.getFirstToken callee); [|apply produces_abort].
  destruct (getFoundSymbol _) as [[| | |subroutine formals returnType|]|];
    try apply produces_abort.
  destruct (_ <? _)%nat.
  - operands. apply produces_badExpr.
  - operands. now apply produces_ret, wellFormed_symbol.
Qed.

Lemma produces_conditional conditions l r :
  produces wellFormedResult (bindConditionalExpression bindOne conditions l r).
Proof.
  unfold bindConditionalExpression.
  destruct conditions as [|p [|q rest]]; try apply produces_abort.
  operands. apply produces_ret, wellFormed_typed; [reflexivity|].
  apply binaryOperatorResultType_not_error.
Qed.

Lemma produces_concatenation :
  forall expressions buffer totalWidth,
    produces wellFormedResult
             (bindConcatenationElements bindOne expressions buffer totalWidth).
Proof.
  induction expressions as [|s rest IH]; intros buffer totalWidth.
  - now apply produces_ret, wellFormed_typed.
  - cbn [bindConcatenationElements]. operands.
    destruct (negb _); [apply produces_badExpr|apply IH].
Qed.

Lemma produces_replication count body :
  produces wellFormedResult (bindMultipleConcatenationExpression bindOne count body).
Proof.
  unfold bindMultipleConcatenationExpression. operands.
  now apply produces_ret, wellFormed_typed.
Qed.

Lemma produces_select base selector :
  produces wellFormedResult (bindSelectExpression3 bindOne base selector).
Proof.
  unfold bindSelectExpression3.
  destruct (Expr.bad base); [apply produces_badExpr|].
  destruct (Expr.type base) as [w sg fs [|lb lbs]| | |]; try apply produces_abort.
  destruct selector as [e|kind l r].
  - operands. now apply produces_ret, wellFormed_typed.
  - destruct kind; try apply produces_abort; operands;
      now apply produces_ret, wellFormed_typed.
Qed.

End WellFormedResults.

Section WellFormedBinding.

Context `{Collaborators}.

Lemma bindExpression_wellFormed :
  forall syntax scope, produces wellFormedResult (bindExpression scope syntax).
Proof.
  apply (@syntax_induction
           (fun s => forall scope, produces wellFormedResult (bindExpression scope s))
           (fun _ => True)); try (intros; exact I).
  - intros kind literal scope. cbn [bindExpression].
    destruct kind;
      first [ apply produces_abort | apply produces_badExpr
            | now apply produces_ret, wellFormed_typed ].
  - intros value scope. cbn [bindExpression]. unfold bindLiteralVector.
    destruct (isMissing value); [apply produces_badExpr|].
    now apply produces_ret, wellFormed_typed.
  - intros identifier scope. cbn [bindExpression]. unfold bindSimpleName.
    destruct (getResultKind _).
    + destruct (getFoundSymbol _) as [[v|v|v|subroutine formals returnType|name]|];
        try apply produces_abort; now apply produces_ret, wellFormed_symbol.
    + apply produces_bind with (Rm := fun _ => True); [apply produces_any|].
      intros _ _. apply produces_badExpr.
    + apply produces_bind with (Rm := fun _ => True); [apply produces_any|].
      intros _ _. apply produces_badExpr.
  - intros identifier selectors _ scope.
    change (bindExpression scope (IdentifierSelectNameSyntax identifier selectors))
      with (bindSelectName (bindAndPropagate scope) scope identifier selectors).
    unfold bindSelectName.
    destruct selectors as [|[selector|] [|other rest]]; try apply produces_abort.
    apply produces_bind with (Rm := fun _ => True); [apply produces_any|].
    intros base _. apply produces_select.
  - intros l separator r IHl IHr scope.
    change (bindExpression scope (ScopedNameSyntax l separator r))
      with (bindScopedName
              (fun package s =>
                 if isNameKind (Syntax.kind s) then bindExpression package s else abort)
              scope l separator r).
    unfold bindScopedName.
    destruct (tok_kind separator); try apply produces_badExpr.
    destruct l; try apply produces_badExpr.
    destruct (String.eqb _ _); [apply produces_badExpr|].
    destruct (findPackage _ _); [|apply produces_badExpr].
    destruct (isNameKind _); [apply IHr|apply produces_abort].
  - intros e IH scope. apply IH.
  - intros kind tok operand _ scope.
    destruct (produces_unary (bindAndPropagate scope) kind tok operand) as [A R].
    cbn [bindExpression]. destruct kind; first [exact A | exact R | apply produces_abort].
  - intros kind l tok r _ _ scope.
    destruct (produces_binary (bindAndPropagate scope) kind l tok r)
      as (A1 & A2 & A3 & A4 & A5).
    cbn [bindExpression].
    destruct kind;
      first [exact A1 | exact A2 | exact A3 | exact A4 | exact A5
             | apply produces_abort].
  - intros callee parameters _ _ scope. apply produces_call.
  - intros conditions l r _ _ _ scope. apply produces_conditional.
  - intros expressions _ scope. apply produces_concatenation.
  - intros count body _ _ scope. apply produces_replication.
  - intros base selector _ _ scope.
    change (bindExpression scope (ElementSelectExpressionSyntax base selector))
      with (bindSelectExpression (bindAndPropagate scope) base selector).
    unfold bindSelectExpression.
    apply produces_bind with (Rm := fun _ => True); [apply produces_any|].
    intros e _. apply produces_select.
Qed.

(** Every node [bindExpression] returns is well formed with respect to the
    error type: an [Invalid] node has type [Error], and a node of type
    [Error] is an [Invalid] node, unless it is a reference or a call, whose
    type is the one declared for the symbol. *)
Theorem invalid_nodes_and_error_type :
  forall scope syntax c e c',
    bindExpression scope syntax c = Some (e, c') ->
    (Expr.isInvalid e = true -> Expr.type e = getErrorType)
    /\ (Expr.bad e = true -> Expr.isInvalid e = true \/ typedBySymbol e = true).
Proof.
  intros scope syntax c e c' B.
  exact (bindExpression_wellFormed syntax scope c e c' B).
Qed.

End WellFormedBinding.

Lemma invalid_nodes_and_error_type_witness :
  (Expr.isInvalid (InvalidExpression None getErrorType) = true ->
   Expr.type (InvalidExpression None getErrorType) = getErrorType)
  /\ (Expr.bad (InvalidExpression None getErrorType) = true ->
      Expr.isInvalid (InvalidExpression None getErrorType) = true
      \/ typedBySymbol (InvalidExpression None getErrorType) = true).
Proof.
  apply (invalid_nodes_and_error_type (H := Reference.collaborators) emptyScope
           (identifier 0 "z") emptyCompilation (InvalidExpression None getErrorType)
           afterUndeclaredZ).
  reflexivity.
Defined.

(** * Laws of the statement binder *)

Import StatementScenarios.

Section Statements.

Context `{Collaborators}.

Variable scope : StatementScope.

(** A return statement outside of any subroutine binds to an [Invalid]
    statement with exactly one diagnostic, [ReturnNotInSubroutine], at the
    [return] keyword; its value, if any, is not bound. *)
Theorem return_outside_subroutine :
  forall returnKeyword returnValue c,
    findAncestor scope SK_Subroutine = None ->
    bindStatement scope (ReturnStatementSyntax returnKeyword returnValue) c
    = Some (InvalidStatement None,
            addError ReturnNotInSubroutine (tok_location returnKeyword) [] c).
Proof.
  intros returnKeyword returnValue c NoSub. cbn [bindStatement].
  unfold bindReturnStatement. now rewrite NoSub.
Qed.

(** Inside a subroutine, a returned value whose type is not assignment
    compatible with the declared return type still gives a return
    statement, around an [Invalid] expression that wraps the bound value;
    the one diagnostic ([NoImplicitConversion] or [BadAssignment]) is
    placed at the [return] keyword and names the value's syntax. *)
Theorem return_incompatible_value :
  forall returnKeyword value c subroutine formals returnType expr c1,
    findAncestor scope SK_Subroutine
    = Some (SubroutineSymbol subroutine formals returnType) ->
    bindAndPropagate (expressionScope scope) value c = Some (expr, c1) ->
    Expr.bad expr = false ->
    isAssignmentCompatible returnType (Expr.type expr) = false ->
    bindStatement scope (ReturnStatementSyntax returnKeyword (Some value)) c
    = Some (ReturnStatement (InvalidExpression (Some expr) getErrorType),
            addError (if isCastCompatible returnType (Expr.type expr)
                      then NoImplicitConversion else BadAssignment)
                     (tok_location returnKeyword) [ArgRange value] c1).
Proof.
  intros returnKeyword value c subroutine formals returnType expr c1 Sub B NB NA.
  cbn [bindStatement]. unfold bindReturnStatement. rewrite Sub.
  unfold bindAssignmentLikeContext, bindAssignmentLikeContextWith.
  unfold bind at 1. unfold bind at 1. rewrite B, NB, NA. reflexivity.
Qed.

Lemma declareVariables_spec :
  forall symbols buffer,
    declareVariables symbols buffer
    = buffer ++ map VariableDeclStatement (variablesOf symbols).
Proof.
  induction symbols as [|m ms IH]; intros buffer.
  - cbn. now rewrite app_nil_r.
  - destruct m; cbn [declareVariables variablesOf flat_map app map];
      fold (variablesOf ms); rewrite IH; [now rewrite <- app_assoc|..]; reflexivity.
Qed.

Lemma bindItems_spec :
  forall items buffer c stmts c',
    bindEach (bindStatement scope) (statementsOf items) c = Some (stmts, c') ->
    bindItems scope items buffer c = Some (buffer ++ stmts, c').
Proof.
  induction items as [|item items IH]; intros buffer c stmts c' B.
  - cbn in B. inversion B; subst. cbn. now rewrite app_nil_r.
  - destruct item as [syntax|kind]; cbn [bindItems isStatement].
    + cbn [statementsOf flat_map app] in B. fold (statementsOf items) in B.
      cbn [bindEach] in B.
      apply bind_inv in B. destruct B as (stmt & c1 & Bs & B).
      apply bind_inv in B. destruct B as (rest & c2 & Br & B).
      inversion B; subst; clear B.
      rewrite (bind_run _ Bs). rewrite (IH _ _ _ _ Br).
      now rewrite <- app_assoc.
    + apply IH. exact B.
Qed.

(** A statement list starts with one declaration statement for every
    member of the scope that is a variable, in declaration order, whatever
    the items are; the bound statements of the items that are statements
    follow, in order, and the other items are skipped.  The prologue adds
    no diagnostic. *)
Theorem statement_list_prologue :
  forall items c stmts c',
    bindEach (bindStatement scope) (statementsOf items) c = Some (stmts, c') ->
    bindStatementList scope items c
    = Some (StatementList
              (map VariableDeclStatement (variablesOf (members scope)) ++ stmts), c')
    /\ List.length (map VariableDeclStatement (variablesOf (members scope)) ++ stmts)
       = (List.length (variablesOf (members scope))
          + List.length (statementsOf items))%nat.
Proof.
  intros items c stmts c' B. split.
  - unfold bindStatementList. rewrite declareVariables_spec. cbn [app].
    now rewrite (bind_run _ (bindItems_spec items _ c stmts c' B)).
  - rewrite length_app, length_map. f_equal.
    clear - B. revert c stmts c' B.
    induction (statementsOf items) as [|s rest IH]; intros c stmts c' B.
    + cbn in B. now inversion B.
    + cbn [bindEach] in B.
      apply bind_inv in B. destruct B as (stmt & c1 & _ & B).
      apply bind_inv in B. destruct B as (more & c2 & Br & B).
      inversion B; subst. cbn. f_equal. exact (IH _ _ _ Br).
Qed.

End Statements.

Lemma return_outside_subroutine_witness :
  bindStatement (H := Reference.collaborators) scopeInModule
    (ReturnStatementSyntax (returnKeywordAt 7) (Some (identifier 14 "b")))
    emptyCompilation
  = Some (InvalidStatement None,
          addError ReturnNotInSubroutine 7 [] emptyCompilation).
Proof.
  apply (return_outside_subroutine (H := Reference.collaborators) scopeInModule
           (returnKeywordAt 7) (Some (identifier 14 "b")) emptyCompilation eq_refl).
Defined.

(** [return s;] with [s] a string, in a function returning [int]. *)
Lemma return_incompatible_value_witness :
  bindStatement (H := Reference.collaborators) scopeInG
    (ReturnStatementSyntax (returnKeywordAt 7) (Some (identifier 14 "s")))
    emptyCompilation
  = Some (ReturnStatement
            (InvalidExpression (Some (variableRef "s" (OtherTypeSymbol "string")))
                               getErrorType),
          addError NoImplicitConversion 7 [ArgRange (identifier 14 "s")]
                   emptyCompilation).
Proof.
  apply (return_incompatible_value (H := Reference.collaborators) scopeInG
           (returnKeywordAt 7) (identifier 14 "s") emptyCompilation "g" [] getIntType
           (variableRef "s" (OtherTypeSymbol "string")) emptyCompilation
           eq_refl eq_refl eq_refl eq_refl).
Defined.

(** In the body of [g], the list of a declaration, a for loop and
    [return b;] has the two variable declarations in front. *)
Lemma statement_list_prologue_witness :
  exists stmts,
    bindStatementList (H := Reference.collaborators) scopeInG
      [OtherNode Unknown;
       StatementNode (ForLoopStatementSyntax (identifier 0 "b")
                        (ExpressionStatementSyntax (identifier 0 "b")));
       StatementNode (ReturnStatementSyntax (returnKeywordAt 7)
                        (Some (identifier 14 "b")))]
      emptyCompilation
    = Some (StatementList
              (map VariableDeclStatement (variablesOf (members scopeInG)) ++ stmts),
            emptyCompilation)
    /\ List.length (map VariableDeclStatement (variablesOf (members scopeInG)) ++ stmts)
       = (2 + 2)%nat.
Proof.
  eexists.
  apply (statement_list_prologue (H := Reference.collaborators) scopeInG
           [OtherNode Unknown;
            StatementNode (ForLoopStatementSyntax (identifier 0 "b")
                             (ExpressionStatementSyntax (identifier 0 "b")));
            StatementNode (ReturnStatementSyntax (returnKeywordAt 7)
                             (Some (identifier 14 "b")))]
           emptyCompilation _ emptyCompilation).
  vm_compute. reflexivity.
Defined.

(** * Laws of the command line *)

Section StringViews.

Local Open Scope nat_scope.

Lemma compare_refl (s : string) : String.compare s s = Eq.
Proof.
  pose proof (String.compare_antisym s s) as A.
  destruct (String.compare s s); [reflexivity|discriminate A|discriminate A].
Qed.

Lemma try_emplace_again key option :
  forall m m',
    CommandLine.try_emplace key option m = (m', true) ->
    forall option', CommandLine.try_emplace key option' m' = (m', false).
Proof.
  induction m as [|[k o] rest IH]; intros m' E option'.
  - cbn in E. inversion E; subst. cbn. now rewrite compare_refl.
  - cbn [CommandLine.try_emplace] in E.
    destruct (String.compare key k) eqn:C.
    + discriminate E.
    + inversion E; subst. cbn. now rewrite compare_refl.
    + destruct (CommandLine.try_emplace key option rest) as [rest' inserted] eqn:R.
      inversion E; subst. cbn [CommandLine.try_emplace]. rewrite C.
      now rewrite (IH rest' eq_refl option').
Qed.

Lemma find_first_of_comma name :
  forall index,
    CommandLine.find_first_of ","%char name = Some index ->
    exists rest,
      CommandLine.substr (index + 1) name = Some rest
      /\ CommandLine.commas name = S (CommandLine.commas rest).
Proof.
  induction name as [|c name IH]; intros index F; [discriminate F|].
  cbn [CommandLine.find_first_of] in F. cbn [CommandLine.commas].
  destruct (Ascii.eqb c ","%char).
  - inversion F; subst. exists name. split; reflexivity.
  - destruct (CommandLine.find_first_of ","%char name) as [i|]; [|discriminate F].
    inversion F; subst. destruct (IH i eq_refl) as (rest & Sub & Cm).
    exists rest. split; [exact Sub|exact Cm].
Qed.

Lemma substr_one_nonempty name curr :
  CommandLine.substr 1 name = Some curr -> CommandLine.empty name = false.
Proof. destruct name; [discriminate|reflexivity]. Qed.

Lemma addLoop_throws :
  forall fuel name option m,
    CommandLine.empty name = false ->
    CommandLine.commas name + 2 <= fuel ->
    exists e m', CommandLine.addLoop fuel name option m = (CommandLine.Threw e, m').
Proof.
  induction fuel as [|fuel IH]; intros name option m NonEmpty Fuel; [lia|].
  cbn [CommandLine.addLoop]. rewrite NonEmpty.
  destruct (CommandLine.find_first_of ","%char name) as [index|] eqn:F.
  - destruct (find_first_of_comma name index F) as (rest & Sub & Cm). rewrite Sub.
    destruct (CommandLine.empty (CommandLine.prefix index name)
              || negb (CommandLine.startsWith "-"%char (CommandLine.prefix index name)));
      [now eexists; eexists|].
    destruct (CommandLine.substr 1 rest) as [curr|] eqn:S1; [|now eexists; eexists].
    destruct (CommandLine.empty curr); [now eexists; eexists|].
    destruct (CommandLine.try_emplace _ option m) as [m' [|]]; cbn [negb];
      [|now eexists; eexists].
    apply IH; [exact (substr_one_nonempty rest curr S1)|lia].
  - destruct (CommandLine.empty name || negb (CommandLine.startsWith "-"%char name))
      eqn:Dash; [now eexists; eexists|].
    destruct (CommandLine.substr 1 name) as [curr|] eqn:S1; [|now eexists; eexists].
    destruct (CommandLine.empty curr) eqn:EmptyCurr; [now eexists; eexists|].
    destruct (CommandLine.try_emplace _ option m) as [m' [|]] eqn:Emplace; cbn [negb];
      [|now eexists; eexists].
    destruct fuel as [|fuel]; [lia|].
    cbn [CommandLine.addLoop]. rewrite NonEmpty, F, Dash, S1, EmptyCurr.
    rewrite (try_emplace_again _ option m m' Emplace option). cbn [negb].
    now eexists; eexists.
Qed.

End StringViews.

(** Registering an option never succeeds: whatever the name, the kind of
    option and the options registered so far, [CommandLine::add] leaves by
    an exception.  (The loop over the comma-separated names takes the
    option name from the not yet consumed rest of the names, and never
    consumes the last name.) *)
Theorem add_always_throws :
  forall name storage desc valueName optionMap,
    exists e optionMap',
      CommandLine.add name storage desc valueName optionMap
      = (CommandLine.Threw e, optionMap').
Proof.
  intros name storage desc valueName optionMap.
  assert (Internal : forall valueName',
             exists e optionMap',
               CommandLine.addInternal name storage desc valueName' optionMap
               = (CommandLine.Threw e, optionMap')).
  { intros valueName'. unfold CommandLine.addInternal.
    destruct (CommandLine.empty name) eqn:E; [now eexists; eexists|].
    apply addLoop_throws; [exact E|].
    assert (L : forall s, (CommandLine.commas s <= String.length s)%nat).
    { induction s as [|c s IHs]; cbn; [lia|]. destruct (Ascii.eqb c ","%char); lia. }
    specialize (L name). lia. }
  unfold CommandLine.add. destruct storage as [[]|[]]; apply Internal.
Qed.

Import CommandLineScenarios.

Section Registration.

Local Open Scope nat_scope.

Lemma try_emplace_absent key option :
  forall m,
    CommandLine.find key m = None ->
    exists m',
      CommandLine.try_emplace key option m = (m', true)
      /\ CommandLine.find key m' = Some option.
Proof.
  induction m as [|[k o] rest IH]; intros Absent.
  - eexists. split; [reflexivity|]. cbn. now rewrite String.eqb_refl.
  - cbn [CommandLine.find] in Absent.
    destruct (String.eqb_spec key k) as [E|NE]; [discriminate Absent|].
    cbn [CommandLine.try_emplace].
    destruct (String.compare key k) eqn:C.
    + apply String.compare_eq_iff in C. contradiction.
    + eexists. split; [reflexivity|]. cbn. now rewrite String.eqb_refl.
    + destruct (IH Absent) as (rest' & E & F). rewrite E.
      eexists. split; [reflexivity|]. cbn [CommandLine.find].
      destruct (String.eqb_spec key k); [contradiction|exact F].
Qed.

(** For a single name [-key] or [--key], with [key] not registered yet,
    [addInternal] registers the option under [key] and then throws
    "Argument with name 'key' already exists": the registration stays in
    the map although the call fails. *)
Theorem add_registers_before_throwing :
  forall rest storage desc valueName optionMap key,
    CommandLine.find_first_of ","%char (String "-"%char rest) = None ->
    CommandLine.empty rest = false ->
    key = (if CommandLine.startsWith "-"%char rest
           then match rest with String _ tail => tail | EmptyString => rest end
           else rest) ->
    CommandLine.find key optionMap = None ->
    exists optionMap',
      CommandLine.addInternal (String "-"%char rest) storage desc valueName optionMap
      = (CommandLine.Threw (CommandLine.alreadyExists key), optionMap')
      /\ CommandLine.find key optionMap'
         = Some {| CommandLine.desc := desc; CommandLine.valueName := valueName;
                   CommandLine.storage := storage |}.
Proof.
  intros rest storage desc valueName optionMap key NoComma NonEmpty Key Absent.
  set (option := {| CommandLine.desc := desc; CommandLine.valueName := valueName;
                    CommandLine.storage := storage |}).
  destruct (try_emplace_absent key option optionMap Absent) as (m' & Emplace & Found).
  exists m'. split; [|exact Found].
  unfold CommandLine.addInternal. fold option. cbn [CommandLine.empty].
  replace (String.length (String "-"%char rest) + 2)
    with (S (S (S (String.length rest)))) by (cbn [String.length]; lia).
  assert (Step : forall fuel m,
             CommandLine.addLoop (S fuel) (String "-"%char rest) option m
             = let '(m1, inserted) := CommandLine.try_emplace key option m in
               if negb inserted then (CommandLine.Threw (CommandLine.alreadyExists key), m1)
               else CommandLine.addLoop fuel (String "-"%char rest) option m1).
  { intros fuel m. cbn [CommandLine.addLoop CommandLine.empty]. rewrite NoComma.
    cbn [CommandLine.startsWith CommandLine.empty CommandLine.substr orb negb].
    rewrite Ascii.eqb_refl. cbn [negb]. rewrite NonEmpty. subst key.
    destruct rest as [|c tail]; [discriminate NonEmpty|].
    cbn [CommandLine.startsWith CommandLine.substr]. reflexivity. }
  rewrite Step, Emplace. cbn [negb]. rewrite Step.
  now rewrite (try_emplace_again key option optionMap m' Emplace option).
Qed.

End Registration.

(** [add("--verbose", ...)] on an empty command line. *)
Lemma add_registers_before_throwing_witness :
  exists optionMap',
    CommandLine.addInternal "--verbose" (CommandLine.OptionalStorage CommandLine.VBool)
      "verbose" "" []
    = (CommandLine.Threw (CommandLine.alreadyExists "verbose"), optionMap')
    /\ CommandLine.find "verbose" optionMap' = Some flagOption.
Proof.
  apply (add_registers_before_throwing "-verbose"
           (CommandLine.OptionalStorage CommandLine.VBool) "verbose" "" [] "verbose"
           eq_refl eq_refl eq_refl eq_refl).
Defined.

(** ** Splitting an argument string *)

Section SplittingLaws.

Variable isWhitespace : ascii -> bool.

Local Notation splitLoop := (CommandLine.splitLoop isWhitespace).
Local Notation splitArguments := (CommandLine.splitArguments isWhitespace).
Local Notation plain := (CommandLine.plain isWhitespace).

Lemma append_push_back (a : string) c b :
  (CommandLine.push_back a c ++ b)%string = (a ++ String c b)%string.
Proof.
  unfold CommandLine.push_back. induction a as [|x a IH]; cbn; [reflexivity|].
  now rewrite IH.
Qed.

Lemma append_empty_r (a : string) : (a ++ "")%string = a.
Proof. induction a as [|x a IH]; cbn; [reflexivity|now rewrite IH]. Qed.

Lemma empty_push_back a c : CommandLine.empty (CommandLine.push_back a c) = false.
Proof. now destruct a. Qed.

Lemma empty_append a b :
  CommandLine.empty (a ++ b)%string = CommandLine.empty a && CommandLine.empty b.
Proof. now destruct a. Qed.

(** No argument of the result is empty. *)
Lemma splitLoop_nonEmpty :
  forall n chars,
    (String.length chars <= n)%nat ->
    forall quoting current storage result,
      splitLoop quoting chars current storage = Some result ->
      Forall (fun a => CommandLine.empty a = false) storage ->
      Forall (fun a => CommandLine.empty a = false) result.
Proof.
  induction n as [|n IH]; intros chars Len quoting current storage result.
  - destruct chars; [|cbn in Len; lia].
    cbn. destruct quoting; try discriminate.
    destruct (CommandLine.empty current) eqn:E; intros R All; inversion R; subst;
      [exact All|]. apply Forall_app. split; [exact All|]. now constructor.
  - destruct chars as [|ch rest].
    + cbn. destruct quoting; try discriminate.
      destruct (CommandLine.empty current) eqn:E; intros R All; inversion R; subst;
        [exact All|]. apply Forall_app. split; [exact All|]. now constructor.
    + cbn [String.length] in Len.
      assert (Lrest : (String.length rest <= n)%nat) by lia.
      cbn [CommandLine.splitLoop]. destruct quoting.
      * destruct (isWhitespace ch).
        -- destruct (CommandLine.empty current) eqn:E; intros R All.
           ++ exact (IH rest Lrest _ _ _ _ R All).
           ++ apply (IH rest Lrest _ _ _ _ R).
              apply Forall_app. split; [exact All|]. now constructor.
        -- destruct (Ascii.eqb ch CommandLine.backslash).
           ++ destruct rest as [|escaped rest']; [discriminate|].
              intros R All. cbn [String.length] in Lrest.
              apply (IH rest' ltac:(lia) _ _ _ _ R All).
           ++ destruct (Ascii.eqb ch CommandLine.singleQuote);
                [|destruct (Ascii.eqb ch CommandLine.doubleQuote)];
                intros R All; exact (IH rest Lrest _ _ _ _ R All).
      * destruct (Ascii.eqb ch CommandLine.singleQuote);
          intros R All; exact (IH rest Lrest _ _ _ _ R All).
      * destruct (Ascii.eqb ch CommandLine.doubleQuote);
          [intros R All; exact (IH rest Lrest _ _ _ _ R All)|].
        destruct rest as [|next rest'];
          [intros R All; exact (IH _ Lrest _ _ _ _ R All)|].
        destruct (Ascii.eqb ch CommandLine.backslash
                  && (Ascii.eqb next CommandLine.backslash
                      || Ascii.eqb next CommandLine.doubleQuote));
          intros R All.
        -- cbn [String.length] in Lrest. exact (IH rest' ltac:(lia) _ _ _ _ R All).
        -- exact (IH _ Lrest _ _ _ _ R All).
Qed.

(** Splitting never yields an empty argument: an argument made of
    nothing but quotes (['']) disappears. *)
Theorem split_arguments_are_not_empty :
  forall argList args,
    splitArguments argList = Some args ->
    Forall (fun a => CommandLine.empty a = false) args.
Proof.
  intros argList args S.
  exact (splitLoop_nonEmpty (String.length argList) argList (Nat.le_refl _)
           CommandLine.Unquoted EmptyString [] args S (Forall_nil _)).
Qed.

Lemma plainChar_inv ch :
  CommandLine.plainChar isWhitespace ch = true ->
  isWhitespace ch = false
  /\ Ascii.eqb ch CommandLine.backslash = false
  /\ Ascii.eqb ch CommandLine.singleQuote = false
  /\ Ascii.eqb ch CommandLine.doubleQuote = false.
Proof.
  unfold CommandLine.plainChar. intros P.
  repeat (apply andb_true_iff in P; destruct P as [P ?]).
  repeat split; now apply negb_true_iff.
Qed.

(** Plain characters are copied to the pending argument. *)
Lemma splitLoop_plain :
  forall word rest current storage,
    plain word = true ->
    splitLoop CommandLine.Unquoted (word ++ rest)%string current storage
    = splitLoop CommandLine.Unquoted rest (current ++ word)%string storage.
Proof.
  induction word as [|ch word IH]; intros rest current storage P.
  - cbn. now rewrite append_empty_r.
  - cbn [CommandLine.plain] in P. apply andb_true_iff in P. destruct P as [Pc Pw].
    destruct (plainChar_inv ch Pc) as (W & B & S & D).
    cbn [String.append CommandLine.splitLoop]. rewrite W, B, S, D.
    rewrite (IH rest _ storage Pw). now rewrite append_push_back.
Qed.

Lemma splitLoop_join sep :
  isWhitespace sep = true ->
  forall words storage,
    Forall (fun w => CommandLine.plainWord isWhitespace w = true) words ->
    splitLoop CommandLine.Unquoted (CommandLine.join sep words) EmptyString storage
    = Some (storage ++ words).
Proof.
  intros Sep. induction words as [|w words IH]; intros storage All.
  - cbn. now rewrite app_nil_r.
  - inversion All as [|x xs Pw Pws]; subst.
    unfold CommandLine.plainWord in Pw. apply andb_true_iff in Pw.
    destruct Pw as [NonEmpty Plain]. apply negb_true_iff in NonEmpty.
    destruct words as [|w2 words].
    + cbn [CommandLine.join]. rewrite <- (append_empty_r w) at 1.
      rewrite (splitLoop_plain w EmptyString EmptyString storage Plain).
      cbn. now rewrite NonEmpty.
    + change (CommandLine.join sep (w :: w2 :: words))
        with (w ++ String sep (CommandLine.join sep (w2 :: words)))%string.
      rewrite (splitLoop_plain w _ EmptyString storage Plain).
      cbn [String.append CommandLine.splitLoop]. rewrite Sep, NonEmpty.
      rewrite (IH (storage ++ [w]) Pws). now rewrite <- app_assoc.
Qed.

(** Round trip: non-empty words of plain characters (no whitespace, no
    backslash, no quote), joined by a whitespace character, are split
    into exactly these words. *)
Theorem split_join_round_trip :
  forall sep words,
    isWhitespace sep = true ->
    Forall (fun w => CommandLine.plainWord isWhitespace w = true) words ->
    splitArguments (CommandLine.join sep words) = Some words.
Proof.
  intros sep words Sep All. unfold CommandLine.splitArguments.
  now rewrite (splitLoop_join sep Sep words [] All).
Qed.

Lemma splitLoop_singleQuoted :
  forall text rest current storage,
    lacks CommandLine.singleQuote text = true ->
    splitLoop CommandLine.SingleQuoted (text ++ String CommandLine.singleQuote rest)%string
              current storage
    = splitLoop CommandLine.Unquoted rest (current ++ text)%string storage.
Proof.
  induction text as [|ch text IH]; intros rest current storage L.
  - cbn. now rewrite append_empty_r.
  - cbn [lacks] in L. apply andb_true_iff in L. destruct L as [Lc Lt].
    apply negb_true_iff in Lc.
    cbn [String.append CommandLine.splitLoop]. rewrite Lc.
    rewrite (IH rest _ storage Lt). now rewrite append_push_back.
Qed.

Lemma splitLoop_unterminated :
  forall text current storage,
    lacks CommandLine.singleQuote text = true ->
    splitLoop CommandLine.SingleQuoted text current storage = None.
Proof.
  induction text as [|ch text IH]; intros current storage L; [reflexivity|].
  cbn [lacks] in L. apply andb_true_iff in L. destruct L as [Lc Lt].
  apply negb_true_iff in Lc. cbn [CommandLine.splitLoop]. rewrite Lc.
  apply IH, Lt.
Qed.

(** Single quotes group and do not delimit: plain text followed by a
    single-quoted text is one argument, the plain text followed by the
    quoted text taken literally (whitespace and backslashes included);
    if both are empty there is no argument at all. *)
Theorem split_single_quoted :
  forall before text,
    isWhitespace CommandLine.singleQuote = false ->
    plain before = true ->
    lacks CommandLine.singleQuote text = true ->
    splitArguments
      (before ++ String CommandLine.singleQuote
                        (text ++ String CommandLine.singleQuote EmptyString))%string
    = Some (if nonEmpty (before ++ text)%string then [(before ++ text)%string] else []).
Proof.
  intros before text Q P L. unfold CommandLine.splitArguments.
  rewrite (splitLoop_plain before _ EmptyString [] P).
  cbn [CommandLine.splitLoop]. rewrite Q.
  change (Ascii.eqb CommandLine.singleQuote CommandLine.backslash) with false.
  change (Ascii.eqb CommandLine.singleQuote CommandLine.singleQuote) with true.
  cbv iota.
  rewrite (splitLoop_singleQuoted text EmptyString _ [] L).
  cbn [CommandLine.splitLoop String.append app]. unfold nonEmpty.
  now destruct (CommandLine.empty (before ++ text)%string).
Qed.

(** A prefix that is split successfully on its own leaves the scan
    outside quotes, whatever follows it. *)
Lemma splitLoop_prefix :
  forall n before,
    (String.length before <= n)%nat ->
    forall quoting current storage result,
      splitLoop quoting before current storage = Some result ->
      exists current' storage',
        forall suffix,
          splitLoop quoting (before ++ suffix)%string current storage
          = splitLoop CommandLine.Unquoted suffix current' storage'.
Proof.
  induction n as [|n IH]; intros before Len quoting current storage result.
  - destruct before; [|cbn in Len; lia].
    cbn. destruct quoting; try discriminate. intros _. now exists current, storage.
  - destruct before as [|ch rest].
    + cbn. destruct quoting; try discriminate. intros _. now exists current, storage.
    + cbn [String.length] in Len.
      assert (Lrest : (String.length rest <= n)%nat) by lia.
      cbn [CommandLine.splitLoop String.append]. destruct quoting.
      * destruct (isWhitespace ch).
        -- destruct (CommandLine.empty current); intros R;
             exact (IH rest Lrest _ _ _ _ R).
        -- destruct (Ascii.eqb ch CommandLine.backslash).
           ++ destruct rest as [|escaped rest']; [discriminate|].
              intros R. cbn [String.length] in Lrest. cbn [String.append].
              exact (IH rest' ltac:(lia) _ _ _ _ R).
           ++ destruct (Ascii.eqb ch CommandLine.singleQuote);
                [|destruct (Ascii.eqb ch CommandLine.doubleQuote)];
                intros R; exact (IH rest Lrest _ _ _ _ R).
      * destruct (Ascii.eqb ch CommandLine.singleQuote);
          intros R; exact (IH rest Lrest _ _ _ _ R).
      * destruct (Ascii.eqb ch CommandLine.doubleQuote);
          [intros R; exact (IH rest Lrest _ _ _ _ R)|].
        destruct rest as [|next rest']; [discriminate|].
        cbn [String.append].
        destruct (Ascii.eqb ch CommandLine.backslash
                  && (Ascii.eqb next CommandLine.backslash
                      || Ascii.eqb next CommandLine.doubleQuote));
          intros R.
        -- cbn [String.length] in Lrest. exact (IH rest' ltac:(lia) _ _ _ _ R).
        -- exact (IH (String next rest') Lrest _ _ _ _ R).
Qed.

(** A backslash as the last character, or a single quote that is never
    closed, makes the scan run past the end of the argument string: when
    any argument string that is split successfully on its own (several
    arguments, quoted parts and escapes included) is followed by a lone
    backslash, or by a single quote and text without a closing quote, no
    list of arguments is produced. *)
Theorem split_overruns :
  forall argList arguments text,
    isWhitespace CommandLine.singleQuote = false ->
    isWhitespace CommandLine.backslash = false ->
    splitArguments argList = Some arguments ->
    lacks CommandLine.singleQuote text = true ->
    splitArguments (argList ++ String CommandLine.backslash EmptyString)%string = None
    /\ splitArguments (argList ++ String CommandLine.singleQuote text)%string = None.
Proof.
  intros argList arguments text Q B S L. unfold CommandLine.splitArguments in *.
  destruct (splitLoop_prefix (String.length argList) argList (Nat.le_refl _)
              CommandLine.Unquoted EmptyString [] arguments S)
    as (current & storage & Continue).
  rewrite !Continue. split.
  - cbn [CommandLine.splitLoop]. rewrite B.
    change (Ascii.eqb CommandLine.backslash CommandLine.backslash) with true.
    reflexivity.
  - cbn [CommandLine.splitLoop]. rewrite Q.
    change (Ascii.eqb CommandLine.singleQuote CommandLine.backslash) with false.
    change (Ascii.eqb CommandLine.singleQuote CommandLine.singleQuote) with true.
    cbv iota. apply splitLoop_unterminated, L.
Qed.

End SplittingLaws.

Lemma split_arguments_are_not_empty_witness :
  Forall (fun a => CommandLine.empty a = false) ["prog"; "b c"].
Proof.
  apply (split_arguments_are_not_empty CommandLine.asciiWhitespace
           "prog '' 'b c' ''" ["prog"; "b c"]).
  reflexivity.
Defined.

Lemma split_join_round_trip_witness :
  CommandLine.splitArguments CommandLine.asciiWhitespace
    (CommandLine.join " "%char ["slang"; "-v"; "top.sv"])
  = Some ["slang"; "-v"; "top.sv"].
Proof.
  apply (split_join_round_trip CommandLine.asciiWhitespace " "%char
           ["slang"; "-v"; "top.sv"] eq_refl).
  repeat constructor.
Defined.

(** [-I'my dir'] is the one argument [-Imy dir]. *)
Lemma split_single_quoted_witness :
  CommandLine.splitArguments CommandLine.asciiWhitespace
    ("-I" ++ String CommandLine.singleQuote
                    ("my dir" ++ String CommandLine.singleQuote EmptyString))%string
  = Some (if nonEmpty ("-I" ++ "my dir")%string then [("-I" ++ "my dir")%string] else []).
Proof.
  apply (split_single_quoted CommandLine.asciiWhitespace "-I" "my dir"
           eq_refl eq_refl eq_refl).
Defined.

Lemma split_overruns_witness :
  CommandLine.splitArguments CommandLine.asciiWhitespace
    ("slang top.sv" ++ String CommandLine.backslash EmptyString)%string = None
  /\ CommandLine.splitArguments CommandLine.asciiWhitespace
       ("slang top.sv" ++ String CommandLine.singleQuote " -v")%string = None.
Proof.
  apply (split_overruns CommandLine.asciiWhitespace "slang top.sv"
           ["slang"; "top.sv"] " -v" eq_refl eq_refl eq_refl eq_refl).
Defined.

(** ** Parsing the arguments *)

Section ParsingLaws.

Variable editDistance : string -> string -> bool -> Z -> Z.
Variable filename : string -> string.

Local Notation parseLoop := (CommandLine.parseLoop editDistance).
Local Notation parse := (CommandLine.parse editDistance filename).

Lemma parseLoop_extends m programName :
  forall arguments doubleDash positionalArgs errors,
    exists morePositional moreErrors,
      parseLoop m programName arguments doubleDash positionalArgs errors
      = (positionalArgs ++ morePositional, errors ++ moreErrors).
Proof.
  induction arguments as [|arg rest IH]; intros doubleDash positionalArgs errors.
  - exists [], []. cbn. now rewrite !app_nil_r.
  - cbn [CommandLine.parseLoop].
    destruct (CommandLine.empty arg); [apply IH|].
    destruct (negb (CommandLine.startsWith "-"%char arg)
              || (String.length arg =? 1)%nat || doubleDash).
    + destruct (IH doubleDash (positionalArgs ++ [arg]) errors) as (p & e & E).
      exists (arg :: p), e. rewrite E. now rewrite <- app_assoc.
    + destruct (String.eqb arg "--"); [apply IH|].
      destruct (CommandLine.findOption m _) as [[option|] value].
      * apply IH.
      * match goal with
        | |- context [if ?b then CommandLine.tryGroupOrPrefix _ _ else None] =>
            destruct b
        end;
          cbn [CommandLine.tryGroupOrPrefix];
          match goal with
          | |- context [parseLoop _ _ _ _ _ (errors ++ [?msg])] =>
              destruct (IH doubleDash positionalArgs (errors ++ [msg])) as (p & e & E);
                exists p, (msg :: e); rewrite E; now rewrite <- app_assoc
          end.
Qed.

(** The errors of a command line are never cleared: a call of [parse]
    that returns leaves the errors recorded before in place, in front of
    its own, leaves the registered options as they are, and returns true
    exactly if no error is recorded at all; after one failed [parse],
    every later [parse] returns false. *)
Theorem parse_errors_accumulate :
  forall arguments st result st',
    parse arguments st = (CommandLine.Returned result, st') ->
    (exists added, CommandLine.errors st' = CommandLine.errors st ++ added)
    /\ CommandLine.optionMap st' = CommandLine.optionMap st
    /\ (result = true <-> CommandLine.errors st' = [])
    /\ (CommandLine.errors st <> [] -> result = false).
Proof.
  intros arguments st result st' P. unfold CommandLine.parse in P.
  destruct arguments as [|first rest]; [discriminate P|].
  destruct (parseLoop_extends (CommandLine.optionMap st) (filename first)
              (first :: rest) false [] (CommandLine.errors st)) as (p & e & E).
  rewrite E in P. cbn [app] in P.
  assert (Added : exists added,
             CommandLine.errors st' = CommandLine.errors st ++ added).
  { destruct (CommandLine.positional st); [|destruct p];
      inversion P; subst; cbn [CommandLine.errors];
      [now exists e|now exists e|].
    eexists. now rewrite <- app_assoc. }
  assert (Result : result = match CommandLine.errors st' with
                            | [] => true | _ => false end).
  { destruct (CommandLine.positional st); [|destruct p];
      inversion P; subst; reflexivity. }
  split; [exact Added|]. split.
  - destruct (CommandLine.positional st); [|destruct p]; inversion P; subst; reflexivity.
  - split.
    + rewrite Result. destruct (CommandLine.errors st'); split; congruence.
    + intros NonEmpty. rewrite Result. destruct Added as [added A]. rewrite A.
      destruct (CommandLine.errors st); [contradiction|reflexivity].
Qed.

(** The program name is treated like every other argument: when no
    positional option is registered and the first argument is not empty
    and does not start with a dash, [parse] returns false, and its last
    error is "positional arguments are not allowed", naming the program
    name as the offending argument. *)
Theorem parse_program_name_is_positional :
  forall first rest st,
    CommandLine.positional st = None ->
    CommandLine.empty first = false ->
    CommandLine.startsWith "-"%char first = false ->
    exists st' earlier,
      parse (first :: rest) st = (CommandLine.Returned false, st')
      /\ CommandLine.errors st'
         = earlier ++ [CommandLine.positionalNotAllowed (filename first) first].
Proof.
  intros first rest st NoPositional NonEmpty NoDash.
  unfold CommandLine.parse. cbn [CommandLine.parseLoop].
  rewrite NonEmpty, NoDash. cbn [negb orb app].
  destruct (parseLoop_extends (CommandLine.optionMap st) (filename first)
              rest false [first] (CommandLine.errors st)) as (p & e & E).
  rewrite E, NoPositional. cbn [app].
  exists {| CommandLine.optionMap := CommandLine.optionMap st;
            CommandLine.positional := None;
            CommandLine.programName := filename first;
            CommandLine.errors :=
              (CommandLine.errors st ++ e)
              ++ [CommandLine.positionalNotAllowed (filename first) first] |},
    (CommandLine.errors st ++ e).
  split; [|reflexivity].
  f_equal. now destruct (CommandLine.errors st ++ e).
Qed.

Lemma parseLoop_after_double_dash m programName :
  forall arguments positionalArgs errors,
    parseLoop m programName arguments true positionalArgs errors
    = (positionalArgs ++ filter nonEmpty arguments, errors).
Proof.
  induction arguments as [|arg rest IH]; intros positionalArgs errors.
  - cbn. now rewrite app_nil_r.
  - cbn [CommandLine.parseLoop filter]. unfold nonEmpty at 1.
    destruct (CommandLine.empty arg); cbn [negb]; [apply IH|].
    rewrite orb_true_r. rewrite IH. now rewrite <- app_assoc.
Qed.

(** After a double dash nothing is looked up any more: every non-empty
    argument that follows, options and further double dashes included, is
    a positional argument, and no error is recorded for it. *)
Theorem parse_after_double_dash :
  forall m programName arguments positionalArgs errors,
    parseLoop m programName ("--"%string :: arguments) false positionalArgs errors
    = (positionalArgs ++ filter nonEmpty arguments, errors).
Proof.
  intros m programName arguments positionalArgs errors.
  cbn [CommandLine.parseLoop CommandLine.empty CommandLine.startsWith].
  change (Ascii.eqb "-"%char "-"%char) with true. cbn [negb orb String.length].
  change (2 =? 1)%nat with false. cbn [String.eqb Ascii.eqb Bool.eqb].
  apply parseLoop_after_double_dash.
Qed.

End ParsingLaws.

Lemma parse_errors_accumulate_witness :
  (exists added,
      ["slang: positional arguments are not allowed (see e.g. 'slang')"]
      = [] ++ added)
  /\ [("x", flagOption)] = [("x", flagOption)]
  /\ (false = true
      <-> ["slang: positional arguments are not allowed (see e.g. 'slang')"] = [])
  /\ (@nil string <> [] -> false = false).
Proof.
  apply (parse_errors_accumulate sampleDistance sameName ["slang"; "-x"] stateWithX
           false
           {| CommandLine.optionMap := [("x", flagOption)];
              CommandLine.positional := None;
              CommandLine.programName := "slang";
              CommandLine.errors :=
                ["slang: positional arguments are not allowed (see e.g. 'slang')"] |}).
  reflexivity.
Defined.

Lemma parse_program_name_is_positional_witness :
  exists st' earlier,
    CommandLine.parse sampleDistance sameName ["slang"; "-x"] stateWithX
    = (CommandLine.Returned false, st')
    /\ CommandLine.errors st'
       = earlier ++ [CommandLine.positionalNotAllowed (sameName "slang") "slang"].
Proof.
  apply (parse_program_name_is_positional sampleDistance sameName "slang" ["-x"]
           stateWithX eq_refl eq_refl eq_refl).
Defined.
